(** * MindSync: the generation service client and the meeting scheduler

    A shallow embedding of [services/geminiService.ts] and of the [App]
    component (session store, lifecycle handlers and the auto-pilot turn
    [processNextTurn]), with the properties the specification states
    about them. *)

From Stdlib Require Import String Ascii ZArith NArith QArith Qround Lia.
From Stdlib Require Import DecimalString DecimalN Lqa Qpower Qabs.
From stdpp Require Import base list strings.

Set Warnings "-register-all".
Local Open Scope string_scope.

(** ** JavaScript values

    What [JSON.parse] produces and what a [catch] clause receives.  A
    number inside such a value is kept as an integer: the code only
    compares these numbers with the literal [429].  A string is held as
    the bytes of its UTF-8 encoding (a surrogate outside a pair as the
    three bytes that scheme gives its code unit), which is also how the
    string literals of this file are read. *)
Module JS.

Inductive jsval : Type :=
| JUndefined
| JNull
| JBool (b : bool)
| JNum (n : Z)
| JStr (s : string)
| JArr (items : list jsval)
| JObj (fields : list (string * jsval)).

(** Result of an awaited call: a value, or the thrown value. *)
Inductive outcome (E A : Type) : Type :=
| Ok (a : A)
| Throw (e : E).
Arguments Ok {E A} a.
Arguments Throw {E A} e.

(** [o.k] on an object literal: the first field of that name. *)
Fixpoint field (k : string) (fields : list (string * jsval)) : jsval :=
  match fields with
  | [] => JUndefined
  | (k', v) :: rest => if String.eqb k k' then v else field k rest
  end.

(** [v.k]: reading a property of [null] or [undefined] throws a TypeError
    ([None]); primitives and arrays have no such own property. *)
Definition get (v : jsval) (k : string) : option jsval :=
  match v with
  | JUndefined | JNull => None
  | JObj fields => Some (field k fields)
  | _ => Some JUndefined
  end.

(** Truthiness, as used by [if (v)] and [v || d]. *)
Definition truthy (v : jsval) : bool :=
  match v with
  | JUndefined | JNull => false
  | JBool b => b
  | JNum n => negb (n =? 0)%Z
  | JStr s => negb (String.eqb s EmptyString)
  | JArr _ | JObj _ => true
  end.

(** [s.startsWith(p)] and [s.includes(p)]. *)
Fixpoint startsWith (p s : string) : bool :=
  match p, s with
  | EmptyString, _ => true
  | String a p', String b s' => Ascii.eqb a b && startsWith p' s'
  | String _ _, EmptyString => false
  end.

Fixpoint includes (s p : string) : bool :=
  startsWith p s ||
  match s with
  | EmptyString => false
  | String _ s' => includes s' p
  end.

(** The byte as a number. *)
Definition codeOf (c : ascii) : N := N_of_ascii c.

(** White space and line terminators, as [String.prototype.trim] knows
    them.  One byte: tab, line feed, vertical tab, form feed, carriage
    return (U+0009 to U+000D) and space (U+0020). *)
Definition isSpace (c : ascii) : bool :=
  let n := nat_of_ascii c in
  (n =? 32)%nat || ((9 <=? n)%nat && (n <=? 13)%nat).

(** Two bytes: the no-break space U+00A0. *)
Definition isSpace2 (a b : ascii) : bool :=
  (codeOf a =? 194)%N && (codeOf b =? 160)%N.

(** Three bytes: U+1680, U+2000 to U+200A, the line and paragraph
    separators U+2028 and U+2029, U+202F, U+205F, U+3000 and the byte
    order mark U+FEFF. *)
Definition isSpace3 (a b c : ascii) : bool :=
  match codeOf a, codeOf b with
  | 225, 154 => (codeOf c =? 128)%N
  | 226, 128 =>
      ((128 <=? codeOf c) && (codeOf c <=? 138))%N
      || (codeOf c =? 168)%N || (codeOf c =? 169)%N || (codeOf c =? 175)%N
  | 226, 129 => (codeOf c =? 159)%N
  | 227, 128 => (codeOf c =? 128)%N
  | 239, 187 => (codeOf c =? 191)%N
  | _, _ => false
  end%N.

Fixpoint trimStart (s : string) : string :=
  match s with
  | EmptyString => EmptyString
  | String a s1 =>
      if isSpace a then trimStart s1
      else
        match s1 with
        | String b s2 =>
            if isSpace2 a b then trimStart s2
            else
              match s2 with
              | String c s3 => if isSpace3 a b c then trimStart s3 else s
              | EmptyString => s
              end
        | EmptyString => s
        end
  end.

(** [!s] on a string. *)
Definition isEmpty (s : string) : bool := String.eqb s EmptyString.

(** What is left of [s] when the white space at its end is dropped: the
    empty string once the rest of [s] is white space only. *)
Fixpoint trimEnd (s : string) : string :=
  match s with
  | EmptyString => EmptyString
  | String c s' =>
      if isEmpty (trimStart s) then EmptyString else String c (trimEnd s')
  end.

Definition trim (s : string) : string := trimEnd (trimStart s).

(** A string handed to [JSON.parse]: text that is not JSON, or the
    serialisation of a value. *)
Inductive jsonText : Type :=
| NotJson (raw : string)
| JsonOf (v : jsval).

(** [JSON.parse(t)]; [None] stands for the SyntaxError it throws. *)
Definition JSON_parse (t : jsonText) : option jsval :=
  match t with
  | NotJson _ => None
  | JsonOf v => Some v
  end.

(** [!t] on such a string: only the empty string is falsy, and it is not
    JSON. *)
Definition isEmptyText (t : jsonText) : bool :=
  match t with
  | NotJson raw => isEmpty raw
  | JsonOf _ => false
  end.

(** *** Arithmetic

    Arithmetic is that of IEEE 754 binary64: the exact result is rounded
    to the nearest double, the one with the even significand on a tie.
    Every finite double is a rational, so these numbers are rationals
    here; the overflow to [Infinity], from [2^1024] on, is not
    represented. *)

(** [floor (log2 |x|)], for [x] other than 0. *)
Definition binade (x : Q) : Z :=
  let e := (Z.log2 (Z.abs (Qnum x)) - Z.log2 (Z.pos (Qden x)))%Z in
  if Qle_bool (2 ^ e) (Qabs x) then e else (e - 1)%Z.

(** The exponent of the unit in the last place of the doubles of the
    magnitude of [x]: 53 significant bits, and the fixed exponent of
    the subnormal numbers below [2^-1022]. *)
Definition ulpExponent (x : Q) : Z := (Z.max (binade x) (-1022) - 52)%Z.

(** The integer nearest to [m], the even one on a tie. *)
Definition roundHalfEven (m : Q) : Z :=
  let f := Qfloor m in
  match (m - inject_Z f ?= 1 # 2)%Q with
  | Lt => f
  | Gt => (f + 1)%Z
  | Eq => if Z.even f then f else (f + 1)%Z
  end.

Definition roundDouble (x : Q) : Q :=
  let x := Qred x in
  let e := ulpExponent x in
  Qred (inject_Z (roundHalfEven (x * 2 ^ (- e))) * 2 ^ e).

(** [a + b] and [a * b] on numbers. *)
Definition numAdd (a b : Q) : Q := roundDouble (a + b).
Definition numMul (a b : Q) : Q := roundDouble (a * b).

End JS.
Import JS.
#[global] Arguments roundDouble : simpl never.

(** ** services/geminiService.ts *)
Module GeminiService.

Definition MAX_RETRIES : nat := 3.
Definition INITIAL_BACKOFF_MS : Q := 2000.

(** The thrown value as the handler of [callWithRetry] reads it:
    [error?.status], [error?.code] and [error?.message]. *)
Record jsError : Type := mkError {
  status : jsval;
  code : jsval;
  message : option string
}.

Definition jsval_is_num (v : jsval) (k : Z) : bool :=
  match v with JNum n => (n =? k)%Z | _ => false end.

Definition jsval_is_str (v : jsval) (t : string) : bool :=
  match v with JStr s => String.eqb s t | _ => false end.

Definition isRateLimit (error : jsError) : bool :=
  jsval_is_num (status error) 429
  || jsval_is_num (code error) 429
  || match message error with Some m => includes m "429" | None => false end
  || jsval_is_str (status error) "RESOURCE_EXHAUSTED".

(** What one run of [callWithRetry] did: its result, the waits it slept
    (the delays handed to [setTimeout], in milliseconds and in order) and
    how many times it invoked [fn]. *)
Record run (T : Type) : Type := mkRun {
  result : outcome jsError T;
  waits : list Q;
  calls : nat
}.
Arguments mkRun {T} _ _ _.
Arguments result {T} _.
Arguments waits {T} _.
Arguments calls {T} _.

Section CallWithRetry.
Context {T : Type}.
(** [fn k] is the outcome of the [k]-th invocation of the wrapped
    function, [random k] the [k]-th draw of [Math.random()]. *)
Variable fn : nat -> outcome jsError T.
Variable random : nat -> Q.

Fixpoint callWithRetry_from (attempt retries : nat) (delay : Q) : run T :=
  match fn attempt with
  | Ok v => mkRun (Ok v) [] 1
  | Throw error =>
      match retries with
      | S retries' =>
          if isRateLimit error then
            let jitter := numMul (random attempt) 500 in
            let actualDelay := numAdd delay jitter in
            let r := callWithRetry_from (S attempt) retries' (numMul delay 2) in
            mkRun (result r) (actualDelay :: waits r) (S (calls r))
          else mkRun (Throw error) [] 1
      | O => mkRun (Throw error) [] 1
      end
  end.

Definition callWithRetry : run T :=
  callWithRetry_from 0 MAX_RETRIES INITIAL_BACKOFF_MS.
End CallWithRetry.

(** *** generateAgentThought

    The prompt is built from the arguments and does not influence the
    control flow, so the model is a function of what the backend answers:
    [response.text], or a thrown error, per invocation. *)
Definition THOUGHT_FILLER : string := "Thinking...".

Definition thoughtAttempt (response : outcome jsError (option jsonText))
  : outcome jsError jsval :=
  match response with
  | Throw _ => Ok (JStr THOUGHT_FILLER)
  | Ok text =>
      let source :=
        match text with
        | Some t => if isEmptyText t then JsonOf (JObj []) else t
        | None => JsonOf (JObj [])
        end in
      match JSON_parse source with
      | None => Ok (JStr THOUGHT_FILLER)
      | Some data =>
          match get data "thought" with
          | None => Ok (JStr THOUGHT_FILLER)
          | Some thought =>
              Ok (if truthy thought then thought else JStr THOUGHT_FILLER)
          end
      end
  end.

Definition generateAgentThought
    (backend : nat -> outcome jsError (option jsonText)) (random : nat -> Q)
  : run jsval :=
  callWithRetry (fun k => thoughtAttempt (backend k)) random.

(** *** generateAgentSpeechStream

    A connection that was opened delivers chunks ([chunk.text] may be
    undefined) and then ends, normally or by throwing. *)
Record connection : Type := mkConnection {
  chunkTexts : list (option string);
  failure : option jsError
}.

(** What a consumer of an async generator observes: the fragments it
    yielded, and how it completed. *)
Record generated : Type := mkGenerated {
  yielded : list string;
  completion : outcome jsError unit
}.

Definition STREAM_ERROR_NOTICE : string :=
  "Error: Service busy. Please try again later.".

Definition chunkFragment (text : option string) : list string :=
  match text with
  | Some t => if isEmpty t then [] else [t]
  | None => []
  end.

(** The [try] block: connect through [callWithRetry], then relay. *)
Definition speechStreamBody
    (connect : nat -> outcome jsError connection) (random : nat -> Q)
  : generated :=
  match result (callWithRetry connect random) with
  | Throw error => mkGenerated [] (Throw error)
  | Ok conn =>
      mkGenerated (concat (map chunkFragment (chunkTexts conn)))
        match failure conn with
        | Some error => Throw error
        | None => Ok tt
        end
  end.

(** The [catch] clause yields the notice and the generator returns. *)
Definition generateAgentSpeechStream
    (connect : nat -> outcome jsError connection) (random : nat -> Q)
  : generated :=
  let body := speechStreamBody connect random in
  match completion body with
  | Ok _ => body
  | Throw _ => mkGenerated (yielded body ++ [STREAM_ERROR_NOTICE]) (Ok tt)
  end.

(** *** generatePhaseCheck *)
Definition phaseCheckAttempt (response : outcome jsError (option string))
  : outcome jsError (option string) :=
  match response with
  | Throw _ => Ok None
  | Ok None => Ok None
  | Ok (Some raw) =>
      let text := trim raw in
      if isEmpty text || includes text "NO_ACTION" then Ok None
      else Ok (Some text)
  end.

Definition generatePhaseCheck
    (backend : nat -> outcome jsError (option string)) (random : nat -> Q)
  : run (option string) :=
  callWithRetry (fun k => phaseCheckAttempt (backend k)) random.

End GeminiService.

(** ** types.ts *)
Module Agent.
Record t : Type := mk {
  id : string;
  name : string;
  role : string;
  personality : string;
  avatarId : Z
}.
End Agent.

Inductive MessageType : Type := speech | system.

Module Message.
Record t : Type := mk {
  id : string;
  senderId : string;
  senderName : string;
  content : string;
  thought : option string;
  timestamp : N;
  type : MessageType
}.

(** [{ ...m, content }] *)
Definition withContent (m : t) (c : string) : t :=
  mk (id m) (senderId m) (senderName m) c (thought m) (timestamp m) (type m).
End Message.

Inductive AppStage : Type :=
| topicStage | rolesStage | meetingStage | reportStage.

Inductive Language : Type := en | zh.

Module MeetingState.
Record t : Type := mk {
  topic : string;
  agents : list Agent.t;
  messages : list Message.t;
  isActive : bool;
  isGenerating : bool;
  language : Language
}.

(** [{ ...prev, messages }], [{ ...prev, isActive }] and
    [{ ...prev, isGenerating }]. *)
Definition withMessages (prev : t) (msgs : list Message.t) : t :=
  mk (topic prev) (agents prev) msgs (isActive prev) (isGenerating prev)
     (language prev).
Definition withIsActive (prev : t) (b : bool) : t :=
  mk (topic prev) (agents prev) (messages prev) b (isGenerating prev)
     (language prev).
Definition withIsGenerating (prev : t) (b : bool) : t :=
  mk (topic prev) (agents prev) (messages prev) (isActive prev) b
     (language prev).
End MeetingState.

#[global] Instance AppStage_eq_dec : EqDecision AppStage.
Proof. solve_decision. Defined.

(** ** The App component *)
Module App.
Import GeminiService.

Definition INITIAL_STATE : MeetingState.t :=
  MeetingState.mk EmptyString [] [] false false en.

(** The entries of [TEXT] the handlers below read. *)
Record Text : Type := mkText {
  needMoreParticipants : string;
  hostRole : string;
  restoreFail : string;
  assistantName : string
}.

Definition TEXT (l : Language) : Text :=
  match l with
  | en => mkText "Need at least 2 participants to start."
                 "Host / Moderator"
                 "Could not restore session."
                 "Meeting Assistant"
  | zh => mkText "至少需要 2 名参与者才能开始。"
                 "主持人 / 版主"
                 "无法恢复会话。"
                 "会议助手"
  end.

(** [n.toString()] for the non-negative integer [Date.now()] returns. *)
Definition toString (n : N) : string :=
  DecimalString.NilZero.string_of_uint (N.to_uint n).

(** Where a pending [processNextTurn] is suspended.  [snap] is the [state]
    of the render whose closure is running: the turn reads the topic, the
    roster, the transcript and the language from it, while every
    [setState(prev => ...)] acts on the live state. *)
Inductive Activation : Type :=
| NoTurn
| AwaitPhaseCheck (snap : MeetingState.t)
| AwaitSettle (snap : MeetingState.t) (nextSpeaker : Agent.t)
| AwaitThought (snap : MeetingState.t) (nextSpeaker : Agent.t)
| AwaitChunk (snap : MeetingState.t) (nextSpeaker : Agent.t)
    (fullContent : string).

(** The hooks of [App] that the handlers touch, the clock [Date.now()]
    reads, the due times of the pending resume timers of
    [handleUserMessage], and the pending turn. *)
Record Sys : Type := mkSys {
  stage : AppStage;
  state : MeetingState.t;
  inputValue : string;
  thinkingAgentId : option string;
  isSummaryOpen : bool;
  turnCount : N;
  clock : N;
  resumeTimers : list N;
  activation : Activation
}.

Definition setState (f : MeetingState.t -> MeetingState.t) (s : Sys) : Sys :=
  mkSys (stage s) (f (state s)) (inputValue s) (thinkingAgentId s)
        (isSummaryOpen s) (turnCount s) (clock s) (resumeTimers s)
        (activation s).
Definition setStage (g : AppStage) (s : Sys) : Sys :=
  mkSys g (state s) (inputValue s) (thinkingAgentId s) (isSummaryOpen s)
        (turnCount s) (clock s) (resumeTimers s) (activation s).
Definition setInputValue (v : string) (s : Sys) : Sys :=
  mkSys (stage s) (state s) v (thinkingAgentId s) (isSummaryOpen s)
        (turnCount s) (clock s) (resumeTimers s) (activation s).
Definition setThinkingAgentId (a : option string) (s : Sys) : Sys :=
  mkSys (stage s) (state s) (inputValue s) a (isSummaryOpen s)
        (turnCount s) (clock s) (resumeTimers s) (activation s).
Definition setTurnCount (n : N) (s : Sys) : Sys :=
  mkSys (stage s) (state s) (inputValue s) (thinkingAgentId s)
        (isSummaryOpen s) n (clock s) (resumeTimers s) (activation s).
Definition setClock (n : N) (s : Sys) : Sys :=
  mkSys (stage s) (state s) (inputValue s) (thinkingAgentId s)
        (isSummaryOpen s) (turnCount s) n (resumeTimers s) (activation s).
Definition setResumeTimers (l : list N) (s : Sys) : Sys :=
  mkSys (stage s) (state s) (inputValue s) (thinkingAgentId s)
        (isSummaryOpen s) (turnCount s) (clock s) l (activation s).
Definition setActivation (a : Activation) (s : Sys) : Sys :=
  mkSys (stage s) (state s) (inputValue s) (thinkingAgentId s)
        (isSummaryOpen s) (turnCount s) (clock s) (resumeTimers s) a.

(** *** Roster review: startMeeting and its button *)
Definition quote : string := String "034"%char EmptyString.

Definition welcomeContent (l : Language) (topic : string) : string :=
  match l with
  | zh => "会议开始，话题: " ++ quote ++ topic ++ quote ++ ". 主持人（你）请发言。"
  | en => "Meeting started on topic: " ++ quote ++ topic ++ quote
          ++ ". The moderator (You) has the floor."
  end.

Definition welcomeMessage (l : Language) (topic : string) (now : N)
  : Message.t :=
  Message.mk "system-start" "system" "System" (welcomeContent l topic) None
             now system.

Definition startMeeting (s : Sys) : Sys :=
  if (length (MeetingState.agents (state s)) =? 0)%nat then s
  else
    let lang := MeetingState.language (state s) in
    let s1 := setStage meetingStage s in
    let s2 :=
      setState (fun prev =>
        MeetingState.withIsActive
          (MeetingState.withMessages prev
             [welcomeMessage lang (MeetingState.topic prev) (clock s)])
          true) s1 in
    setTurnCount 0 s2.

(** Modelled from the spec: the [Button] component ([components/Button])
    is not among the sources.  Fewer than two agents "blocks the
    transition", so its [disabled] property is taken to reach the DOM
    button, which then does not deliver the click to [onClick]. *)
Definition Button (disabled : bool) (onClick : Sys -> Sys) : Sys -> Sys :=
  fun s => if disabled then s else onClick s.

(** The Start Meeting button of [renderRolesStage]:
    [onClick={startMeeting} disabled={state.agents.length < 2}]. *)
Definition startMeetingDisabled (s : Sys) : bool :=
  (length (MeetingState.agents (state s)) <? 2)%nat.

Definition clickStartMeeting (s : Sys) : Sys :=
  Button (startMeetingDisabled s) startMeeting s.

(** The notice [renderRolesStage] shows under the cards. *)
Definition rosterNotice (s : Sys) : option string :=
  if (length (MeetingState.agents (state s)) <? 2)%nat
  then Some (needMoreParticipants (TEXT (MeetingState.language (state s))))
  else None.

(** *** The session store during the meeting *)
Definition addMessage (msg : Message.t) (s : Sys) : Sys :=
  let s1 :=
    setState (fun prev =>
      MeetingState.withMessages prev (MeetingState.messages prev ++ [msg])) s in
  setTurnCount (turnCount s1 + 1) s1.

Definition updateLastMessage (content : string) (s : Sys) : Sys :=
  setState (fun prev =>
    let msgs := MeetingState.messages prev in
    if (length msgs =? 0)%nat then prev
    else
      MeetingState.withMessages prev
        (alter (fun m => Message.withContent m content) (length msgs - 1)%nat
               msgs)) s.

Definition QUIET_PERIOD_MS : N := 2000.

Definition handleUserMessage (s : Sys) : Sys :=
  if isEmpty (trim (inputValue s)) then s
  else
    let t := TEXT (MeetingState.language (state s)) in
    let s1 := setState (fun prev => MeetingState.withIsActive prev false) s in
    let newMessage :=
      Message.mk (toString (clock s)) "user" (hostRole t) (inputValue s) None
                 (clock s) speech in
    let s2 := addMessage newMessage s1 in
    let s3 := setInputValue EmptyString s2 in
    setResumeTimers (resumeTimers s3 ++ [(clock s + QUIET_PERIOD_MS)%N]) s3.

(** Time passes: the clock advances and every resume timer that is due
    runs its callback, [setState(prev => ({ ...prev, isActive: true }))]. *)
Definition elapse (ms : N) (s : Sys) : Sys :=
  let now := (clock s + ms)%N in
  let due := filter (fun t => (t <= now)%N) (resumeTimers s) in
  let later := filter (fun t => ~ (t <= now)%N) (resumeTimers s) in
  let s1 := setResumeTimers later (setClock now s) in
  match due with
  | [] => s1
  | _ :: _ => setState (fun prev => MeetingState.withIsActive prev true) s1
  end.

(** The pause button of the meeting header. *)
Definition togglePause (s : Sys) : Sys :=
  setState (fun prev =>
    MeetingState.withIsActive prev (negb (MeetingState.isActive prev))) s.

(** *** processNextTurn

    The async function is cut at its [await]s; each piece below runs
    without interruption, as a JavaScript job does. *)

(** The entry guard (the function returns when it is false). *)
Definition entryGuard (s : Sys) : bool :=
  MeetingState.isActive (state s)
  && negb (MeetingState.isGenerating (state s))
  && bool_decide (stage s = meetingStage)
  && negb (length (MeetingState.agents (state s)) =? 0)%nat
  && negb (isSummaryOpen s).

(** [turnCountRef.current > 0 && turnCountRef.current % 4 === 0] *)
Definition assistantCheckDue (s : Sys) : bool :=
  (0 <? turnCount s)%N && (turnCount s mod 4 =? 0)%N.

Definition availableAgents (agents : list Agent.t) (lastMessage : Message.t)
  : list Agent.t :=
  filter (fun a => Agent.id a <> Message.senderId lastMessage) agents.

Definition candidatesFor (agents : list Agent.t) (lastMessage : Message.t)
  : list Agent.t :=
  let available := availableAgents agents lastMessage in
  if (0 <? length available)%nat then available else agents.

(** [candidates[Math.floor(random * candidates.length)]]; [None] is
    [undefined]. *)
Definition pickSpeaker (candidates : list Agent.t) (random : Q)
  : option Agent.t :=
  let i := Qfloor (random * inject_Z (Z.of_nat (length candidates))) in
  if (i <? 0)%Z then None else candidates !! Z.to_nat i.

Definition clearGenerating (s : Sys) : Sys :=
  setState (fun prev => MeetingState.withIsGenerating prev false) s.

(** The [finally] block. *)
Definition turnCleanup (s : Sys) : Sys :=
  setActivation NoTurn (setThinkingAgentId None (clearGenerating s)).

(** Phase 2 up to the settling delay.  Reading [senderId] of an absent
    last message, or [id] of an absent pick, throws outside the [try]:
    the function ends there and nothing more is written. *)
Definition agentTurn (snap : MeetingState.t) (random : Q) (s : Sys) : Sys :=
  match last (MeetingState.messages snap) with
  | None => setActivation NoTurn s
  | Some lastMessage =>
      let candidates := candidatesFor (MeetingState.agents snap) lastMessage in
      if (length candidates =? 0)%nat then
        setActivation NoTurn (clearGenerating s)
      else
        match pickSpeaker candidates random with
        | None => setActivation NoTurn s
        | Some nextSpeaker =>
            setActivation (AwaitSettle snap nextSpeaker)
              (setThinkingAgentId (Some (Agent.id nextSpeaker)) s)
        end
  end.

(** From the timer callback to the first [await]. *)
Definition processNextTurn (random : Q) (s : Sys) : Sys :=
  if negb (entryGuard s) then s
  else
    let snap := state s in
    let s1 := setState (fun prev => MeetingState.withIsGenerating prev true) s in
    if assistantCheckDue s1 then setActivation (AwaitPhaseCheck snap) s1
    else agentTurn snap random s1.

Definition assistantMessage (lang : Language) (intervention : string)
    (now : N) : Message.t :=
  Message.mk (toString now) "assistant" (assistantName (TEXT lang))
             intervention None now system.

(** After [await generatePhaseCheck(...)]; a thrown error is ignored. *)
Definition afterPhaseCheck (snap : MeetingState.t)
    (r : outcome jsError (option string)) (random : Q) (s : Sys) : Sys :=
  match r with
  | Ok (Some intervention) =>
      if isEmpty intervention then agentTurn snap random s
      else
        let s1 :=
          addMessage
            (assistantMessage (MeetingState.language snap) intervention
                              (clock s)) s in
        setActivation NoTurn (clearGenerating s1)
  | Ok None | Throw _ => agentTurn snap random s
  end.

Definition placeholderMessage (nextSpeaker : Agent.t) (thought : string)
    (now : N) : Message.t :=
  Message.mk (toString now) (Agent.id nextSpeaker) (Agent.name nextSpeaker)
             EmptyString (Some thought) now speech.

(** After [await generateAgentThought(...)]. *)
Definition afterThought (snap : MeetingState.t) (nextSpeaker : Agent.t)
    (r : outcome jsError string) (s : Sys) : Sys :=
  match r with
  | Ok thought =>
      setActivation (AwaitChunk snap nextSpeaker EmptyString)
        (addMessage (placeholderMessage nextSpeaker thought (clock s)) s)
  | Throw _ => turnCleanup s
  end.

(** One iteration of [for await (const chunk of stream)]. *)
Definition onChunk (snap : MeetingState.t) (nextSpeaker : Agent.t)
    (fullContent chunk : string) (s : Sys) : Sys :=
  let fullContent' := fullContent ++ chunk in
  setActivation (AwaitChunk snap nextSpeaker fullContent')
    (updateLastMessage fullContent' s).

(** *** The event loop

    What the browser delivers to the component: the callback of
    [setTimeout(processNextTurn, 2000)], the settlement of each promise a
    turn awaits (with the awaited value at its declared type, or the
    thrown error; [random] is the draw of [Math.random()] the resumed
    code makes), the fragments and the end of the speech stream, the
    user's typing, submitting and pausing, and the passing of time. *)
Inductive event : Type :=
| TurnTimer (random : Q)
| PhaseCheckSettled (r : outcome jsError (option string)) (random : Q)
| SettleElapsed
| ThoughtSettled (r : outcome jsError string)
| StreamYielded (chunk : string)
| StreamClosed (r : outcome jsError unit)
| UserTyped (text : string)
| UserSubmitted
| PauseToggled
| Elapsed (ms : N).

(** [None]: the event cannot occur in that state, because no such
    [await] is pending or because the control is only rendered in the
    meeting stage.  A single pending turn is represented: a timer
    callback that passes the guard while a turn is pending has no
    successor here (the generating flag, set for the pending turn, keeps
    the guard false). *)
Definition step (s : Sys) (e : event) : option Sys :=
  match e, activation s with
  | TurnTimer random, NoTurn => Some (processNextTurn random s)
  | TurnTimer random, _ => if entryGuard s then None else Some s
  | PhaseCheckSettled r random, AwaitPhaseCheck snap =>
      Some (afterPhaseCheck snap r random s)
  | SettleElapsed, AwaitSettle snap nextSpeaker =>
      Some (setActivation (AwaitThought snap nextSpeaker) s)
  | ThoughtSettled r, AwaitThought snap nextSpeaker =>
      Some (afterThought snap nextSpeaker r s)
  | StreamYielded chunk, AwaitChunk snap nextSpeaker fullContent =>
      Some (onChunk snap nextSpeaker fullContent chunk s)
  | StreamClosed _, AwaitChunk _ _ _ => Some (turnCleanup s)
  | UserTyped text, _ =>
      if bool_decide (stage s = meetingStage) then Some (setInputValue text s)
      else None
  | UserSubmitted, _ =>
      if bool_decide (stage s = meetingStage) then Some (handleUserMessage s)
      else None
  | PauseToggled, _ =>
      if bool_decide (stage s = meetingStage) then Some (togglePause s)
      else None
  | Elapsed ms, _ => Some (elapse ms s)
  | _, _ => None
  end.

Fixpoint exec (s : Sys) (evs : list event) : option Sys :=
  match evs with
  | [] => Some s
  | e :: evs' =>
      match step s e with
      | Some s' => exec s' evs'
      | None => None
      end
  end.

End App.

(** ** Saved sessions

    [localStorage] holds one item under [LOCAL_STORAGE_KEY].  The hooks
    are typed in the source, but at run time [setStage], [setState] and
    [setReport] store whatever value they are given, so the cells are
    modelled as JavaScript values here. *)
Module Persistence.

Record Store : Type := mkStore {
  stage : jsval;
  state : jsval;
  report : jsval;
  savedSessionAvailable : bool;
  savedSessionMetadata : option (jsval * jsval * jsval);
  alerts : list string;
  saved : option jsonText;
  t : App.Text
}.

Definition setCells (stage' state' report' : jsval) (s : Store) : Store :=
  mkStore stage' state' report' (savedSessionAvailable s)
          (savedSessionMetadata s) (alerts s) (saved s) (t s).
Definition alert (msg : string) (s : Store) : Store :=
  mkStore (stage s) (state s) (report s) (savedSessionAvailable s)
          (savedSessionMetadata s) (alerts s ++ [msg]) (saved s) (t s).
Definition removeItem (s : Store) : Store :=
  mkStore (stage s) (state s) (report s) (savedSessionAvailable s)
          (savedSessionMetadata s) (alerts s) None (t s).
Definition setSavedSessionAvailable (b : bool) (s : Store) : Store :=
  mkStore (stage s) (state s) (report s) b (savedSessionMetadata s)
          (alerts s) (saved s) (t s).
Definition setSavedSessionMetadata (m : option (jsval * jsval * jsval))
    (s : Store) : Store :=
  mkStore (stage s) (state s) (report s) (savedSessionAvailable s) m
          (alerts s) (saved s) (t s).

(** [localStorage.getItem(KEY)] followed by [if (saved)]. *)
Definition getItem (s : Store) : option jsonText :=
  match saved s with
  | Some text => if isEmptyText text then None else Some text
  | None => None
  end.

Definition restoreSession (s : Store) : Store :=
  match getItem s with
  | None => s
  | Some text =>
      match JSON_parse text with
      | None => alert (App.restoreFail (t s)) s
      | Some parsed =>
          match get parsed "stage", get parsed "state", get parsed "report" with
          | Some stage', Some state', Some report' =>
              setCells stage' state' report' s
          | _, _, _ => alert (App.restoreFail (t s)) s
          end
      end
  end.

(** The mount effect that looks for a saved session. *)
Definition checkSavedSession (s : Store) : Store :=
  match getItem s with
  | None => s
  | Some text =>
      match JSON_parse text with
      | None => removeItem s
      | Some parsed =>
          let s1 := setSavedSessionAvailable true s in
          match get parsed "state", get parsed "timestamp" with
          | Some st, Some date =>
              match get st "topic", get st "language" with
              | Some topic, Some language =>
                  let topic' :=
                    if truthy topic then topic else JStr "Untitled Session" in
                  setSavedSessionMetadata (Some (topic', date, language)) s1
              | _, _ => removeItem s1
              end
          | _, _ => removeItem s1
          end
      end
  end.

(** A snapshot that lacks [state.agents]. *)
Definition missingAgents (parsed : jsval) : bool :=
  match get parsed "state" with
  | Some st =>
      match get st "agents" with
      | Some (JArr _) => false
      | _ => true
      end
  | None => true
  end.

(** The restore was abandoned: the live cells are as before, the stored
    item is gone and the notice was shown. *)
Definition restoreAborted (before after : Store) : Prop :=
  stage after = stage before /\ state after = state before
  /\ report after = report before
  /\ saved after = None
  /\ alerts after = (alerts before ++ [App.restoreFail (t before)])%list.

End Persistence.

#[global] Instance MessageType_eq_dec : EqDecision MessageType.
Proof. solve_decision. Defined.

#[global] Instance Language_eq_dec : EqDecision Language.
Proof. solve_decision. Defined.

(** ** services/geminiService.ts, the remaining operations *)
Module Generation.
Import GeminiService.

(** *** The parts of the prompts that are computed from the session *)

(** [l.slice(-n)] *)
Definition sliceLast {A : Type} (n : nat) (l : list A) : list A :=
  drop (length l - n) l.

(** [l.join(sep)] on strings. *)
Definition join (sep : string) (l : list string) : string :=
  String.concat sep l.

Definition newline : string := String "010"%char EmptyString.

Definition langInstruction (language : Language) : string :=
  match language with
  | zh => "Simplified Chinese (zh-CN)"
  | en => "English"
  end.

(** [`${m.senderName}: ${m.content}`] *)
Definition transcriptLine (m : Message.t) : string :=
  Message.senderName m ++ ": " ++ Message.content m.

(** The transcript of [generateAgentThought] and of
    [generateAgentSpeechStream]. *)
Definition recentLines (history : list Message.t) : list string :=
  transcriptLine <$> sliceLast 10 history.

(** The transcript of [generatePhaseCheck]. *)
Definition phaseCheckLines (history : list Message.t) : list string :=
  transcriptLine <$> sliceLast 8 history.

(** The transcript of [generateQuickSummary] and of
    [generateMeetingReport]. *)
Definition speechLines (history : list Message.t) : list string :=
  transcriptLine <$> filter (fun m => Message.type m = speech) history.

Definition transcript (lines : list string) : string := join newline lines.

(** [otherAgents] of [generateAgentThought]. *)
Definition otherAgentLabels (agent : Agent.t) (allAgents : list Agent.t)
  : list string :=
  (fun a => Agent.name a ++ " (" ++ Agent.role a ++ ")")
    <$> filter (fun a => Agent.id a <> Agent.id agent) allAgents.

Definition otherAgents (agent : Agent.t) (allAgents : list Agent.t) : string :=
  join ", " (otherAgentLabels agent allAgents).

(** *** generateRolesForTopic *)

(** The errors the JavaScript engine throws inside the wrapped function:
    the SyntaxError of [JSON.parse] on a text and the TypeError of
    [data.map] on a value that is not an array.  Their messages are the
    engine's. *)
Record Engine : Type := mkEngine {
  syntaxError : jsonText -> jsError;
  typeError : jsval -> jsError
}.

(** The bytes [1110xxxx 10xxxxxx 10xxxxxx] of the code unit [u], from
    U+0800 on. *)
Definition unitBytes (u : N) : string :=
  String (ascii_of_N (224 + u / 4096))
    (String (ascii_of_N (128 + (u / 64) mod 64))
       (String (ascii_of_N (128 + u mod 64)) EmptyString)).

Definition continuation (c : ascii) : bool :=
  ((128 <=? codeOf c) && (codeOf c <? 192))%N.

(** The UTF-16 code units of [s], each as a string of its own, in
    order.  A character of one, two or three bytes is one code unit; a
    character of four bytes lies beyond U+FFFF and is a pair of
    surrogates.  A byte that begins no such sequence (no string has
    one) counts for itself. *)
Fixpoint codeUnits (s : string) : list string :=
  match s with
  | EmptyString => []
  | String a s1 =>
      let single := String a EmptyString :: codeUnits s1 in
      if (codeOf a <? 192)%N then single
      else
        match s1 with
        | String b s2 =>
            if negb (continuation b) then single
            else if (codeOf a <? 224)%N then
              String a (String b EmptyString) :: codeUnits s2
            else
              match s2 with
              | String c s3 =>
                  if negb (continuation c) then single
                  else if (codeOf a <? 240)%N then
                    String a (String b (String c EmptyString)) :: codeUnits s3
                  else
                    match s3 with
                    | String d s4 =>
                        if negb (continuation d) then single
                        else
                          let point :=
                            ((codeOf a mod 8) * 262144
                             + (codeOf b mod 64) * 4096
                             + (codeOf c mod 64) * 64 + codeOf d mod 64)%N in
                          let v := (point - 65536)%N in
                          unitBytes (55296 + v / 1024)
                            :: unitBytes (56320 + v mod 1024) :: codeUnits s4
                    | EmptyString => single
                    end
              | EmptyString => single
              end
        | EmptyString => single
        end
  end.

(** The indexed properties of a string: its code units. *)
Definition characters (s : string) : list jsval := JStr <$> codeUnits s.

Definition indexed (items : list jsval) : list (string * jsval) :=
  imap (fun i x => (App.toString (N.of_nat i), x)) items.

(** The own enumerable properties [{ ...item }] copies. *)
Definition spread (item : jsval) : list (string * jsval) :=
  match item with
  | JObj fields => fields
  | JArr items => indexed items
  | JStr s => indexed (characters s)
  | _ => []
  end.

(** [o.k = v] on the property list: an existing property keeps its
    place, a new one goes last. *)
Fixpoint assign (k : string) (v : jsval) (fields : list (string * jsval))
  : list (string * jsval) :=
  match fields with
  | [] => [(k, v)]
  | (k', v') :: rest =>
      if String.eqb k k' then (k, v) :: rest
      else (k', v') :: assign k v rest
  end.

(** [`agent-${Date.now()}-${index}`] *)
Definition agentId (now : N) (index : nat) : string :=
  "agent-" ++ App.toString now ++ "-" ++ App.toString (N.of_nat index).

(** [{ ...item, id: ..., avatarId: index + 1 }]; [now index] is what
    [Date.now()] returns when the callback of [map] reaches [index]. *)
Definition enrich (now : nat -> N) (index : nat) (item : jsval) : jsval :=
  JObj (assign "avatarId" (JNum (Z.of_nat index + 1))
          (assign "id" (JStr (agentId (now index) index)) (spread item))).

(** The wrapped function: its [catch] logs and rethrows. *)
Definition rolesAttempt (engine : Engine) (now : nat -> N)
    (response : outcome jsError (option jsonText))
  : outcome jsError (list jsval) :=
  match response with
  | Throw error => Throw error
  | Ok text =>
      let source :=
        match text with
        | Some t => if isEmptyText t then JsonOf (JArr []) else t
        | None => JsonOf (JArr [])
        end in
      match JSON_parse source with
      | None => Throw (syntaxError engine source)
      | Some (JArr items) => Ok (imap (enrich now) items)
      | Some data => Throw (typeError engine data)
      end
  end.

(** [now k] is the clock during the [k]-th invocation. *)
Definition generateRolesForTopic (engine : Engine) (now : nat -> nat -> N)
    (backend : nat -> outcome jsError (option jsonText)) (random : nat -> Q)
  : run (list jsval) :=
  callWithRetry (fun k => rolesAttempt engine (now k) (backend k)) random.

(** *** generateTopicSuggestions *)
Definition topicsAttempt (response : outcome jsError (option jsonText))
  : outcome jsError jsval :=
  match response with
  | Throw _ => Ok (JArr [])
  | Ok text =>
      let source :=
        match text with
        | Some t => if isEmptyText t then JsonOf (JArr []) else t
        | None => JsonOf (JArr [])
        end in
      match JSON_parse source with
      | None => Ok (JArr [])
      | Some data => Ok data
      end
  end.

Definition generateTopicSuggestions
    (backend : nat -> outcome jsError (option jsonText)) (random : nat -> Q)
  : run jsval :=
  callWithRetry (fun k => topicsAttempt (backend k)) random.

(** *** generateQuickSummary and generateMeetingReport *)

(** [response.text || fallback] *)
Definition textOr (fallback : string) (text : option string) : string :=
  match text with
  | Some t => if isEmpty t then fallback else t
  | None => fallback
  end.

Definition NO_SUMMARY : string := "No summary available.".
Definition SUMMARY_ERROR : string := "Error generating summary (Quota Exceeded).".
Definition NO_REPORT : string := "Failed to generate report.".
Definition REPORT_ERROR : string :=
  "An error occurred while generating the report. Please try again later.".

Definition summaryAttempt (response : outcome jsError (option string))
  : outcome jsError string :=
  match response with
  | Throw _ => Ok SUMMARY_ERROR
  | Ok text => Ok (textOr NO_SUMMARY text)
  end.

Definition generateQuickSummary
    (backend : nat -> outcome jsError (option string)) (random : nat -> Q)
  : run string :=
  callWithRetry (fun k => summaryAttempt (backend k)) random.

Definition reportAttempt (response : outcome jsError (option string))
  : outcome jsError string :=
  match response with
  | Throw _ => Ok REPORT_ERROR
  | Ok text => Ok (textOr NO_REPORT text)
  end.

Definition generateMeetingReport
    (backend : nat -> outcome jsError (option string)) (random : nat -> Q)
  : run string :=
  callWithRetry (fun k => reportAttempt (backend k)) random.

End Generation.

(** ** The App component, the remaining handlers *)
Module Lifecycle.
Import GeminiService App.

(** More entries of [TEXT]. *)
Definition genRolesFail (l : Language) : string :=
  match l with
  | en => "Failed to generate roles. Please try again."
  | zh => "生成角色失败，请重试。"
  end.

Definition newParticipantName (l : Language) : string :=
  match l with zh => "新参与者" | en => "New Participant" end.
Definition newParticipantRole (l : Language) : string :=
  match l with zh => "观察员" | en => "Observer" end.
Definition newParticipantPersonality (l : Language) : string :=
  match l with zh => "客观的，好奇的" | en => "Objective, curious" end.

(** [{ ...prev, language }], [{ ...prev, agents }] and
    [{ ...prev, topic, agents }]. *)
Definition withLanguage (prev : MeetingState.t) (l : Language)
  : MeetingState.t :=
  MeetingState.mk (MeetingState.topic prev) (MeetingState.agents prev)
    (MeetingState.messages prev) (MeetingState.isActive prev)
    (MeetingState.isGenerating prev) l.
Definition withAgents (prev : MeetingState.t) (agents : list Agent.t)
  : MeetingState.t :=
  MeetingState.mk (MeetingState.topic prev) agents
    (MeetingState.messages prev) (MeetingState.isActive prev)
    (MeetingState.isGenerating prev) (MeetingState.language prev).
Definition withTopicAgents (prev : MeetingState.t) (topic : string)
    (agents : list Agent.t) : MeetingState.t :=
  MeetingState.mk topic agents
    (MeetingState.messages prev) (MeetingState.isActive prev)
    (MeetingState.isGenerating prev) (MeetingState.language prev).

Definition setIsSummaryOpen (b : bool) (s : Sys) : Sys :=
  mkSys (stage s) (state s) (inputValue s) (thinkingAgentId s) b
        (turnCount s) (clock s) (resumeTimers s) (activation s).

(** *** Roster review *)
Definition removeAgent (id : string) (s : Sys) : Sys :=
  setState (fun prev =>
    withAgents prev
      (filter (fun a => Agent.id a <> id) (MeetingState.agents prev))) s.

Inductive AgentField : Type := nameField | roleField | personalityField.

(** [{ ...a, [field]: value }] *)
Definition withField (a : Agent.t) (f : AgentField) (value : string)
  : Agent.t :=
  match f with
  | nameField =>
      Agent.mk (Agent.id a) value (Agent.role a) (Agent.personality a)
               (Agent.avatarId a)
  | roleField =>
      Agent.mk (Agent.id a) (Agent.name a) value (Agent.personality a)
               (Agent.avatarId a)
  | personalityField =>
      Agent.mk (Agent.id a) (Agent.name a) (Agent.role a) value
               (Agent.avatarId a)
  end.

Definition updateAgent (id : string) (f : AgentField) (value : string)
    (s : Sys) : Sys :=
  setState (fun prev =>
    withAgents prev
      ((fun a => if bool_decide (Agent.id a = id) then withField a f value
                 else a) <$> MeetingState.agents prev)) s.

(** [random] is the draw of [Math.random()] for the avatar. *)
Definition handleAddAgent (random : Q) (s : Sys) : Sys :=
  let lang := MeetingState.language (state s) in
  let newAgent :=
    Agent.mk ("agent-" ++ toString (clock s)) (newParticipantName lang)
             (newParticipantRole lang) (newParticipantPersonality lang)
             (Qfloor (random * 100)) in
  setState (fun prev =>
    withAgents prev (MeetingState.agents prev ++ [newAgent])) s.

(** The Back button of the roster view. *)
Definition backToTopic (s : Sys) : Sys := setStage topicStage s.

(** *** The page: [Sys] and the hooks it leaves out *)
Record Page : Type := mkPage {
  sys : Sys;
  loading : bool;
  report : string;
  suggestedTopics : list string;
  isLoadingSuggestions : bool;
  summaryText : string;
  isSummaryLoading : bool;
  alerts : list string
}.

Definition onSys (f : Sys -> Sys) (p : Page) : Page :=
  mkPage (f (sys p)) (loading p) (report p) (suggestedTopics p)
         (isLoadingSuggestions p) (summaryText p) (isSummaryLoading p)
         (alerts p).
Definition setLoading (b : bool) (p : Page) : Page :=
  mkPage (sys p) b (report p) (suggestedTopics p) (isLoadingSuggestions p)
         (summaryText p) (isSummaryLoading p) (alerts p).
Definition setReport (r : string) (p : Page) : Page :=
  mkPage (sys p) (loading p) r (suggestedTopics p) (isLoadingSuggestions p)
         (summaryText p) (isSummaryLoading p) (alerts p).
Definition setSuggestedTopics (l : list string) (p : Page) : Page :=
  mkPage (sys p) (loading p) (report p) l (isLoadingSuggestions p)
         (summaryText p) (isSummaryLoading p) (alerts p).
Definition setIsLoadingSuggestions (b : bool) (p : Page) : Page :=
  mkPage (sys p) (loading p) (report p) (suggestedTopics p) b
         (summaryText p) (isSummaryLoading p) (alerts p).
Definition setSummaryText (t : string) (p : Page) : Page :=
  mkPage (sys p) (loading p) (report p) (suggestedTopics p)
         (isLoadingSuggestions p) t (isSummaryLoading p) (alerts p).
Definition setIsSummaryLoading (b : bool) (p : Page) : Page :=
  mkPage (sys p) (loading p) (report p) (suggestedTopics p)
         (isLoadingSuggestions p) (summaryText p) b (alerts p).
Definition alert (msg : string) (p : Page) : Page :=
  mkPage (sys p) (loading p) (report p) (suggestedTopics p)
         (isLoadingSuggestions p) (summaryText p) (isSummaryLoading p)
         (alerts p ++ [msg])%list.

(** What a handler hands to the generation service before it awaits:
    the values its closure read. *)
Record Request : Type := mkRequest {
  requestTopic : string;
  requestHistory : list Message.t;
  requestLanguage : Language
}.

(** *** Topic suggestions *)

(** [handleRegenerateTopics], up to the await and after it. *)
Definition handleRegenerateTopics (p : Page) : Page :=
  setIsLoadingSuggestions true p.

Definition topicsSettled (r : outcome jsError (list string)) (p : Page)
  : Page :=
  let p1 :=
    match r with
    | Ok newTopics =>
        if (0 <? length newTopics)%nat then setSuggestedTopics newTopics p
        else p
    | Throw _ => p
    end in
  setIsLoadingSuggestions false p1.

Definition handleSelectSuggestion (topic : string) (p : Page) : Page :=
  onSys (setInputValue topic) p.

(** The language the suggestions are then requested in is the new one. *)
Definition toggleLanguage (p : Page) : Page * Language :=
  let newLang :=
    match MeetingState.language (state (sys p)) with en => zh | zh => en end in
  (handleRegenerateTopics
     (onSys (setState (fun prev => withLanguage prev newLang)) p),
   newLang).

(** *** Topic submission *)

(** [handleTopicSubmit] up to the await: [None] when it returned at once. *)
Definition handleTopicSubmit (p : Page) : Page * option Request :=
  if isEmpty (trim (inputValue (sys p))) then (p, None)
  else
    (setLoading true p,
     Some (mkRequest (inputValue (sys p)) []
             (MeetingState.language (state (sys p))))).

(** After the await; [request] holds the input and the language of the
    render in which the handler started. *)
Definition rolesSettled (request : Request)
    (r : outcome jsError (list Agent.t)) (p : Page) : Page :=
  let p1 :=
    match r with
    | Ok agents =>
        onSys (fun s =>
          setInputValue EmptyString
            (setStage rolesStage
               (setState (fun prev =>
                  withTopicAgents prev (requestTopic request) agents) s))) p
    | Throw _ => alert (genRolesFail (requestLanguage request)) p
    end in
  setLoading false p1.

(** *** Quick summary *)
Definition handleQuickSummary (p : Page) : Page * Request :=
  let s := sys p in
  let p1 :=
    if MeetingState.isActive (state s)
    then onSys (setState (fun prev => MeetingState.withIsActive prev false)) p
    else p in
  (setSummaryText EmptyString
     (onSys (setIsSummaryOpen true) (setIsSummaryLoading true p1)),
   mkRequest (MeetingState.topic (state s)) (MeetingState.messages (state s))
             (MeetingState.language (state s))).

Definition summarySettled (r : outcome jsError string) (p : Page) : Page :=
  let p1 :=
    match r with
    | Ok summary => setSummaryText summary p
    | Throw _ => setSummaryText "Error generating summary." p
    end in
  setIsSummaryLoading false p1.

Definition closeSummary (p : Page) : Page := onSys (setIsSummaryOpen false) p.

(** *** Ending and restarting *)
Definition endMeeting (p : Page) : Page * Request :=
  let s := sys p in
  (onSys (setStage reportStage)
     (setLoading true
        (onSys (setState (fun prev => MeetingState.withIsActive prev false)) p)),
   mkRequest (MeetingState.topic (state s)) (MeetingState.messages (state s))
             (MeetingState.language (state s))).

Definition REPORT_FAILED : string :=
  "# Error" ++ String "010"%char EmptyString
  ++ "Could not generate report. The service might be busy.".

Definition reportSettled (r : outcome jsError string) (p : Page) : Page :=
  let p1 :=
    match r with
    | Ok result => setReport result p
    | Throw _ => setReport REPORT_FAILED p
    end in
  setLoading false p1.

(** The suggestions are then requested in the language that was kept. *)
Definition restartApp (p : Page) : Page * Language :=
  let currentLang := MeetingState.language (state (sys p)) in
  let p1 :=
    onSys (setState (fun _ =>
      MeetingState.mk (MeetingState.topic INITIAL_STATE)
        (MeetingState.agents INITIAL_STATE)
        (MeetingState.messages INITIAL_STATE)
        (MeetingState.isActive INITIAL_STATE)
        (MeetingState.isGenerating INITIAL_STATE) currentLang)) p in
  let p2 := onSys (setStage topicStage) p1 in
  let p3 := setReport EmptyString p2 in
  let p4 := onSys (setInputValue EmptyString) p3 in
  let p5 := handleRegenerateTopics p4 in
  (onSys (setTurnCount 0) p5, currentLang).

End Lifecycle.

(** ** Saved sessions: writing and clearing *)
Module Saving.
Import Persistence.

Definition saveSuccess (l : Language) : string :=
  match l with
  | en => "Session saved successfully!"
  | zh => "会话保存成功！"
  end.

Definition saveFail (l : Language) : string :=
  match l with
  | en => "Failed to save session. Local storage might be full."
  | zh => "保存会话失败，存储空间可能已满。"
  end.

(** What [JSON.parse(JSON.stringify(v))] returns: a property whose value
    is [undefined] is left out, an [undefined] array element becomes
    [null]. *)
Fixpoint jsonClean (v : jsval) : jsval :=
  match v with
  | JArr items =>
      JArr ((fix elements (l : list jsval) : list jsval :=
               match l with
               | [] => []
               | JUndefined :: rest => JNull :: elements rest
               | x :: rest => jsonClean x :: elements rest
               end) items)
  | JObj fields =>
      JObj ((fix properties (l : list (string * jsval))
               : list (string * jsval) :=
               match l with
               | [] => []
               | (_, JUndefined) :: rest => properties rest
               | (k, x) :: rest => (k, jsonClean x) :: properties rest
               end) fields)
  | _ => v
  end.

(** [JSON.stringify(v)] for an object or an array. *)
Definition JSON_stringify (v : jsval) : jsonText := JsonOf (jsonClean v).

Definition setItem (text : jsonText) (s : Store) : Store :=
  mkStore (stage s) (state s) (report s) (savedSessionAvailable s)
          (savedSessionMetadata s) (alerts s) (Some text) (t s).

(** [language] is the language of the render ([t] in the source), [now]
    is [Date.now()], and [storageFull] tells whether
    [localStorage.setItem] throws. *)
Definition saveSession (language : Language) (storageFull : bool) (now : Z)
    (s : Store) : Store :=
  let sessionData :=
    JObj [("stage", stage s); ("state", state s); ("report", report s);
          ("timestamp", JNum now)] in
  if storageFull then alert (saveFail language) s
  else
    let s1 := setItem (JSON_stringify sessionData) s in
    let s2 := setSavedSessionAvailable true s1 in
    match get (state s) "topic", get (state s) "language" with
    | Some topic, Some lang =>
        alert (saveSuccess language)
          (setSavedSessionMetadata (Some (topic, JNum now, lang)) s2)
    | _, _ => alert (saveFail language) s2
    end.

Definition clearSavedSession (s : Store) : Store :=
  setSavedSessionMetadata None (setSavedSessionAvailable false (removeItem s)).

End Saving.

(** * Vocabulary of the properties *)
Import GeminiService.
Local Open Scope list_scope.


(** White space beyond ASCII: the no-break space U+00A0 and the
    ideographic space U+3000, as their bytes. *)
Definition noBreakSpace : string :=
  String "194"%char (String "160"%char EmptyString).
Definition ideographicSpace : string :=
  String "227"%char (String "128"%char (String "128"%char EmptyString)).

Definition bytes (codes : list nat) : string :=
  string_of_list_ascii (map ascii_of_nat codes).

(** Every character [trim] removes, U+0009 to U+FEFF, one after the
    other; and two characters it keeps, the next-line control U+0085 and
    the zero-width space U+200B. *)
Definition allWhiteSpace : string :=
  bytes [9; 10; 11; 12; 13; 32; 194; 160; 225; 154; 128;
         226; 128; 128; 226; 128; 129; 226; 128; 130; 226; 128; 131;
         226; 128; 132; 226; 128; 133; 226; 128; 134; 226; 128; 135;
         226; 128; 136; 226; 128; 137; 226; 128; 138;
         226; 128; 168; 226; 128; 169; 226; 128; 175; 226; 129; 159;
         227; 128; 128; 239; 187; 191].
Definition nextLine : string := bytes [194; 133].
Definition zeroWidthSpace : string := bytes [226; 128; 139].

(** Sample backends and draws used to exercise the statements. *)
Definition rateLimited : jsError := mkError (JNum 429) JUndefined None.
Definition quotaExhausted : jsError :=
  mkError (JStr "RESOURCE_EXHAUSTED") JUndefined (Some "quota").
Definition serverError : jsError :=
  mkError (JNum 500) JUndefined (Some "internal").

(** A server error whose message happens to contain the digits 429. *)
Definition numberedFailure : jsError :=
  mkError (JNum 500) JUndefined (Some "Internal error, request 14290").

(** The rate-limit signals the specification names: status or code 429,
    status RESOURCE_EXHAUSTED. *)
Definition signalsRateLimit (e : jsError) : bool :=
  jsval_is_num (status e) 429
  || jsval_is_num (code e) 429
  || jsval_is_str (status e) "RESOURCE_EXHAUSTED".

Definition halfRandom : nat -> Q := fun _ => (1 # 2)%Q.

(** The largest double below 1, [1 - 2^-53], as every draw. *)
Definition largestDraw : Q := (1 - 1 / 2 ^ 53)%Q.
Definition topRandom : nat -> Q := fun _ => largestDraw.

(** Fails with a rate-limit signal exactly twice, then succeeds. *)
Definition failsTwice {T} (v : T) : nat -> outcome jsError T :=
  fun k => if (k <? 2)%nat then Throw rateLimited else Ok v.

Definition alwaysRateLimited {T} : nat -> outcome jsError T :=
  fun k => Throw (if Nat.even k then rateLimited else quotaExhausted).

(** The structured output a thought response carries: the [thought] field
    of the parsed text, when the call returned text that parses to a value
    with such a field. *)
Definition structuredThought (response : outcome jsError (option jsonText))
  : option jsval :=
  match response with
  | Ok (Some text) =>
      match JSON_parse text with
      | Some data => get data "thought"
      | None => None
      end
  | _ => None
  end.

(** The response honours the schema [{ thought: STRING }]. *)
Definition honoursSchema (response : outcome jsError (option jsonText))
  : Prop :=
  forall v, structuredThought response = Some v ->
            v = JUndefined \/ exists s, v = JStr s.

Definition goodThought : outcome jsError (option jsonText) :=
  Ok (Some (JsonOf (JObj [("thought", JStr "I should answer the cost point.")]))).

(** A response whose [thought] is a number. *)
Definition numericThought : outcome jsError (option jsonText) :=
  Ok (Some (JsonOf (JObj [("thought", JNum 42)]))).

Import App.

(** [Math.random()] returns a number in [0, 1). *)
Definition unitInterval (x : Q) : Prop := (0 <= x < 1)%Q.

Definition drawInRange (e : event) : Prop :=
  match e with
  | TurnTimer random | PhaseCheckSettled _ random => unitInterval random
  | _ => True
  end.

(** The state between jobs of a meeting: the transcript is not empty (it
    starts with the welcome message), the generating flag is set exactly
    while a turn is pending, and the thinking marker is clear when none
    is. *)
Definition settled (s : Sys) : Prop :=
  MeetingState.messages (state s) <> []
  /\ match activation s with
     | NoTurn =>
         MeetingState.isGenerating (state s) = false
         /\ thinkingAgentId s = None
     | AwaitPhaseCheck snap =>
         MeetingState.isGenerating (state s) = true
         /\ thinkingAgentId s = None
         /\ MeetingState.messages snap <> []
         /\ MeetingState.agents snap <> []
     | AwaitSettle _ _ | AwaitThought _ _ | AwaitChunk _ _ _ =>
         MeetingState.isGenerating (state s) = true
     end.

(** What the environment answers to the awaits of one turn. *)
Record Responses : Type := mkResponses {
  phaseResult : outcome jsError (option string);
  speakerDraw : Q;
  thoughtResult : outcome jsError string;
  fragments : list string;
  closing : outcome jsError unit
}.

(** Deliver the answers a pending turn is waiting for, one await after
    the other, until the turn has returned. *)
Fixpoint finishTurn (fuel : nat) (rs : Responses) (chunks : list string)
    (s : Sys) : option Sys :=
  match activation s with
  | NoTurn => Some s
  | pending =>
      match fuel with
      | O => None
      | S fuel' =>
          match pending, chunks with
          | AwaitPhaseCheck _, _ =>
              s' ← step s (PhaseCheckSettled (phaseResult rs) (speakerDraw rs));
              finishTurn fuel' rs chunks s'
          | AwaitSettle _ _, _ =>
              s' ← step s SettleElapsed; finishTurn fuel' rs chunks s'
          | AwaitThought _ _, _ =>
              s' ← step s (ThoughtSettled (thoughtResult rs));
              finishTurn fuel' rs chunks s'
          | AwaitChunk _ _ _, chunk :: chunks' =>
              s' ← step s (StreamYielded chunk);
              finishTurn fuel' rs chunks' s'
          | AwaitChunk _ _ _, [] =>
              s' ← step s (StreamClosed (closing rs));
              finishTurn fuel' rs [] s'
          | NoTurn, _ => Some s
          end
      end
  end.

(** A sample meeting: two participants, just started. *)
Definition alice : Agent.t :=
  Agent.mk "agent-1-0" "Alice" "Skeptic" "Questions every claim." 1.
Definition bob : Agent.t :=
  Agent.mk "agent-1-1" "Bob" "Optimist" "Sees the upside." 2.

Definition rosterOf (agents : list Agent.t) : Sys :=
  mkSys rolesStage
        (MeetingState.mk "Remote work" agents [] false false en)
        EmptyString None false 0 1000 [] NoTurn.

Definition justStarted : Sys := startMeeting (rosterOf [alice; bob]).


Definition phaseCheckPending (s : Sys) : Prop :=
  exists snap, activation s = AwaitPhaseCheck snap.

(** How many awaits a pending turn still has before its stream loop. *)
Definition awaitsLeft (a : Activation) : nat :=
  match a with
  | NoTurn => 0
  | AwaitChunk _ _ _ => 1
  | AwaitThought _ _ => 2
  | AwaitSettle _ _ => 3
  | AwaitPhaseCheck _ => 4
  end.

(** A turn on the sample meeting whose thought call throws, and one that
    streams two fragments. *)
Definition failingThoughtRun : list event :=
  [TurnTimer (1 # 2); SettleElapsed; ThoughtSettled (Throw serverError)].

Definition streamingRun : list event :=
  [TurnTimer (1 # 2); SettleElapsed; ThoughtSettled (Ok "Costs first.");
   StreamYielded "I think "; StreamYielded "costs matter."].

Definition sampleResponses : Responses :=
  mkResponses (Ok None) (1 # 4) (Ok "Then benefits.") ["And "; "benefits."]
              (Throw serverError).

(** A meeting whose turn counter stands at 4, and a backend that asks the
    assistant to step in. *)
Definition afterFourTurns : Sys :=
  mkSys meetingStage
        (MeetingState.withIsGenerating (state justStarted) false)
        EmptyString None false 4 9000 [] NoTurn.

Definition interveningBackend : nat -> outcome jsError (option string) :=
  fun _ => Ok (Some "  Everyone agrees on costs; let us move on. ").

(** [m'] continues the transcript [m]: nothing was removed, and every
    entry that was not the last one of [m] is unchanged. *)
Definition continues (m m' : list Message.t) : Prop :=
  (length m <= length m')%nat
  /\ forall i, (S i < length m)%nat -> m' !! i = m !! i.

(** A stream during which the user speaks. *)
Definition interruptedStream : list event :=
  [Elapsed 2000; TurnTimer (1 # 2); Elapsed 1500; SettleElapsed;
   Elapsed 400; ThoughtSettled (Ok "Costs first.");
   Elapsed 300; StreamYielded "I think ";
   Elapsed 50; UserTyped "Wait, what about rent?"; UserSubmitted].

(** The sample meeting at the point where the thought of the chosen
    speaker is awaited. *)
Definition thoughtAwaited : Sys :=
  setActivation (AwaitThought (state justStarted) bob)
    (setThinkingAgentId (Some (Agent.id bob))
       (setState (fun prev => MeetingState.withIsGenerating prev true)
          justStarted)).




(** The sample meeting, paused, with a message typed in the input box. *)
Definition pausedWithInput : Sys :=
  setInputValue "What about rent?" (togglePause justStarted).

(** A live session at the topic stage, with a stored snapshot of a
    meeting whose [state] has no [agents]. *)
Definition snapshotWithoutAgents : jsval :=
  JObj [("stage", JStr "meeting");
        ("state",
         JObj [("topic", JStr "Remote work"); ("messages", JArr []);
               ("isActive", JBool true); ("isGenerating", JBool false);
               ("language", JStr "en")]);
        ("report", JStr "Draft");
        ("timestamp", JNum 1700000000000)].

Definition freshCells : jsval :=
  JObj [("topic", JStr EmptyString); ("agents", JArr []);
        ("messages", JArr []); ("isActive", JBool false);
        ("isGenerating", JBool false); ("language", JStr "en")].

Definition storeWith (item : option jsonText) : Persistence.Store :=
  Persistence.mkStore (JStr "topic") freshCells (JStr EmptyString) true None
                      [] item (TEXT en).

(** ** Vocabulary for the remaining operations *)
Import Generation.

(** The text a chunk contributes to the utterance. *)
Definition chunkText (text : option string) : string :=
  match text with Some t => t | None => EmptyString end.

(** What a consumer gets by appending the fragments in order. *)
Fixpoint utterance (fragments : list string) : string :=
  match fragments with
  | [] => EmptyString
  | fragment :: rest => (fragment ++ utterance rest)%string
  end.

(** No character of [s] is a dash. *)
Fixpoint dashFree (s : string) : Prop :=
  match s with
  | EmptyString => True
  | String c s' => c <> "-"%char /\ dashFree s'
  end.

(** A sample engine, and a backend that proposes two participants, the
    first of which claims an id and an avatar of its own. *)
Definition sampleEngine : Engine :=
  mkEngine (fun _ => mkError JUndefined JUndefined (Some "Unexpected token"))
           (fun _ => mkError JUndefined JUndefined
                       (Some "data.map is not a function")).

Definition proposedRoster : jsval :=
  JArr [JObj [("id", JStr "mine"); ("name", JStr "Ada");
              ("role", JStr "Skeptic"); ("personality", JStr "Dry");
              ("avatarId", JNum 99)];
        JObj [("name", JStr "Ben"); ("role", JStr "Optimist");
              ("personality", JStr "Warm")]].

Definition rosterBackend : nat -> outcome jsError (option jsonText) :=
  fun k => if (k <? 2)%nat then Throw rateLimited
           else Ok (Some (JsonOf proposedRoster)).

Definition fixedClock : nat -> nat -> N := fun _ _ => 1700000000000%N.

Definition sampleHistory : list Message.t :=
  [welcomeMessage en "Remote work" 1000;
   Message.mk "1" "user" "Host / Moderator" "Go on" None 1001 speech;
   Message.mk "2" "agent-1-1" "Bob" "Costs first." (Some "hm") 1002 speech].

(** ** Vocabulary for the scheduler *)

(** Events that neither lift a pause nor add to the transcript: timer
    callbacks, the passing of time, typing. *)
Definition passive (e : event) : Prop :=
  match e with
  | TurnTimer _ | Elapsed _ | UserTyped _ => True
  | _ => False
  end.

(** A meeting in which two turns have completed. *)
Definition twoTurnsRun : list event :=
  [Elapsed 2000; TurnTimer (1 # 2); Elapsed 1500; SettleElapsed;
   ThoughtSettled (Ok "Costs first."); StreamYielded "I think ";
   StreamYielded "costs matter."; StreamClosed (Ok tt);
   UserTyped "And rent?"; UserSubmitted; Elapsed 2000;
   TurnTimer (1 # 4); Elapsed 1500; SettleElapsed;
   ThoughtSettled (Throw serverError)].

(** The sample meeting after [endMeeting]-like closing of the stage, and
    with the flag left set and no turn pending. *)
Definition flagLeftSet : Sys :=
  setState (fun prev => MeetingState.withIsGenerating prev true) justStarted.

Definition pausedMeeting : Sys := togglePause justStarted.

(** ** Vocabulary for the lifecycle handlers *)
Import Lifecycle.

(** The id [handleAddAgent] gives the agent it adds in [s]. *)
Definition addedId (s : Sys) : string := "agent-" ++ toString (clock s).

(** A page around a [Sys], with one suggestion on display. *)
Definition pageOf (s : Sys) : Page :=
  mkPage s false EmptyString ["Should cities ban cars?"] false EmptyString
         false [].

Definition carol : Agent.t :=
  Agent.mk "agent-1-2" "Carol" "Economist" "Counts twice." 3.




(** The session is restarted while the thought of a turn is awaited, a
    new roster is accepted and the next meeting is started. *)
Definition restartedWhilePending : Sys :=
  let p1 := fst (restartApp (pageOf thoughtAwaited)) in
  let p2 := rolesSettled (mkRequest "Four-day week" [] en)
              (Ok [alice; bob]) p1 in
  startMeeting (sys p2).

(** *** Saved sessions *)

(** What [JSON.stringify] makes of an array element and of a property. *)
Definition cleanElement (x : jsval) : jsval :=
  match x with
  | JUndefined => JNull
  | _ => Saving.jsonClean x
  end.

Definition cleanProperty (kv : string * jsval) : option (string * jsval) :=
  match kv.2 with
  | JUndefined => None
  | x => Some (kv.1, Saving.jsonClean x)
  end.

(** The cells that [saveSession] writes and [restoreSession] sets. *)
Definition cells (s : Persistence.Store) : jsval * jsval * jsval :=
  (Persistence.stage s, Persistence.state s, Persistence.report s).

(** A session whose transcript holds a message with [thought: undefined]
    and a sparse list. *)
Definition looseCells : jsval :=
  JObj [("topic", JStr EmptyString);
        ("agents", JArr [JUndefined; JStr "agent-1-0"]);
        ("messages", JArr [JObj [("id", JStr "1"); ("thought", JUndefined)]]);
        ("language", JStr "zh")].

Definition looseStore : Persistence.Store :=
  Persistence.mkStore (JStr "meeting") looseCells (JStr "Draft") false None
                      [] None (TEXT zh).

(** * Properties *)

(** ** Strings *)

(** [trim] removes the white space of JavaScript at both ends, inside
    and beyond ASCII, and nothing else. *)
Example trim_white_space :
  trim allWhiteSpace = EmptyString
  /\ trim (allWhiteSpace ++ "a b" ++ allWhiteSpace)%string = "a b"
  /\ trim (" " ++ nextLine ++ zeroWidthSpace ++ " ")%string
     = (nextLine ++ zeroWidthSpace)%string
  /\ trim " 会议 助手 " = "会议 助手".
Proof. repeat split; vm_compute; reflexivity. Qed.


(** ** Rounding to a double *)

Lemma roundHalfEven_ge (m : Q) (k : Z) :
  (inject_Z k <= m)%Q -> (k <= roundHalfEven m)%Z.
Proof.
  intros H. assert (Hf : (k <= Qfloor m)%Z).
  { rewrite <- (Qfloor_Z k). apply Qfloor_resp_le. exact H. }
  unfold roundHalfEven.
  destruct (m - inject_Z (Qfloor m) ?= 1 # 2)%Q; [|lia|lia].
  destruct (Z.even (Qfloor m)); lia.
Qed.

Lemma roundHalfEven_le (m : Q) (k : Z) :
  (m <= inject_Z k)%Q -> (roundHalfEven m <= k)%Z.
Proof.
  intros H. pose proof (Qfloor_le m) as Hf.
  assert (Hk : (Qfloor m <= k)%Z) by (rewrite Zle_Qle; lra).
  assert (Hup : (inject_Z (Qfloor m) < m)%Q -> (Qfloor m + 1 <= k)%Z).
  { intros Hlt. assert (Hs : (Qfloor m < k)%Z) by (rewrite Zlt_Qlt; lra). lia. }
  unfold roundHalfEven.
  destruct (m - inject_Z (Qfloor m) ?= 1 # 2)%Q eqn:E.
  - apply Qeq_alt in E. destruct (Z.even (Qfloor m)); [exact Hk|].
    apply Hup. lra.
  - exact Hk.
  - apply Qgt_alt in E. apply Hup. lra.
Qed.

(** Below [2^53] the binade is at most 52, so the unit in the last
    place is 1 or a negative power of two. *)
Lemma binade_le (x : Q) :
  (0 <= x)%Q -> (x < inject_Z (2 ^ 53))%Q -> (binade x <= 52)%Z.
Proof.
  intros H0 H1. unfold binade.
  set (e := (Z.log2 (Z.abs (Qnum x)) - Z.log2 (Z.pos (Qden x)))%Z).
  destruct (Qle_bool (2 ^ e) (Qabs x)) eqn:E.
  - apply Qle_bool_iff in E. rewrite Qabs_pos in E by exact H0.
    assert (Hlt : (2 ^ e < 2 ^ 53)%Q).
    { apply Qle_lt_trans with x; [exact E|].
      change (2 ^ 53)%Q with (inject_Z (2 ^ 53)). exact H1. }
    apply Qpower_lt_compat_l_inv in Hlt; [lia|reflexivity].
  - assert (He : (e <= 53)%Z); [|lia].
    subst e. destruct x as [n d]. unfold Qlt, Qle in H0, H1.
    cbn [Qnum Qden inject_Z] in *.
    assert (Hn : (0 <= n)%Z) by lia.
    rewrite Z.abs_eq by exact Hn.
    assert (Hle : (n <= Z.pos d * 2 ^ 53)%Z) by lia.
    apply Z.log2_le_mono in Hle.
    rewrite Z.log2_mul_pow2 in Hle by lia. lia.
Qed.

Lemma two_power_inv (e : Z) :
  (e <= 0)%Z ->
  (2 ^ (- e) == inject_Z (2 ^ (- e)))%Q
  /\ (inject_Z (2 ^ (- e)) * 2 ^ e == 1)%Q
  /\ (0 < 2 ^ (- e))%Z.
Proof.
  intros He. assert (H : (2 ^ (- e) == inject_Z (2 ^ (- e)))%Q).
  { rewrite Zpower_Qpower by lia. reflexivity. }
  split; [exact H|]. split.
  - rewrite <- H, Qpower_opp. rewrite Qmult_comm. apply Qmult_inv_r.
    apply Qnot_eq_sym, Qlt_not_eq, Qpower_0_lt. reflexivity.
  - apply Z.pow_pos_nonneg; lia.
Qed.

(** Rounding does not cross an integer below [2^53]: such an integer is
    a double, and the rounded value is a neighbour of the exact one. *)
Lemma roundDouble_between (x : Q) (lo hi : Z) :
  (0 <= lo)%Z -> (hi < 2 ^ 53)%Z ->
  (inject_Z lo <= x <= inject_Z hi)%Q ->
  (inject_Z lo <= roundDouble x <= inject_Z hi)%Q.
Proof.
  intros Hlo Hhi [Hl Hh]. unfold roundDouble.
  pose proof (Qred_correct x) as Hx.
  set (X := Qred x) in *.
  assert (Hl' : (inject_Z lo <= X)%Q) by (rewrite Hx; exact Hl).
  assert (Hh' : (X <= inject_Z hi)%Q) by (rewrite Hx; exact Hh).
  assert (He : (ulpExponent X <= 0)%Z).
  { unfold ulpExponent.
    assert (binade X <= 52)%Z; [|lia].
    apply binade_le.
    - apply Qle_trans with (inject_Z lo); [|exact Hl'].
      change 0%Q with (inject_Z 0). rewrite <- Zle_Qle. exact Hlo.
    - apply Qle_lt_trans with (inject_Z hi); [exact Hh'|].
      rewrite <- Zlt_Qlt. exact Hhi. }
  set (e := ulpExponent X) in *.
  destruct (two_power_inv e He) as (Hk & Hinv & Hpos).
  set (K := (2 ^ (- e))%Z) in *.
  assert (HK : (0 < inject_Z K)%Q).
  { change 0%Q with (inject_Z 0). rewrite <- Zlt_Qlt. exact Hpos. }
  assert (Hu : (0 < 2 ^ e)%Q) by (apply Qpower_0_lt; reflexivity).
  rewrite Qred_correct.
  set (n := roundHalfEven (X * 2 ^ (- e))).
  assert (Hn1 : (lo * K <= n)%Z).
  { apply roundHalfEven_ge. rewrite Hk, inject_Z_mult.
    apply Qmult_le_compat_r; [exact Hl'|apply Qlt_le_weak; exact HK]. }
  assert (Hn2 : (n <= hi * K)%Z).
  { apply roundHalfEven_le. rewrite Hk, inject_Z_mult.
    apply Qmult_le_compat_r; [exact Hh'|apply Qlt_le_weak; exact HK]. }
  split.
  - apply Qle_trans with (inject_Z (lo * K) * 2 ^ e)%Q.
    + rewrite inject_Z_mult, <- Qmult_assoc, Hinv, Qmult_1_r. apply Qle_refl.
    + apply Qmult_le_compat_r; [|apply Qlt_le_weak; exact Hu].
      rewrite <- Zle_Qle. exact Hn1.
  - apply Qle_trans with (inject_Z (hi * K) * 2 ^ e)%Q.
    + apply Qmult_le_compat_r; [|apply Qlt_le_weak; exact Hu].
      rewrite <- Zle_Qle. exact Hn2.
    + rewrite inject_Z_mult, <- Qmult_assoc, Hinv, Qmult_1_r. apply Qle_refl.
Qed.

Lemma roundDouble_integer (x : Q) (k : Z) :
  (0 <= k < 2 ^ 53)%Z -> (x == inject_Z k)%Q ->
  (roundDouble x == inject_Z k)%Q.
Proof.
  intros [H0 H1] Hx.
  destruct (roundDouble_between x k k H0 H1) as [Ha Hb].
  - rewrite Hx. split; apply Qle_refl.
  - apply Qle_antisym; assumption.
Qed.

Lemma roundDouble_proper (x y : Q) :
  (x == y)%Q -> roundDouble x = roundDouble y.
Proof.
  intros H. unfold roundDouble. rewrite (Qred_complete x y H). reflexivity.
Qed.

(** The jitter [Math.random() * 500] lies between 0 and 500, both
    included. *)
Lemma jitter_range (draw : Q) :
  (0 <= draw < 1)%Q -> (0 <= numMul draw 500 <= 500)%Q.
Proof.
  intros [H0 H1]. unfold numMul.
  apply (roundDouble_between (draw * 500) 0 500); [lia|reflexivity|].
  change (inject_Z 0) with 0%Q. change (inject_Z 500) with 500%Q.
  split; lra.
Qed.

(** ** The retry wrapper *)
Section RetryFacts.
Context {T : Type}.
Variable fn : nat -> outcome jsError T.
Variable random : nat -> Q.
Hypothesis random_range : forall k, (0 <= random k < 1)%Q.

Lemma callWithRetry_from_calls retries attempt delay :
  (1 <= calls (callWithRetry_from fn random attempt retries delay)
     <= S retries)%nat.
Proof.
  revert attempt delay.
  induction retries as [|n IH]; intros attempt delay; simpl.
  - destruct (fn attempt); simpl; lia.
  - destruct (fn attempt) as [v|e]; simpl; [lia|].
    destruct (isRateLimit e); simpl; [|lia].
    specialize (IH (S attempt) (numMul delay 2)). lia.
Qed.

Lemma callWithRetry_from_waits_length retries attempt delay :
  let r := callWithRetry_from fn random attempt retries delay in
  length (waits r) = (calls r - 1)%nat.
Proof.
  revert attempt delay.
  induction retries as [|n IH]; intros attempt delay; simpl.
  - destruct (fn attempt); reflexivity.
  - destruct (fn attempt) as [v|e]; simpl; [reflexivity|].
    destruct (isRateLimit e); simpl; [|reflexivity].
    rewrite IH.
    pose proof (callWithRetry_from_calls n (S attempt) (numMul delay 2)).
    lia.
Qed.

(** The [i]-th wait: the delay, doubled [i] times, plus the jitter of
    the [i]-th draw, each operation rounded; it lies between the doubled
    delay and that delay plus 500, both included. *)
Lemma callWithRetry_from_waits retries attempt delay d i w :
  (0 <= d)%Z -> (d * 2 ^ Z.of_nat retries + 500 < 2 ^ 53)%Z ->
  (delay == inject_Z d)%Q ->
  waits (callWithRetry_from fn random attempt retries delay) !! i = Some w ->
  w = numAdd (inject_Z (d * 2 ^ Z.of_nat i))
             (numMul (random (attempt + i)%nat) 500)
  /\ (inject_Z (d * 2 ^ Z.of_nat i) <= w
      <= inject_Z (d * 2 ^ Z.of_nat i + 500))%Q.
Proof.
  revert attempt delay d i.
  induction retries as [|n IH]; intros attempt delay d i Hd Hb Hdelay; simpl.
  - destruct (fn attempt); simpl; intros H; discriminate.
  - destruct (fn attempt) as [v|e]; simpl; [intros H; discriminate|].
    destruct (isRateLimit e); simpl; [|intros H; discriminate].
    assert (Hp : (1 <= 2 ^ Z.of_nat n)%Z)
      by (pose proof (Z.pow_pos_nonneg 2 (Z.of_nat n)); lia).
    assert (Hs : (2 ^ Z.of_nat (S n) = 2 * 2 ^ Z.of_nat n)%Z)
      by (rewrite Nat2Z.inj_succ, Z.pow_succ_r by lia; reflexivity).
    rewrite Hs in Hb.
    destruct i as [|i]; simpl.
    + intros [= <-]. rewrite Nat.add_0_r.
      change (2 ^ Z.of_nat 0)%Z with 1%Z. rewrite Z.mul_1_r.
      destruct (jitter_range (random attempt) (random_range attempt))
        as [Hj0 Hj1].
      split.
      * unfold numAdd. apply roundDouble_proper. rewrite Hdelay. reflexivity.
      * unfold numAdd. apply roundDouble_between; [exact Hd|nia|].
        rewrite inject_Z_plus, Hdelay.
        change (inject_Z 500) with 500%Q. split; lra.
    + intros Hw.
      assert (Hdouble : (numMul delay 2 == inject_Z (d * 2))%Q).
      { unfold numMul. apply roundDouble_integer; [nia|].
        rewrite inject_Z_mult, Hdelay. reflexivity. }
      destruct (IH (S attempt) (numMul delay 2) (d * 2)%Z i
                  ltac:(lia) ltac:(nia) Hdouble Hw) as [Hw1 Hw2].
      replace (d * 2 ^ Z.of_nat (S i))%Z with (d * 2 * 2 ^ Z.of_nat i)%Z
        by (rewrite Nat2Z.inj_succ, Z.pow_succ_r by lia; ring).
      replace (attempt + S i)%nat with (S attempt + i)%nat by lia.
      split; [exact Hw1|exact Hw2].
Qed.

Lemma callWithRetry_from_earlier retries attempt delay i :
  (i < calls (callWithRetry_from fn random attempt retries delay) - 1)%nat ->
  exists e, fn (attempt + i)%nat = Throw e /\ isRateLimit e = true.
Proof.
  revert attempt delay i.
  induction retries as [|n IH]; intros attempt delay i; simpl.
  - destruct (fn attempt); simpl; lia.
  - destruct (fn attempt) as [v|e] eqn:E; simpl; [lia|].
    destruct (isRateLimit e) eqn:R; simpl; [|lia].
    destruct i as [|i]; intros Hi.
    + exists e. rewrite Nat.add_0_r. auto.
    + replace (attempt + S i)%nat with (S attempt + i)%nat by lia.
      apply (IH (S attempt) (numMul delay 2)). lia.
Qed.

Lemma callWithRetry_from_result retries attempt delay :
  let r := callWithRetry_from fn random attempt retries delay in
  result r = fn (attempt + (calls r - 1))%nat.
Proof.
  revert attempt delay.
  induction retries as [|n IH]; intros attempt delay; simpl.
  - destruct (fn attempt) eqn:E; simpl; rewrite Nat.add_0_r; auto.
  - destruct (fn attempt) as [v|e] eqn:E; simpl;
      [rewrite Nat.add_0_r; auto|].
    destruct (isRateLimit e) eqn:R; simpl; [|rewrite Nat.add_0_r; auto].
    rewrite IH.
    pose proof (callWithRetry_from_calls n (S attempt) (numMul delay 2)).
    f_equal. lia.
Qed.

Lemma callWithRetry_from_early_stop retries attempt delay e :
  let r := callWithRetry_from fn random attempt retries delay in
  (calls r < S retries)%nat ->
  fn (attempt + (calls r - 1))%nat = Throw e ->
  isRateLimit e = false.
Proof.
  revert attempt delay.
  induction retries as [|n IH]; intros attempt delay; simpl.
  - destruct (fn attempt); simpl; lia.
  - destruct (fn attempt) as [v|e'] eqn:E; simpl.
    + rewrite Nat.add_0_r, E. discriminate.
    + destruct (isRateLimit e') eqn:R; simpl.
      * intros Hc Hf. apply (IH (S attempt) (numMul delay 2)); [lia|].
        pose proof (callWithRetry_from_calls n (S attempt) (numMul delay 2)).
        rewrite <- Hf. f_equal. lia.
      * rewrite Nat.add_0_r, E. intros _ [= <-]. exact R.
Qed.
End RetryFacts.

Lemma signalsRateLimit_isRateLimit (e : jsError) :
  signalsRateLimit e = true -> isRateLimit e = true.
Proof.
  unfold signalsRateLimit, isRateLimit.
  destruct (jsval_is_num (status e) 429), (jsval_is_num (code e) 429),
    (jsval_is_str (status e) "RESOURCE_EXHAUSTED"); simpl;
    intros H; try discriminate; rewrite ?orb_true_r; reflexivity.
Qed.

(** C5, as stated, fails: an error that carries none of the named
    signals but whose message contains "429" is retried three times
    instead of propagating at once. *)
Lemma retry_class_counterexample :
  let r := callWithRetry (fun _ => @Throw jsError nat numberedFailure)
             halfRandom in
  signalsRateLimit numberedFailure = false
  /\ calls r = 4%nat
  /\ length (waits r) = 3%nat
  /\ result r = Throw numberedFailure.
Proof. cbv zeta. repeat split. Qed.

(** C5, amended.  The errors that are retried are those [isRateLimit]
    accepts: status or code 429, status RESOURCE_EXHAUSTED, or a message
    containing "429".  A wrapped call is attempted at most
    [1 + MAX_RETRIES = 4] times; every attempt but the last failed with
    such an error and was followed by a wait of [2000 * 2^i] ms plus the
    jitter of the draw, 500 ms at most; the outcome of the last attempt
    is the outcome of the wrapped call; and the wrapper stops before the
    fourth attempt only on a success or on an error of another kind,
    which therefore propagates with no retry. *)
Theorem callWithRetry_policy {T} (fn : nat -> outcome jsError T)
    (random : nat -> Q) :
  (forall k, (0 <= random k < 1)%Q) ->
  let r := callWithRetry fn random in
  (1 <= calls r <= 1 + MAX_RETRIES)%nat
  /\ length (waits r) = (calls r - 1)%nat
  /\ (forall i w, waits r !! i = Some w ->
        w = numAdd (INITIAL_BACKOFF_MS * inject_Z (2 ^ Z.of_nat i))
                   (numMul (random i) 500)
        /\ (INITIAL_BACKOFF_MS * inject_Z (2 ^ Z.of_nat i) <= w
            <= INITIAL_BACKOFF_MS * inject_Z (2 ^ Z.of_nat i) + 500)%Q)
  /\ (forall i, (i < calls r - 1)%nat ->
        exists e, fn i = Throw e /\ isRateLimit e = true)
  /\ result r = fn (calls r - 1)%nat
  /\ (forall e, fn (calls r - 1)%nat = Throw e ->
        isRateLimit e = false \/ calls r = (1 + MAX_RETRIES)%nat)
  /\ (forall e, isRateLimit e = true
                <-> (signalsRateLimit e = true
                     \/ exists m, message e = Some m
                                  /\ includes m "429" = true)).
Proof.
  intros Hrnd r. subst r. unfold callWithRetry.
  pose proof (callWithRetry_from_calls fn random MAX_RETRIES 0
                INITIAL_BACKOFF_MS) as Hc.
  pose proof (callWithRetry_from_waits_length fn random MAX_RETRIES 0
                INITIAL_BACKOFF_MS) as Hl.
  cbv zeta in Hl.
  split; [exact Hc|]. split; [exact Hl|].
  split; [|split; [|split; [|split]]].
  - intros i w Hw.
    destruct (callWithRetry_from_waits fn random Hrnd MAX_RETRIES 0%nat
                INITIAL_BACKOFF_MS 2000 i w) as [He Hb];
      [lia|reflexivity|reflexivity|exact Hw|].
    assert (Hq : (INITIAL_BACKOFF_MS * inject_Z (2 ^ Z.of_nat i)
                  == inject_Z (2000 * 2 ^ Z.of_nat i))%Q)
      by (rewrite inject_Z_mult; reflexivity).
    split.
    + rewrite He. unfold numAdd. apply roundDouble_proper.
      rewrite Hq. reflexivity.
    + rewrite inject_Z_plus in Hb. change (inject_Z 500) with 500%Q in Hb.
      rewrite Hq. exact Hb.
  - intros i Hi.
    exact (callWithRetry_from_earlier fn random _ 0%nat _ i Hi).
  - exact (callWithRetry_from_result fn random MAX_RETRIES 0
             INITIAL_BACKOFF_MS).
  - intros e He.
    destruct (decide (calls (callWithRetry_from fn random 0 MAX_RETRIES
                               INITIAL_BACKOFF_MS) = (1 + MAX_RETRIES)%nat))
      as [Heq|Hne]; [right; exact Heq|left].
    apply (callWithRetry_from_early_stop fn random MAX_RETRIES 0%nat
             INITIAL_BACKOFF_MS e); [|exact He].
    cbv zeta. lia.
  - intros e. unfold isRateLimit, signalsRateLimit.
    destruct (jsval_is_num (status e) 429), (jsval_is_num (code e) 429),
      (jsval_is_str (status e) "RESOURCE_EXHAUSTED"); simpl;
      rewrite ?orb_true_r, ?orb_false_r;
      try (split; [intros _; left; reflexivity|reflexivity]).
    destruct (message e) as [m|]; split.
    + intros H. right. exists m. auto.
    + intros [H|(m' & [= <-] & H)]; [discriminate|exact H].
    + discriminate.
    + intros [H|(m' & H & _)]; discriminate.
Qed.

Lemma callWithRetry_policy_witness :
  let r := callWithRetry (failsTwice 7%nat) halfRandom in
  calls r = 3%nat
  /\ (forall i w, waits r !! i = Some w ->
        (INITIAL_BACKOFF_MS * inject_Z (2 ^ Z.of_nat i) <= w
         <= INITIAL_BACKOFF_MS * inject_Z (2 ^ Z.of_nat i) + 500)%Q)
  /\ result r = failsTwice 7%nat (calls r - 1)%nat.
Proof.
  destruct (callWithRetry_policy (failsTwice 7%nat) halfRandom)
    as (_ & _ & Hw & _ & Hr & _).
  - intros k. split; [discriminate | reflexivity].
  - split; [reflexivity|]. split; [|exact Hr].
    intros i w H. apply (Hw i w H).
Defined.

(** The scenario of the specification: two rate-limit failures, then a
    success on the third attempt after waits of 2000 and 4000 ms plus the
    jitter. *)
Example callWithRetry_fails_twice :
  callWithRetry (failsTwice 7%nat) halfRandom
  = mkRun (Ok 7%nat) [2250%Q; 4250%Q] 3.
Proof. vm_compute. reflexivity. Qed.

Example callWithRetry_exhausted :
  callWithRetry (@alwaysRateLimited nat) halfRandom
  = mkRun (Throw quotaExhausted) [2250%Q; 4250%Q; 8250%Q] 4.
Proof. vm_compute. reflexivity. Qed.

Example callWithRetry_other_error :
  callWithRetry (fun _ => @Throw jsError nat serverError) halfRandom
  = mkRun (Throw serverError) [] 1.
Proof. reflexivity. Qed.

(** The jitter can be the whole 500 ms: with the largest draw below 1
    the product rounds to a double just under 500, and adding it to the
    delay rounds to the delay plus 500 exactly. *)
Example jitter_reaches_the_bound :
  (0 <= largestDraw < 1)%Q
  /\ (numMul largestDraw 500 < 500)%Q
  /\ callWithRetry (@alwaysRateLimited nat) topRandom
     = mkRun (Throw quotaExhausted) [2500%Q; 4500%Q; 8500%Q] 4.
Proof.
  split; [split; [discriminate|reflexivity]|].
  split; vm_compute; reflexivity.
Qed.

(** ** Thought generation *)

Lemma thoughtAttempt_total response :
  exists v, thoughtAttempt response = Ok v.
Proof.
  unfold thoughtAttempt.
  destruct response as [[text|]|e]; simpl; try (eexists; reflexivity).
  destruct (JSON_parse (if isEmptyText text then _ else text));
    [|eexists; reflexivity].
  destruct (get _ _); eexists; reflexivity.
Qed.

Lemma thoughtAttempt_value response v :
  thoughtAttempt response = Ok v ->
  match structuredThought response with
  | Some thought => v = if truthy thought then thought else JStr THOUGHT_FILLER
  | None => v = JStr THOUGHT_FILLER
  end.
Proof.
  unfold thoughtAttempt, structuredThought.
  destruct response as [[text|]|e]; simpl; try (intros [= <-]; reflexivity).
  destruct text as [raw|data]; simpl.
  - destruct (isEmpty raw); simpl; intros [= <-]; reflexivity.
  - destruct (get data "thought"); intros [= <-]; reflexivity.
Qed.

(** C9, as stated, fails: the value returned is not always a string.
    A response whose [thought] is the number 42 parses, the number is
    truthy, and [data.thought || "Thinking..."] returns it as it is. *)
Lemma thought_not_a_string_counterexample :
  generateAgentThought (fun _ => numericThought) halfRandom
  = mkRun (Ok (JNum 42)) [] 1
  /\ forall s, JNum 42 <> JStr s.
Proof. split; [reflexivity|discriminate]. Qed.

(** C9, amended.  Thought generation always returns a value and never
    an error, after a single backend call and no wait.  The value is
    the filler ["Thinking..."] when the backend call failed, returned no
    text, returned text that does not parse, or returned a value without
    a truthy [thought]; it is the [thought] field as it is otherwise,
    hence a string whenever the response honours the requested schema.
    The value is never falsy. *)
Theorem generateAgentThought_never_throws
    (backend : nat -> outcome jsError (option jsonText)) (random : nat -> Q) :
  let r := generateAgentThought backend random in
  exists v,
    result r = Ok v /\ calls r = 1%nat /\ waits r = []
    /\ (forall e, backend 0%nat = Throw e -> v = JStr "Thinking...")
    /\ (backend 0%nat = Ok None -> v = JStr "Thinking...")
    /\ (forall text, backend 0%nat = Ok (Some text) ->
          JSON_parse text = None -> v = JStr "Thinking...")
    /\ (forall text data thought, backend 0%nat = Ok (Some text) ->
          JSON_parse text = Some data ->
          get data "thought" = Some thought ->
          v = if truthy thought then thought else JStr "Thinking...")
    /\ (forall text data, backend 0%nat = Ok (Some text) ->
          JSON_parse text = Some data ->
          get data "thought" = None -> v = JStr "Thinking...")
    /\ (honoursSchema (backend 0%nat) -> exists s, v = JStr s)
    /\ truthy v = true.
Proof.
  intros r. subst r. unfold generateAgentThought, callWithRetry. simpl.
  destruct (thoughtAttempt_total (backend 0%nat)) as [v Hv].
  exists v. rewrite Hv. simpl.
  pose proof (thoughtAttempt_value _ _ Hv) as Hval.
  unfold structuredThought in Hval.
  repeat split.
  - intros e He. rewrite He in Hval. exact Hval.
  - intros He. rewrite He in Hval. exact Hval.
  - intros text He Hp. rewrite He, Hp in Hval. exact Hval.
  - intros text data thought He Hp Hg. rewrite He, Hp, Hg in Hval. exact Hval.
  - intros text data He Hp Hg. rewrite He, Hp, Hg in Hval. exact Hval.
  - intros Hs. unfold honoursSchema, structuredThought in Hs.
    destruct (backend 0%nat) as [[text|]|e];
      try (exists THOUGHT_FILLER; exact Hval).
    destruct (JSON_parse text) as [data|];
      [|exists THOUGHT_FILLER; exact Hval].
    destruct (get data "thought") as [thought|];
      [|exists THOUGHT_FILLER; exact Hval].
    destruct (Hs thought eq_refl) as [->|[s ->]].
    + exists THOUGHT_FILLER. exact Hval.
    + rewrite Hval. destruct (truthy (JStr s)); eexists; reflexivity.
  - destruct (backend 0%nat) as [[text|]|e]; try (rewrite Hval; reflexivity).
    destruct (JSON_parse text) as [data|]; [|rewrite Hval; reflexivity].
    destruct (get data "thought") as [thought|];
      [|rewrite Hval; reflexivity].
    rewrite Hval. destruct (truthy thought) eqn:Et; [exact Et|reflexivity].
Qed.

Lemma generateAgentThought_never_throws_witness :
  exists v,
    result (generateAgentThought (fun _ => goodThought) halfRandom) = Ok v
    /\ v = JStr "I should answer the cost point.".
Proof.
  destruct (generateAgentThought_never_throws (fun _ => goodThought) halfRandom)
    as (v & Hr & _ & _ & _ & _ & _ & Hfield & _ & _ & _).
  exists v. split; [exact Hr|].
  exact (Hfield _ _ _ eq_refl eq_refl eq_refl).
Defined.

(** A rate-limit error of the backend never reaches [callWithRetry] here:
    the wrapped function has already turned it into the filler. *)
Example generateAgentThought_rate_limited :
  generateAgentThought alwaysRateLimited halfRandom
  = mkRun (Ok (JStr "Thinking...")) [] 1.
Proof. reflexivity. Qed.

Example generateAgentThought_null_document :
  generateAgentThought (fun _ => Ok (Some (JsonOf JNull))) halfRandom
  = mkRun (Ok (JStr "Thinking...")) [] 1.
Proof. reflexivity. Qed.

(** ** Speaker selection *)

Lemma pickSpeaker_in_range (candidates : list Agent.t) (random : Q) :
  unitInterval random -> candidates <> [] ->
  exists a, pickSpeaker candidates random = Some a /\ a ∈ candidates.
Proof.
  intros [Hlo Hhi] Hne. unfold pickSpeaker.
  set (n := Z.of_nat (length candidates)).
  assert (Hn : (0 < n)%Z).
  { subst n. destruct candidates; [congruence|simpl; lia]. }
  assert (Hn' : (0 < inject_Z n)%Q).
  { change 0%Q with (inject_Z 0). rewrite <- Zlt_Qlt. exact Hn. }
  assert (H0 : (0 <= Qfloor (random * inject_Z n))%Z).
  { change 0%Z with (Qfloor 0). apply Qfloor_resp_le.
    apply Qmult_le_0_compat; [exact Hlo|apply Qlt_le_weak; exact Hn']. }
  assert (H1 : (Qfloor (random * inject_Z n) < n)%Z).
  { rewrite Zlt_Qlt.
    apply Qle_lt_trans with (random * inject_Z n)%Q; [apply Qfloor_le|].
    pose proof (Qmult_lt_compat_r random 1 (inject_Z n) Hn' Hhi) as Hm.
    rewrite Qmult_1_l in Hm. exact Hm. }
  destruct (Z.ltb_spec (Qfloor (random * inject_Z n)) 0); [lia|].
  destruct (candidates !! Z.to_nat (Qfloor (random * inject_Z n))) as [a|] eqn:E.
  - exists a. split; [reflexivity|]. eapply list_elem_of_lookup_2; eassumption.
  - apply lookup_ge_None in E. subst n. lia.
Qed.


Lemma candidatesFor_nonempty agents lastMessage :
  agents <> [] -> candidatesFor agents lastMessage <> [].
Proof.
  intros Hne. unfold candidatesFor.
  destruct (availableAgents agents lastMessage) as [|a l]; simpl; [exact Hne|].
  discriminate.
Qed.


(** ** The turn *)

Lemma agentTurn_selects snap random s :
  MeetingState.messages snap <> [] ->
  MeetingState.agents snap <> [] ->
  unitInterval random ->
  exists lastMessage nextSpeaker,
    last (MeetingState.messages snap) = Some lastMessage
    /\ pickSpeaker (candidatesFor (MeetingState.agents snap) lastMessage) random
       = Some nextSpeaker
    /\ agentTurn snap random s
       = setActivation (AwaitSettle snap nextSpeaker)
           (setThinkingAgentId (Some (Agent.id nextSpeaker)) s).
Proof.
  intros Hm Ha Hr. unfold agentTurn.
  destruct (last (MeetingState.messages snap)) as [lastMessage|] eqn:El;
    [|apply last_None in El; contradiction].
  pose proof (candidatesFor_nonempty _ lastMessage Ha) as Hc.
  destruct (pickSpeaker_in_range _ random Hr Hc) as (a & Hp & _).
  exists lastMessage, a. split; [reflexivity|]. split; [exact Hp|].
  rewrite Hp.
  destruct (candidatesFor (MeetingState.agents snap) lastMessage);
    [congruence|reflexivity].
Qed.


Lemma entryGuard_true s :
  entryGuard s = true ->
  MeetingState.isActive (state s) = true
  /\ MeetingState.isGenerating (state s) = false
  /\ stage s = meetingStage
  /\ MeetingState.agents (state s) <> []
  /\ isSummaryOpen s = false.
Proof.
  unfold entryGuard. rewrite !andb_true_iff, !negb_true_iff.
  intros ((((Ha & Hg) & Hs) & Hn) & Ho).
  apply bool_decide_eq_true in Hs.
  repeat split; try assumption.
  intros E. rewrite E in Hn. discriminate.
Qed.

Lemma assistantCheckDue_spec s :
  assistantCheckDue s = true
  <-> (0 < turnCount s)%N /\ (turnCount s mod 4 = 0)%N.
Proof.
  unfold assistantCheckDue.
  rewrite andb_true_iff, N.ltb_lt, N.eqb_eq. reflexivity.
Qed.

Lemma updateLastMessage_nonempty content s :
  MeetingState.messages (state s) <> [] ->
  MeetingState.messages (state (updateLastMessage content s)) <> [].
Proof.
  unfold updateLastMessage. simpl.
  destruct (MeetingState.messages (state s)) as [|m l] eqn:E; [congruence|].
  intros _. simpl. intros H.
  apply (f_equal length) in H. rewrite length_alter in H. discriminate.
Qed.

Lemma snoc_nonempty {A} (l : list A) (x : A) : l ++ [x] <> [].
Proof. destruct l; discriminate. Qed.

Lemma handleUserMessage_shape s :
  activation (handleUserMessage s) = activation s
  /\ thinkingAgentId (handleUserMessage s) = thinkingAgentId s
  /\ MeetingState.isGenerating (state (handleUserMessage s))
     = MeetingState.isGenerating (state s)
  /\ (MeetingState.messages (state s) <> [] ->
      MeetingState.messages (state (handleUserMessage s)) <> []).
Proof.
  unfold handleUserMessage.
  destruct (isEmpty (trim (inputValue s))); simpl; [tauto|].
  repeat split. intros _. apply snoc_nonempty.
Qed.

Lemma elapse_shape ms s :
  activation (elapse ms s) = activation s
  /\ thinkingAgentId (elapse ms s) = thinkingAgentId s
  /\ MeetingState.isGenerating (state (elapse ms s))
     = MeetingState.isGenerating (state s)
  /\ MeetingState.messages (state (elapse ms s))
     = MeetingState.messages (state s).
Proof.
  unfold elapse. destruct (filter _ (resumeTimers s)); simpl; tauto.
Qed.

(** [settled] is kept by every step of the event loop. *)
Lemma step_settled s e s' :
  settled s -> drawInRange e -> step s e = Some s' -> settled s'.
Proof.
  intros [Hm Ha] He Hstep. unfold step in Hstep.
  destruct e as [random|r random| |r|chunk|r|text| | |ms].
  - (* the turn timer *)
    destruct (activation s) eqn:Ea.
    + injection Hstep as <-. unfold processNextTurn.
      destruct (entryGuard s) eqn:Eg; simpl;
        [|split; [exact Hm|rewrite Ea; exact Ha]].
      apply entryGuard_true in Eg as (_ & _ & _ & Hag & _).
      destruct (assistantCheckDue _).
      * split; [exact Hm|]. simpl. destruct Ha as [_ Ht]. auto.
      * destruct (agentTurn_selects (state s) random
                    (setState (fun prev =>
                       MeetingState.withIsGenerating prev true) s)
                    Hm Hag He) as (lm & sp & _ & _ & ->).
        split; [exact Hm|reflexivity].
    + destruct (entryGuard s); [discriminate|]. injection Hstep as <-.
      split; [exact Hm|rewrite Ea; exact Ha].
    + destruct (entryGuard s); [discriminate|]. injection Hstep as <-.
      split; [exact Hm|rewrite Ea; exact Ha].
    + destruct (entryGuard s); [discriminate|]. injection Hstep as <-.
      split; [exact Hm|rewrite Ea; exact Ha].
    + destruct (entryGuard s); [discriminate|]. injection Hstep as <-.
      split; [exact Hm|rewrite Ea; exact Ha].
  - (* the phase check settles *)
    destruct (activation s) as [|snap| | |] eqn:Ea; try discriminate.
    injection Hstep as <-. destruct Ha as (Hg & Ht & Hsm & Hsa).
    assert (Hturn : settled (agentTurn snap random s)).
    { destruct (agentTurn_selects snap random s Hsm Hsa He)
        as (lm & sp & _ & _ & ->).
      split; [exact Hm|exact Hg]. }
    unfold afterPhaseCheck. destruct r as [[intervention|]|err]; try exact Hturn.
    destruct (isEmpty intervention); [exact Hturn|].
    split; [apply snoc_nonempty|]. simpl. auto.
  - destruct (activation s) eqn:Ea; try discriminate.
    injection Hstep as <-. split; [exact Hm|exact Ha].
  - (* the thought settles *)
    destruct (activation s) as [| | |snap sp|] eqn:Ea; try discriminate.
    injection Hstep as <-. unfold afterThought. destruct r as [thought|err].
    + split; [apply snoc_nonempty|exact Ha].
    + split; [exact Hm|]. simpl. auto.
  - destruct (activation s) as [| | | |snap sp full] eqn:Ea; try discriminate.
    injection Hstep as <-. unfold onChunk.
    split; [apply updateLastMessage_nonempty; exact Hm|].
    simpl. unfold updateLastMessage. simpl.
    destruct (length _ =? 0)%nat; exact Ha.
  - destruct (activation s) as [| | | |snap sp full] eqn:Ea; try discriminate.
    injection Hstep as <-. split; [exact Hm|]. simpl. auto.
  - assert (s' = setInputValue text s) as ->.
    { destruct (activation s); destruct (bool_decide _); congruence. }
    split; [exact Hm|exact Ha].
  - assert (s' = handleUserMessage s) as ->.
    { destruct (activation s); destruct (bool_decide _); congruence. }
    destruct (handleUserMessage_shape s) as (E1 & E2 & E3 & E4).
    split; [auto|]. rewrite E1, E2, E3. exact Ha.
  - assert (s' = togglePause s) as ->.
    { destruct (activation s); destruct (bool_decide _); congruence. }
    split; [exact Hm|exact Ha].
  - assert (s' = elapse ms s) as ->.
    { destruct (activation s); congruence. }
    destruct (elapse_shape ms s) as (E1 & E2 & E3 & E4).
    split; [rewrite E4; exact Hm|]. rewrite E1, E2, E3. exact Ha.
Qed.

Lemma exec_settled evs : forall s s',
  settled s -> Forall drawInRange evs -> exec s evs = Some s' -> settled s'.
Proof.
  induction evs as [|e evs IH]; intros s s' Hs Hr Hx; simpl in Hx.
  - injection Hx as <-. exact Hs.
  - destruct (step s e) as [s1|] eqn:E; [|discriminate].
    apply Forall_cons in Hr as [He Hr].
    eapply IH; [|exact Hr|exact Hx].
    eapply step_settled; eassumption.
Qed.

(** ** The generating flag *)

#[local] Arguments step : simpl never.

Lemma finishTurn_completes (rs : Responses) :
  unitInterval (speakerDraw rs) ->
  forall fuel chunks s,
    settled s ->
    (awaitsLeft (activation s) + length chunks <= fuel)%nat ->
    exists s', finishTurn fuel rs chunks s = Some s'
               /\ settled s' /\ activation s' = NoTurn.
Proof.
  intros Hr. induction fuel as [|fuel IH]; intros chunks s Hs Hfuel.
  - destruct (activation s) eqn:Ea; simpl in Hfuel; try lia.
    exists s. simpl. rewrite Ea. auto.
  - destruct (activation s) as [|snap|snap sp|snap sp|snap sp full] eqn:Ea.
    + exists s. simpl. rewrite Ea. auto.
    + (* the phase check is awaited *)
      simpl. rewrite Ea.
      assert (Hstep : step s (PhaseCheckSettled (phaseResult rs) (speakerDraw rs))
                      = Some (afterPhaseCheck snap (phaseResult rs)
                                (speakerDraw rs) s)).
      { unfold step. rewrite Ea. reflexivity. }
      rewrite Hstep. simpl.
      pose proof (step_settled s
                    (PhaseCheckSettled (phaseResult rs) (speakerDraw rs)) _
                    Hs Hr Hstep) as Hs1.
      apply IH; [exact Hs1|].
      assert (awaitsLeft (activation (afterPhaseCheck snap (phaseResult rs)
                                        (speakerDraw rs) s)) <= 3)%nat.
      { destruct Hs as [Hm Hact]. rewrite Ea in Hact.
        destruct Hact as (_ & _ & Hsm & Hsa).
        destruct (agentTurn_selects snap (speakerDraw rs) s Hsm Hsa Hr)
          as (lm & sp & _ & _ & Eturn).
        unfold afterPhaseCheck.
        destruct (phaseResult rs) as [[intervention|]|err];
          try (rewrite Eturn; simpl; lia).
        destruct (isEmpty intervention); [rewrite Eturn; simpl; lia|].
        simpl. lia. }
      simpl in Hfuel. lia.
    + simpl. rewrite Ea.
      assert (Hstep : step s SettleElapsed
                      = Some (setActivation (AwaitThought snap sp) s)).
      { unfold step. rewrite Ea. reflexivity. }
      rewrite Hstep. simpl.
      apply IH; [eapply step_settled; [exact Hs| |exact Hstep]; exact I|].
      simpl in *. lia.
    + simpl. rewrite Ea.
      assert (Hstep : step s (ThoughtSettled (thoughtResult rs))
                      = Some (afterThought snap sp (thoughtResult rs) s)).
      { unfold step. rewrite Ea. reflexivity. }
      rewrite Hstep. simpl.
      apply IH; [eapply step_settled; [exact Hs| |exact Hstep]; exact I|].
      unfold afterThought. destruct (thoughtResult rs); simpl in *; lia.
    + destruct chunks as [|chunk chunks]; simpl; rewrite Ea.
      * assert (Hstep : step s (StreamClosed (closing rs))
                        = Some (turnCleanup s)).
        { unfold step. rewrite Ea. reflexivity. }
        rewrite Hstep. simpl.
        apply IH; [eapply step_settled; [exact Hs| |exact Hstep]; exact I|]. simpl. lia.
      * assert (Hstep : step s (StreamYielded chunk)
                        = Some (onChunk snap sp full chunk s)).
        { unfold step. rewrite Ea. reflexivity. }
        rewrite Hstep. simpl.
        apply IH; [eapply step_settled; [exact Hs| |exact Hstep]; exact I|].
        simpl in *. lia.
Qed.

Lemma awaitsLeft_le a : (awaitsLeft a <= 4)%nat.
Proof. destruct a; simpl; lia. Qed.

(** A meeting opened by [startMeeting] from a quiet roster is [settled]. *)
Lemma startMeeting_settled s :
  MeetingState.agents (state s) <> [] ->
  activation s = NoTurn ->
  MeetingState.isGenerating (state s) = false ->
  thinkingAgentId s = None ->
  settled (startMeeting s).
Proof.
  intros Ha Hn Hg Ht. unfold startMeeting.
  destruct (MeetingState.agents (state s)) as [|a l]; [congruence|].
  simpl. split; [discriminate|]. simpl. rewrite Hn. auto.
Qed.

(** C2.  At every point of every run of the meeting where no turn is
    pending, the generating flag is false and the thinking marker is
    clear; and a pending turn always returns once its awaits are answered,
    whatever the answers are (success or failure of the phase check, of
    the thought and of the stream), with the flag false and the marker
    clear. *)
Theorem generating_flag_liveness (s : Sys) (evs : list event) (s' : Sys) :
  settled s ->
  Forall drawInRange evs ->
  exec s evs = Some s' ->
  (activation s' = NoTurn ->
     MeetingState.isGenerating (state s') = false /\ thinkingAgentId s' = None)
  /\ (activation s' <> NoTurn -> MeetingState.isGenerating (state s') = true)
  /\ forall rs, unitInterval (speakerDraw rs) ->
       exists s'',
         finishTurn (4 + length (fragments rs)) rs (fragments rs) s' = Some s''
         /\ activation s'' = NoTurn
         /\ MeetingState.isGenerating (state s'') = false
         /\ thinkingAgentId s'' = None.
Proof.
  intros Hs Hr Hx.
  pose proof (exec_settled evs s s' Hs Hr Hx) as Hs'.
  split; [|split].
  - intros Hn. destruct Hs' as [_ Ha]. rewrite Hn in Ha. exact Ha.
  - intros Hn. destruct Hs' as [_ Ha].
    destruct (activation s'); [congruence| |auto|auto|auto]. tauto.
  - intros rs Hd.
    destruct (finishTurn_completes rs Hd (4 + length (fragments rs))
                (fragments rs) s' Hs') as (s'' & Hf & [_ Ha] & Hn).
    { pose proof (awaitsLeft_le (activation s')). lia. }
    exists s''. rewrite Hn in Ha. tauto.
Qed.

Lemma generating_flag_liveness_witness :
  exists s',
    exec justStarted (UserTyped "Go on" :: UserSubmitted :: Elapsed 2000
                      :: failingThoughtRun) = Some s'
    /\ (activation s' = NoTurn ->
          MeetingState.isGenerating (state s') = false
          /\ thinkingAgentId s' = None)
    /\ (activation s' <> NoTurn -> MeetingState.isGenerating (state s') = true)
    /\ forall rs, unitInterval (speakerDraw rs) ->
         exists s'',
           finishTurn (4 + length (fragments rs)) rs (fragments rs) s'
           = Some s''
           /\ activation s'' = NoTurn
           /\ MeetingState.isGenerating (state s'') = false
           /\ thinkingAgentId s'' = None.
Proof.
  eexists. split; [vm_compute; reflexivity|].
  apply (generating_flag_liveness justStarted
           (UserTyped "Go on" :: UserSubmitted :: Elapsed 2000
            :: failingThoughtRun)).
  - split; [discriminate|]. split; reflexivity.
  - repeat constructor; discriminate.
  - vm_compute; reflexivity.
Defined.

(** The flag is raised by the timer callback and lowered again when the
    thought call throws. *)
Example turn_raises_flag :
  (MeetingState.isGenerating ∘ state <$>
     exec justStarted [UserTyped "Go on"; UserSubmitted; Elapsed 2000;
                       TurnTimer (1 # 2)]) = Some true.
Proof. vm_compute. reflexivity. Qed.

Example failed_thought_lowers_flag :
  (MeetingState.isGenerating ∘ state <$>
     exec justStarted (UserTyped "Go on" :: UserSubmitted :: Elapsed 2000
                       :: failingThoughtRun)) = Some false.
Proof. vm_compute. reflexivity. Qed.

(** A turn left in the middle of its stream returns once the remaining
    fragments and the end of the stream have arrived, here with the
    stream ending in an error. *)
Example streaming_turn_finishes :
  (s ← exec justStarted streamingRun;
   s' ← finishTurn (4 + length (fragments sampleResponses)) sampleResponses
          (fragments sampleResponses) s;
   Some (MeetingState.isGenerating (state s), activation s',
         MeetingState.isGenerating (state s'), thinkingAgentId s',
         Message.content <$> last (MeetingState.messages (state s'))))
  = Some (true, NoTurn, false, None,
          Some "I think costs matter.And benefits.").
Proof. vm_compute. reflexivity. Qed.

(** With an empty transcript, which no meeting opened by [startMeeting]
    has, reading the last message throws outside the [try] and the flag
    stays set. *)
Example empty_transcript_strands_flag :
  let s := mkSys meetingStage
             (MeetingState.mk "t" [alice; bob] [] true false en)
             EmptyString None false 0 0 [] NoTurn in
  (fun s' => (MeetingState.isGenerating (state s'), activation s'))
    <$> step s (TurnTimer (1 # 2)) = Some (true, NoTurn).
Proof. vm_compute. reflexivity. Qed.

(** ** Who speaks next, and when the assistant is consulted *)

Lemma step_keeps_activation s e s' :
  step s e = Some s' ->
  match e with
  | UserTyped _ | UserSubmitted | PauseToggled | Elapsed _ => True
  | _ => False
  end ->
  activation s' = activation s.
Proof.
  unfold step. intros Hstep He.
  destruct e; try contradiction.
  - assert (s' = setInputValue text s) as ->.
    { destruct (activation s); destruct (bool_decide _); congruence. }
    reflexivity.
  - assert (s' = handleUserMessage s) as ->.
    { destruct (activation s); destruct (bool_decide _); congruence. }
    apply handleUserMessage_shape.
  - assert (s' = togglePause s) as ->.
    { destruct (activation s); destruct (bool_decide _); congruence. }
    reflexivity.
  - assert (s' = elapse ms s) as ->.
    { destruct (activation s); congruence. }
    apply elapse_shape.
Qed.

Lemma agentTurn_messages snap random s :
  MeetingState.messages (state (agentTurn snap random s))
  = MeetingState.messages (state s).
Proof.
  unfold agentTurn. destruct (last _); [|reflexivity].
  destruct (length _ =? 0)%nat; [reflexivity|].
  destruct (pickSpeaker _ _); reflexivity.
Qed.






(** Two agents sharing one id defeat the exclusion: the fallback returns
    the whole roster. *)
Example shared_id_defeats_exclusion :
  let twin := Agent.mk "agent-1-0" "Twin" "Echo" "Repeats." 3 in
  let lastMessage := placeholderMessage alice "thought" 5 in
  candidatesFor [alice; twin] lastMessage = [alice; twin].
Proof. reflexivity. Qed.

(** ** The assistant check *)

Lemma phaseCheckAttempt_nonempty response text :
  phaseCheckAttempt response = Ok (Some text) -> isEmpty text = false.
Proof.
  unfold phaseCheckAttempt.
  destruct response as [[raw|]|err]; try discriminate.
  destruct (isEmpty (trim raw)) eqn:E; simpl; [discriminate|].
  destruct (includes (trim raw) "NO_ACTION"); [discriminate|].
  intros [= <-]. exact E.
Qed.

Lemma generatePhaseCheck_nonempty backend random text :
  result (generatePhaseCheck backend random) = Ok (Some text) ->
  isEmpty text = false.
Proof.
  unfold generatePhaseCheck, callWithRetry.
  rewrite (callWithRetry_from_result
             (fun k => phaseCheckAttempt (backend k)) random).
  apply phaseCheckAttempt_nonempty.
Qed.

Lemma generatePhaseCheck_never_throws backend random :
  exists r, result (generatePhaseCheck backend random) = Ok r.
Proof.
  unfold generatePhaseCheck, callWithRetry.
  rewrite (callWithRetry_from_result
             (fun k => phaseCheckAttempt (backend k)) random).
  unfold phaseCheckAttempt.
  destruct (backend _) as [[raw|]|err]; try (eexists; reflexivity).
  destruct (_ || _); eexists; reflexivity.
Qed.

(** C4.  In a cycle that passes the entry guard, the assistant check is
    started exactly when the turn counter is a positive multiple of 4,
    and no step other than such a timer callback starts one.  When
    [generatePhaseCheck] returns an intervention, a [system] message of
    sender ["assistant"] carrying it is appended, the generating flag is
    cleared, the turn ends, and no speaker is selected (the thinking
    marker is untouched). *)
Theorem phase_check_cadence :
  (forall s random,
     activation s = NoTurn -> entryGuard s = true ->
     step s (TurnTimer random) = Some (processNextTurn random s)
     /\ (phaseCheckPending (processNextTurn random s)
         <-> (0 < turnCount s)%N /\ (turnCount s mod 4 = 0)%N))
  /\ (forall s e s',
        step s e = Some s' -> ~ phaseCheckPending s -> phaseCheckPending s' ->
        exists random,
          e = TurnTimer random /\ entryGuard s = true
          /\ (0 < turnCount s)%N /\ (turnCount s mod 4 = 0)%N)
  /\ (forall s snap backend rnd random intervention,
        activation s = AwaitPhaseCheck snap ->
        result (generatePhaseCheck backend rnd) = Ok (Some intervention) ->
        exists s',
          step s (PhaseCheckSettled (result (generatePhaseCheck backend rnd))
                    random) = Some s'
          /\ MeetingState.messages (state s')
             = MeetingState.messages (state s)
               ++ [Message.mk (toString (clock s)) "assistant"
                     (assistantName (TEXT (MeetingState.language snap)))
                     intervention None (clock s) system]
          /\ MeetingState.isGenerating (state s') = false
          /\ activation s' = NoTurn
          /\ thinkingAgentId s' = thinkingAgentId s
          /\ turnCount s' = (turnCount s + 1)%N).
Proof.
  split; [|split].
  - intros s random Hn Hg. split.
    + unfold step. rewrite Hn. reflexivity.
    + rewrite <- assistantCheckDue_spec.
      unfold processNextTurn, phaseCheckPending. rewrite Hg. simpl.
      change (assistantCheckDue
                (setState (fun prev => MeetingState.withIsGenerating prev true)
                   s))
        with (assistantCheckDue s).
      destruct (assistantCheckDue s).
      * split; [reflexivity|]. intros _. eexists. reflexivity.
      * split; [|discriminate]. intros [snap Hp].
        unfold agentTurn in Hp.
        destruct (last _); [|simpl in Hp; congruence].
        destruct (length _ =? 0)%nat; [simpl in Hp; discriminate|].
        destruct (pickSpeaker _ _); simpl in Hp; discriminate.
  - intros s e s' Hstep Hnot [snap Hp].
    destruct e as [random|r random| |r|chunk|r|text| | |ms];
      try (rewrite (step_keeps_activation _ _ _ Hstep I) in Hp;
           exfalso; apply Hnot; exists snap; exact Hp).
    + exists random. split; [reflexivity|].
      unfold step in Hstep.
      destruct (activation s) eqn:Ea.
      * injection Hstep as <-. unfold processNextTurn in Hp.
        destruct (entryGuard s) eqn:Eg; simpl in Hp; [|congruence].
        split; [reflexivity|]. apply assistantCheckDue_spec.
        change (assistantCheckDue
                  (setState (fun prev =>
                     MeetingState.withIsGenerating prev true) s))
          with (assistantCheckDue s) in Hp.
        destruct (assistantCheckDue s); [reflexivity|].
        unfold agentTurn in Hp.
        destruct (last _); [|simpl in Hp; congruence].
        destruct (length _ =? 0)%nat; [simpl in Hp; discriminate|].
        destruct (pickSpeaker _ _); simpl in Hp; discriminate.
      * exfalso. apply Hnot. eexists. exact Ea.
      * destruct (entryGuard s); [discriminate|].
        injection Hstep as <-. congruence.
      * destruct (entryGuard s); [discriminate|].
        injection Hstep as <-. congruence.
      * destruct (entryGuard s); [discriminate|].
        injection Hstep as <-. congruence.
    + unfold step in Hstep.
      destruct (activation s) eqn:Ea; try discriminate.
      exfalso. apply Hnot. eexists. exact Ea.
    + unfold step in Hstep.
      destruct (activation s) eqn:Ea; try discriminate.
      injection Hstep as <-. simpl in Hp. discriminate.
    + unfold step in Hstep.
      destruct (activation s) eqn:Ea; try discriminate.
      injection Hstep as <-. unfold afterThought in Hp.
      destruct r; simpl in Hp; discriminate.
    + unfold step in Hstep.
      destruct (activation s) eqn:Ea; try discriminate.
      injection Hstep as <-. simpl in Hp. discriminate.
    + unfold step in Hstep.
      destruct (activation s) eqn:Ea; try discriminate.
      injection Hstep as <-. simpl in Hp. discriminate.
  - intros s snap backend rnd random intervention Ha Hr.
    pose proof (generatePhaseCheck_nonempty _ _ _ Hr) as Hne.
    rewrite Hr. eexists. split.
    + unfold step. rewrite Ha. reflexivity.
    + unfold afterPhaseCheck. rewrite Hne. simpl.
      repeat split; reflexivity.
Qed.

Lemma phase_check_cadence_witness :
  phaseCheckPending (processNextTurn (1 # 2) afterFourTurns)
  /\ exists s',
       exec afterFourTurns
         [TurnTimer (1 # 2);
          PhaseCheckSettled
            (result (generatePhaseCheck interveningBackend halfRandom))
            (1 # 2)] = Some s'
       /\ (Message.content <$> last (MeetingState.messages (state s')))
          = Some "Everyone agrees on costs; let us move on."
       /\ MeetingState.isGenerating (state s') = false
       /\ thinkingAgentId s' = None.
Proof.
  destruct phase_check_cadence as (Hstart & _ & Hintervene).
  destruct (Hstart afterFourTurns (1 # 2) eq_refl eq_refl) as [Hstep Hiff].
  split; [apply Hiff; split; reflexivity|].
  destruct (Hintervene (processNextTurn (1 # 2) afterFourTurns)
              (state afterFourTurns) interveningBackend halfRandom (1 # 2)
              "Everyone agrees on costs; let us move on." eq_refl eq_refl)
    as (s' & Hs' & Hm & Hg & _ & Ht & _).
  exists s'. split; [|split; [|split]].
  - cbn [exec]. rewrite Hstep, Hs'. reflexivity.
  - rewrite Hm, last_snoc. reflexivity.
  - exact Hg.
  - rewrite Ht. reflexivity.
Defined.

Example no_check_on_first_turn :
  activation (processNextTurn (1 # 2) justStarted)
  = AwaitSettle (state justStarted) bob.
Proof. reflexivity. Qed.

(** ** The transcript *)

Lemma continues_refl m : continues m m.
Proof. split; auto. Qed.

Lemma continues_trans m1 m2 m3 :
  continues m1 m2 -> continues m2 m3 -> continues m1 m3.
Proof.
  intros [L1 H1] [L2 H2]. split; [lia|].
  intros i Hi. rewrite H2 by lia. apply H1. exact Hi.
Qed.

Lemma continues_snoc m x : continues m (m ++ [x]).
Proof.
  split; [rewrite length_app; lia|].
  intros i Hi. apply lookup_app_l. lia.
Qed.

Lemma continues_alter_last (f : Message.t -> Message.t) m :
  continues m (alter f (length m - 1)%nat m).
Proof.
  split; [rewrite length_alter; lia|].
  intros i Hi. apply list_lookup_alter_ne. lia.
Qed.

Lemma alter_last_snoc {A} (f : A -> A) (l : list A) (x : A) :
  alter f (length (l ++ [x]) - 1)%nat (l ++ [x]) = l ++ [f x].
Proof.
  rewrite length_app. simpl.
  replace (length l + 1 - 1)%nat with (length l + 0)%nat by lia.
  rewrite alter_app_r. reflexivity.
Qed.

Lemma updateLastMessage_snoc content s older m :
  MeetingState.messages (state s) = older ++ [m] ->
  MeetingState.messages (state (updateLastMessage content s))
  = older ++ [Message.withContent m content].
Proof.
  intros Hm. unfold updateLastMessage. simpl. rewrite Hm.
  rewrite length_app. cbn [length].
  destruct (length older + 1 =? 0)%nat eqn:E;
    [apply Nat.eqb_eq in E; lia|].
  cbn [MeetingState.messages MeetingState.withMessages].
  replace (length older + 1 - 1)%nat with (length older + 0)%nat by lia.
  rewrite alter_app_r. reflexivity.
Qed.

Lemma updateLastMessage_continues content s :
  continues (MeetingState.messages (state s))
            (MeetingState.messages (state (updateLastMessage content s))).
Proof.
  unfold updateLastMessage. simpl.
  destruct (length _ =? 0)%nat; [apply continues_refl|].
  apply continues_alter_last.
Qed.

Lemma handleUserMessage_continues s :
  continues (MeetingState.messages (state s))
            (MeetingState.messages (state (handleUserMessage s))).
Proof.
  unfold handleUserMessage.
  destruct (isEmpty _); [apply continues_refl|apply continues_snoc].
Qed.

Lemma step_continues s e s' :
  step s e = Some s' ->
  continues (MeetingState.messages (state s))
            (MeetingState.messages (state s')).
Proof.
  unfold step. intros Hstep.
  destruct e as [random|r random| |r|chunk|r|text| | |ms].
  - assert (s' = s \/ s' = processNextTurn random s) as [->| ->].
    { destruct (activation s); try (injection Hstep as <-; auto);
        destruct (entryGuard s); try discriminate;
        injection Hstep as <-; auto. }
    + apply continues_refl.
    + unfold processNextTurn. destruct (negb _); [apply continues_refl|].
      destruct (assistantCheckDue _); [apply continues_refl|].
      rewrite agentTurn_messages. apply continues_refl.
  - destruct (activation s) as [|snap| | |]; try discriminate.
    injection Hstep as <-. unfold afterPhaseCheck.
    destruct r as [[intervention|]|err];
      try (rewrite agentTurn_messages; apply continues_refl).
    destruct (isEmpty intervention);
      [rewrite agentTurn_messages; apply continues_refl|].
    apply continues_snoc.
  - destruct (activation s); try discriminate.
    injection Hstep as <-. apply continues_refl.
  - destruct (activation s); try discriminate.
    injection Hstep as <-. unfold afterThought.
    destruct r; [apply continues_snoc|apply continues_refl].
  - destruct (activation s); try discriminate.
    injection Hstep as <-. apply updateLastMessage_continues.
  - destruct (activation s); try discriminate.
    injection Hstep as <-. apply continues_refl.
  - assert (s' = setInputValue text s) as ->.
    { destruct (activation s); destruct (bool_decide _); congruence. }
    apply continues_refl.
  - assert (s' = handleUserMessage s) as ->.
    { destruct (activation s); destruct (bool_decide _); congruence. }
    apply handleUserMessage_continues.
  - assert (s' = togglePause s) as ->.
    { destruct (activation s); destruct (bool_decide _); congruence. }
    apply continues_refl.
  - assert (s' = elapse ms s) as ->.
    { destruct (activation s); congruence. }
    destruct (elapse_shape ms s) as (_ & _ & _ & ->). apply continues_refl.
Qed.

(** The part of the single-stream invariant the store does keep: once a
    message is no longer the last entry of the transcript, no run of the
    meeting changes it. *)
Lemma superseded_message_frozen evs : forall s s' i m,
  exec s evs = Some s' ->
  (S i < length (MeetingState.messages (state s)))%nat ->
  MeetingState.messages (state s) !! i = Some m ->
  MeetingState.messages (state s') !! i = Some m.
Proof.
  induction evs as [|e evs IH]; intros s s' i m Hx Hi Hm; simpl in Hx.
  - injection Hx as <-. exact Hm.
  - destruct (step s e) as [s1|] eqn:E; [|discriminate].
    destruct (step_continues _ _ _ E) as [Hlen Hsame].
    apply (IH s1 s' i m Hx); [lia|].
    rewrite Hsame by exact Hi. exact Hm.
Qed.

(** C1.  The stream loop writes to whatever message is last.  When the
    user submits a message while a speech is streaming, the next fragment
    replaces the content of the user's message, a message the streaming
    turn did not append, while the turn's own message keeps the content
    it had. *)
Theorem stream_update_overwrites_user_message :
  exists s1 s2 own userMessage,
    exec justStarted interruptedStream = Some s1
    /\ MeetingState.messages (state s1) !! 1%nat = Some own
    /\ Message.senderId own = Agent.id bob
    /\ Message.content own = "I think "
    /\ MeetingState.messages (state s1) !! 2%nat = Some userMessage
    /\ length (MeetingState.messages (state s1)) = 3%nat
    /\ Message.senderId userMessage = "user"
    /\ Message.content userMessage = "Wait, what about rent?"
    /\ step s1 (StreamYielded "costs matter.") = Some s2
    /\ MeetingState.messages (state s2) !! 1%nat = Some own
    /\ MeetingState.messages (state s2) !! 2%nat
       = Some (Message.withContent userMessage "I think costs matter.").
Proof.
  eexists _, _, _, _.
  split; [vm_compute; reflexivity|].
  repeat split; vm_compute; reflexivity.
Qed.

(** ** Speech streaming *)

Lemma generateAgentSpeechStream_never_throws connect random :
  completion (generateAgentSpeechStream connect random) = Ok tt.
Proof.
  unfold generateAgentSpeechStream.
  destruct (completion (speechStreamBody connect random)) as [[]|err] eqn:E;
    [exact E|reflexivity].
Qed.

(** Four rate-limit failures in a row exhaust the retries. *)
Lemma callWithRetry_exhausts {T} (fn : nat -> outcome jsError T) random :
  (forall k, (k <= MAX_RETRIES)%nat ->
             exists e, fn k = Throw e /\ isRateLimit e = true) ->
  exists e, fn MAX_RETRIES = Throw e
            /\ result (callWithRetry fn random) = Throw e
            /\ calls (callWithRetry fn random) = (1 + MAX_RETRIES)%nat.
Proof.
  intros H. unfold callWithRetry, MAX_RETRIES in *.
  destruct (H 0%nat ltac:(lia)) as (e0 & E0 & R0).
  destruct (H 1%nat ltac:(lia)) as (e1 & E1 & R1).
  destruct (H 2%nat ltac:(lia)) as (e2 & E2 & R2).
  destruct (H 3%nat ltac:(lia)) as (e3 & E3 & R3).
  exists e3. simpl. rewrite E0, R0, E1, R1, E2, R2, E3. simpl. auto.
Qed.







(** Fragments delivered before a failure in mid-stream are kept, and the
    notice follows them. *)
Example stream_fails_midway :
  generateAgentSpeechStream
    (fun _ => Ok (mkConnection [Some "Well, "; None; Some EmptyString;
                                Some "I "] (Some serverError)))
    halfRandom
  = mkGenerated ["Well, "; "I ";
                 "Error: Service busy. Please try again later."] (Ok tt).
Proof. reflexivity. Qed.

(** ** The user speaks *)

(** C10.  Submitting a message that is not blank sets the active flag to
    false at once, appends the user's message and arms a timer that sets
    the flag to true 2000 ms later, whatever the flag was before: a
    message submitted while the meeting is paused resumes it. *)
Theorem user_message_resumes_after_quiet_period (s : Sys) :
  stage s = meetingStage ->
  isEmpty (trim (inputValue s)) = false ->
  exists s1,
    step s UserSubmitted = Some s1
    /\ MeetingState.isActive (state s1) = false
    /\ last (MeetingState.messages (state s1))
       = Some (Message.mk (toString (clock s)) "user"
                 (hostRole (TEXT (MeetingState.language (state s))))
                 (inputValue s) None (clock s) speech)
    /\ resumeTimers s1 = resumeTimers s ++ [(clock s + 2000)%N]
    /\ (forall ms, (2000 <= ms)%N ->
          step s1 (Elapsed ms) = Some (elapse ms s1)
          /\ MeetingState.isActive (state (elapse ms s1)) = true)
    /\ (resumeTimers s = [] ->
        forall ms, (ms < 2000)%N ->
          MeetingState.isActive (state (elapse ms s1)) = false).
Proof.
  intros Hstage Hinput. exists (handleUserMessage s).
  assert (Hstep : step s UserSubmitted = Some (handleUserMessage s)).
  { unfold step. rewrite Hstage. destruct (activation s); reflexivity. }
  split; [exact Hstep|].
  unfold handleUserMessage. rewrite Hinput.
  split; [reflexivity|]. split; [simpl; apply last_snoc|].
  split; [reflexivity|]. split.
  - intros ms Hms. split.
    + unfold step. simpl. destruct (activation s); reflexivity.
    + unfold elapse. simpl.
      destruct (filter _ (resumeTimers s ++ [(clock s + QUIET_PERIOD_MS)%N]))
        as [|t l] eqn:E; [|reflexivity].
      exfalso.
      apply (filter_nil_not_elem_of _ _ (clock s + QUIET_PERIOD_MS)%N) in E.
      * apply E. apply elem_of_app. right. left.
      * unfold QUIET_PERIOD_MS. lia.
  - intros Hnone ms Hms. unfold elapse. simpl. rewrite Hnone. simpl.
    rewrite filter_cons_False; [reflexivity|].
    unfold QUIET_PERIOD_MS. lia.
Qed.

Lemma user_message_resumes_after_quiet_period_witness :
  MeetingState.isActive (state pausedWithInput) = false
  /\ exists s1,
       step pausedWithInput UserSubmitted = Some s1
       /\ MeetingState.isActive (state s1) = false
       /\ MeetingState.isActive (state (elapse 2000 s1)) = true.
Proof.
  split; [reflexivity|].
  destruct (user_message_resumes_after_quiet_period pausedWithInput
              eq_refl eq_refl) as (s1 & Hstep & Hoff & _ & _ & Hon & _).
  exists s1. split; [exact Hstep|]. split; [exact Hoff|].
  apply Hon. discriminate.
Defined.

(** A blank input is not submitted, whether the blanks are ASCII spaces
    or the spaces of an East Asian input method. *)
Example blank_input_is_ignored :
  handleUserMessage (setInputValue "   " justStarted)
  = setInputValue "   " justStarted
  /\ handleUserMessage
       (setInputValue (ideographicSpace ++ noBreakSpace) justStarted)
     = setInputValue (ideographicSpace ++ noBreakSpace) justStarted.
Proof. split; reflexivity. Qed.

(** The message is appended as it was typed: [trim] only decides
    whether it is sent. *)
Example padded_input_is_sent_as_typed :
  Message.content
    <$> last (MeetingState.messages
                (state (handleUserMessage
                          (setInputValue (ideographicSpace ++ "好 ")
                             justStarted))))
  = Some (ideographicSpace ++ "好 ")%string.
Proof. reflexivity. Qed.

(** ** Starting the meeting *)

(** C6.  With fewer than two agents the Start Meeting control does
    nothing (stage and session state are as before) and the roster view
    shows that two participants are needed; with exactly two agents it
    opens the meeting: stage [meeting], the welcome message as the only
    transcript entry, the active flag set and the turn counter at zero. *)
Theorem roster_gating (s : Sys) :
  ((length (MeetingState.agents (state s)) < 2)%nat ->
     clickStartMeeting s = s
     /\ rosterNotice s
        = Some (needMoreParticipants (TEXT (MeetingState.language (state s)))))
  /\ (length (MeetingState.agents (state s)) = 2%nat ->
      let s' := clickStartMeeting s in
      stage s' = meetingStage
      /\ MeetingState.isActive (state s') = true
      /\ MeetingState.messages (state s')
         = [welcomeMessage (MeetingState.language (state s))
              (MeetingState.topic (state s)) (clock s)]
      /\ MeetingState.agents (state s') = MeetingState.agents (state s)
      /\ MeetingState.topic (state s') = MeetingState.topic (state s)
      /\ turnCount s' = 0%N
      /\ rosterNotice s = None).
Proof.
  unfold clickStartMeeting, Button, startMeetingDisabled, rosterNotice,
    startMeeting.
  split.
  - intros Hlt. apply Nat.ltb_lt in Hlt. rewrite Hlt. auto.
  - intros Heq. rewrite Heq. simpl. repeat split.
Qed.

Lemma roster_gating_witness :
  clickStartMeeting (rosterOf [alice]) = rosterOf [alice]
  /\ stage (clickStartMeeting (rosterOf [alice; bob])) = meetingStage.
Proof.
  split.
  - apply (roster_gating (rosterOf [alice])). simpl. lia.
  - apply (roster_gating (rosterOf [alice; bob])). reflexivity.
Defined.

(** The handler itself only refuses an empty roster; a roster of one is
    stopped by the disabled button. *)
Example startMeeting_single_agent :
  stage (startMeeting (rosterOf [alice])) = meetingStage
  /\ startMeeting (rosterOf []) = rosterOf [].
Proof. split; reflexivity. Qed.

(** ** Restoring a saved session *)

(** C7, as stated, fails: the snapshot without [state.agents] is applied
    as it is.  Stage, state and report are overwritten, the stored item
    stays and no notice is shown. *)
Lemma restore_malformed_counterexample :
  let before := storeWith (Some (JsonOf snapshotWithoutAgents)) in
  let after := Persistence.restoreSession before in
  Persistence.missingAgents snapshotWithoutAgents = true
  /\ ~ Persistence.restoreAborted before after
  /\ Persistence.stage after = JStr "meeting"
  /\ get (Persistence.state after) "agents" = Some JUndefined
  /\ Persistence.report after = JStr "Draft"
  /\ Persistence.alerts after = []
  /\ Persistence.saved after = Some (JsonOf snapshotWithoutAgents).
Proof.
  cbv zeta. split; [reflexivity|]. split.
  - intros (Hstage & _). vm_compute in Hstage. discriminate.
  - repeat split.
Qed.

(** C7, amended.  A restore is abandoned, with no cell touched and the
    notice shown, exactly when the stored text does not parse or parses
    to [null]; any other stored value, whatever its shape and in
    particular one without [state.agents], has its [stage], [state] and
    [report] written to the three cells together, and no notice is
    shown. *)
Theorem restoreSession_applies_what_parses (s : Persistence.Store)
    (text : jsonText) :
  Persistence.getItem s = Some text ->
  let s' := Persistence.restoreSession s in
  (JSON_parse text = None \/ JSON_parse text = Some JNull ->
     Persistence.stage s' = Persistence.stage s
     /\ Persistence.state s' = Persistence.state s
     /\ Persistence.report s' = Persistence.report s
     /\ Persistence.alerts s'
        = Persistence.alerts s ++ [restoreFail (Persistence.t s)])
  /\ (forall parsed stage' state' report',
        JSON_parse text = Some parsed ->
        get parsed "stage" = Some stage' ->
        get parsed "state" = Some state' ->
        get parsed "report" = Some report' ->
        Persistence.stage s' = stage'
        /\ Persistence.state s' = state'
        /\ Persistence.report s' = report'
        /\ Persistence.alerts s' = Persistence.alerts s)
  /\ (forall fields,
        JSON_parse text = Some (JObj fields) ->
        Persistence.missingAgents (JObj fields) = true ->
        Persistence.stage s' = field "stage" fields
        /\ Persistence.state s' = field "state" fields
        /\ Persistence.report s' = field "report" fields
        /\ Persistence.alerts s' = Persistence.alerts s).
Proof.
  intros Hitem s'. subst s'. unfold Persistence.restoreSession.
  rewrite Hitem. split; [|split].
  - intros [-> | ->]; simpl; auto.
  - intros parsed stage' state' report' -> -> -> ->. simpl. auto.
  - intros fields -> _. simpl. auto.
Qed.

Lemma restoreSession_applies_what_parses_witness :
  Persistence.alerts
    (Persistence.restoreSession (storeWith (Some (NotJson "{oops"))))
  = ["Could not restore session."]
  /\ Persistence.state
       (Persistence.restoreSession
          (storeWith (Some (JsonOf snapshotWithoutAgents))))
     = field "state" [("stage", JStr "meeting");
                      ("state",
                       JObj [("topic", JStr "Remote work");
                             ("messages", JArr []);
                             ("isActive", JBool true);
                             ("isGenerating", JBool false);
                             ("language", JStr "en")]);
                      ("report", JStr "Draft");
                      ("timestamp", JNum 1700000000000)].
Proof.
  split.
  - apply (restoreSession_applies_what_parses
             (storeWith (Some (NotJson "{oops"))) (NotJson "{oops") eq_refl).
    left. reflexivity.
  - apply (restoreSession_applies_what_parses
             (storeWith (Some (JsonOf snapshotWithoutAgents)))
             (JsonOf snapshotWithoutAgents) eq_refl); reflexivity.
Defined.

(** [restoreSession] never removes the stored item; the mount effect does
    remove one that does not parse or has no [state]. *)
Lemma restoreSession_keeps_item s :
  Persistence.saved (Persistence.restoreSession s) = Persistence.saved s.
Proof.
  unfold Persistence.restoreSession.
  destruct (Persistence.getItem s) as [text|]; [|reflexivity].
  destruct (JSON_parse text) as [parsed|]; [|reflexivity].
  destruct (get parsed "stage"), (get parsed "state"), (get parsed "report");
    reflexivity.
Qed.

Example checkSavedSession_discards_unparseable :
  Persistence.saved
    (Persistence.checkSavedSession (storeWith (Some (NotJson "{oops"))))
  = None.
Proof. reflexivity. Qed.

Example checkSavedSession_keeps_snapshot_without_agents :
  Persistence.saved
    (Persistence.checkSavedSession
       (storeWith (Some (JsonOf snapshotWithoutAgents))))
  = Some (JsonOf snapshotWithoutAgents).
Proof. reflexivity. Qed.

(** ** The remaining generation operations *)

Lemma callWithRetry_first_ok {T} (fn : nat -> outcome jsError T) random v :
  fn 0%nat = Ok v -> callWithRetry fn random = mkRun (Ok v) [] 1.
Proof. intros H. unfold callWithRetry. simpl. rewrite H. reflexivity. Qed.

(** X1.  The summary, the report, the topic suggestions and the phase
    check make exactly one backend call and never wait, whatever the
    backend answers: their wrapped functions turn every failure into a
    value, so [callWithRetry] sees no error to retry.  A failed backend
    call gives the fixed error text (summary, report), the empty list
    (suggestions) and no intervention (phase check). *)
Theorem degrading_operations_never_retry :
  (forall backend random,
     exists v, generateQuickSummary backend random = mkRun (Ok v) [] 1
               /\ (forall e, backend 0%nat = Throw e ->
                     v = "Error generating summary (Quota Exceeded).")
               /\ (forall t, backend 0%nat = Ok (Some t) -> t <> EmptyString ->
                     v = t)
               /\ (backend 0%nat = Ok None \/ backend 0%nat = Ok (Some EmptyString)
                   -> v = "No summary available."))
  /\ (forall backend random,
        exists v, generateMeetingReport backend random = mkRun (Ok v) [] 1
                  /\ (forall e, backend 0%nat = Throw e ->
                        v = "An error occurred while generating the report. Please try again later.")
                  /\ (forall t, backend 0%nat = Ok (Some t) ->
                        t <> EmptyString -> v = t)
                  /\ (backend 0%nat = Ok None
                      \/ backend 0%nat = Ok (Some EmptyString)
                      -> v = "Failed to generate report."))
  /\ (forall backend random,
        exists v, generateTopicSuggestions backend random = mkRun (Ok v) [] 1
                  /\ (forall e, backend 0%nat = Throw e -> v = JArr [])
                  /\ (forall text, backend 0%nat = Ok (Some text) ->
                        JSON_parse text = None -> v = JArr [])
                  /\ (backend 0%nat = Ok None -> v = JArr [])
                  /\ (forall data, backend 0%nat = Ok (Some (JsonOf data)) ->
                        v = data))
  /\ (forall backend random,
        exists v, generatePhaseCheck backend random = mkRun (Ok v) [] 1
                  /\ (forall e, backend 0%nat = Throw e -> v = None)).
Proof.
  split; [|split; [|split]]; intros backend random.
  - destruct (backend 0%nat) as [text|e] eqn:E.
    + exists (textOr NO_SUMMARY text). split.
      * apply callWithRetry_first_ok. rewrite E. reflexivity.
      * split; [discriminate|]. split.
        -- intros t [= ->] Ht. simpl. unfold isEmpty.
           destruct (String.eqb_spec t EmptyString); [contradiction|reflexivity].
        -- intros [[= ->]|[= ->]]; reflexivity.
    + exists SUMMARY_ERROR. split.
      * apply callWithRetry_first_ok. rewrite E. reflexivity.
      * split; [reflexivity|]. split; [discriminate|].
        intros [H|H]; discriminate.
  - destruct (backend 0%nat) as [text|e] eqn:E.
    + exists (textOr NO_REPORT text). split.
      * apply callWithRetry_first_ok. rewrite E. reflexivity.
      * split; [discriminate|]. split.
        -- intros t [= ->] Ht. simpl. unfold isEmpty.
           destruct (String.eqb_spec t EmptyString); [contradiction|reflexivity].
        -- intros [[= ->]|[= ->]]; reflexivity.
    + exists REPORT_ERROR. split.
      * apply callWithRetry_first_ok. rewrite E. reflexivity.
      * split; [reflexivity|]. split; [discriminate|].
        intros [H|H]; discriminate.
  - destruct (topicsAttempt (backend 0%nat)) as [v|e] eqn:Ev.
    + exists v. split; [apply callWithRetry_first_ok; exact Ev|].
      unfold topicsAttempt in Ev.
      split; [|split; [|split]].
      * intros e He. rewrite He in Ev. congruence.
      * intros text He Hp. rewrite He in Ev.
        destruct text as [raw|data]; [|discriminate].
        simpl in Ev. destruct (isEmpty raw); simpl in Ev; congruence.
      * intros He. rewrite He in Ev. simpl in Ev. congruence.
      * intros data He. rewrite He in Ev. simpl in Ev. congruence.
    + exfalso. unfold topicsAttempt in Ev.
      destruct (backend 0%nat) as [text|e']; [|discriminate].
      destruct (JSON_parse _); discriminate.
  - destruct (phaseCheckAttempt (backend 0%nat)) as [v|e] eqn:Ev.
    + exists v. split; [apply callWithRetry_first_ok; exact Ev|].
      intros e He. rewrite He in Ev. simpl in Ev. congruence.
    + exfalso. unfold phaseCheckAttempt in Ev.
      destruct (backend 0%nat) as [[raw|]|e']; try discriminate.
      destruct (_ || _); discriminate.
Qed.

(** X2.  An intervention of the phase check is the trimmed text of the
    first backend answer; it is never empty and never contains
    NO_ACTION.  A blank answer and an answer that mentions NO_ACTION
    anywhere give no intervention. *)
Theorem phase_check_interventions :
  (forall backend random intervention,
     result (generatePhaseCheck backend random) = Ok (Some intervention) ->
     exists raw, backend 0%nat = Ok (Some raw)
                 /\ intervention = trim raw
                 /\ intervention <> EmptyString
                 /\ includes intervention "NO_ACTION" = false)
  /\ (forall backend random raw,
        backend 0%nat = Ok (Some raw) ->
        trim raw = EmptyString \/ includes (trim raw) "NO_ACTION" = true ->
        result (generatePhaseCheck backend random) = Ok None).
Proof.
  split.
  - intros backend random intervention.
    unfold generatePhaseCheck, callWithRetry. simpl.
    unfold phaseCheckAttempt.
    destruct (backend 0%nat) as [[raw|]|e]; simpl; try discriminate.
    destruct (isEmpty (trim raw)) eqn:Ee; simpl; [discriminate|].
    destruct (includes (trim raw) "NO_ACTION") eqn:Ei; simpl; [discriminate|].
    intros [= <-]. exists raw. repeat split; auto.
    intros H. unfold isEmpty in Ee. rewrite H in Ee. discriminate.
  - intros backend random raw He Hc.
    unfold generatePhaseCheck, callWithRetry. simpl.
    unfold phaseCheckAttempt. rewrite He.
    destruct Hc as [Hc|Hc].
    + unfold isEmpty. rewrite Hc. reflexivity.
    + rewrite Hc, orb_true_r. reflexivity.
Qed.

Lemma phase_check_interventions_witness :
  result (generatePhaseCheck
            (fun _ => Ok (Some "  NO_ACTION needed here. ")) halfRandom)
  = Ok None.
Proof.
  destruct phase_check_interventions as [_ H].
  apply (H _ halfRandom "  NO_ACTION needed here. " eq_refl).
  right. reflexivity.
Defined.

(** White space beyond ASCII is trimmed as well: an answer padded with a
    no-break space and an ideographic space gives the text between them,
    and an answer of such spaces only gives no intervention. *)
Example phase_check_trims_unicode_space :
  result (generatePhaseCheck
            (fun _ => Ok (Some (noBreakSpace ++ "Let us vote."
                                ++ ideographicSpace ++ " ")%string))
            halfRandom)
  = Ok (Some "Let us vote.")
  /\ result (generatePhaseCheck
               (fun _ => Ok (Some (ideographicSpace ++ noBreakSpace)%string))
               halfRandom)
     = Ok None.
Proof. split; reflexivity. Qed.

(** ** Roster generation *)

Lemma field_assign_eq k v fields : field k (assign k v fields) = v.
Proof.
  induction fields as [|[k' v'] rest IH]; simpl.
  - rewrite String.eqb_refl. reflexivity.
  - destruct (String.eqb k k') eqn:E; simpl.
    + rewrite String.eqb_refl. reflexivity.
    + rewrite E. exact IH.
Qed.

Lemma field_assign_ne k k' v fields :
  k <> k' -> field k' (assign k v fields) = field k' fields.
Proof.
  intros Hne. induction fields as [|[k0 v0] rest IH]; simpl.
  - destruct (String.eqb_spec k' k); [congruence|reflexivity].
  - destruct (String.eqb_spec k k0) as [->|Hk]; simpl.
    + destruct (String.eqb_spec k' k0); [congruence|reflexivity].
    + destruct (String.eqb k' k0); [reflexivity|exact IH].
Qed.

Lemma uint_string_dashFree d :
  dashFree (DecimalString.NilEmpty.string_of_uint d).
Proof. induction d; simpl; auto; split; auto; discriminate. Qed.

Lemma toString_dashFree n : dashFree (App.toString n).
Proof.
  unfold App.toString, DecimalString.NilZero.string_of_uint.
  destruct (N.to_uint n); try apply uint_string_dashFree.
  simpl. split; [discriminate|exact I].
Qed.

Lemma toString_inj n m : App.toString n = App.toString m -> n = m.
Proof.
  unfold App.toString. intros H.
  apply DecimalN.Unsigned.to_uint_inj.
  assert (Hnn : forall k, N.to_uint k <> Decimal.Nil).
  { intros k Hk.
    pose proof (DecimalN.Unsigned.to_of (N.to_uint k)) as E.
    rewrite DecimalN.Unsigned.of_to in E. rewrite Hk in E.
    destruct k; discriminate. }
  pose proof (DecimalString.NilZero.usu _ (Hnn n)) as En.
  pose proof (DecimalString.NilZero.usu _ (Hnn m)) as Em.
  rewrite H in En. congruence.
Qed.

(** Two texts that are cut at their first dash agree on both sides. *)
Lemma first_dash_split t1 : forall t2 r1 r2,
  dashFree t1 -> dashFree t2 ->
  (t1 ++ String "-" r1)%string = (t2 ++ String "-" r2)%string ->
  t1 = t2 /\ r1 = r2.
Proof.
  induction t1 as [|c t1 IH]; intros [|c2 t2] r1 r2 H1 H2 E; simpl in *.
  - injection E as <-. auto.
  - injection E as <- _. destruct H2 as [H2 _]. congruence.
  - injection E as -> _. destruct H1 as [H1 _]. congruence.
  - injection E as <- E. destruct H1 as [_ H1], H2 as [_ H2].
    destruct (IH t2 r1 r2 H1 H2 E) as [-> ->]. auto.
Qed.

Lemma agentId_inj now1 now2 i j :
  agentId now1 i = agentId now2 j -> now1 = now2 /\ i = j.
Proof.
  unfold agentId. intros E. simpl in E. injection E as E.
  apply first_dash_split in E; try apply toString_dashFree.
  destruct E as [E1 E2].
  apply toString_inj in E1. apply toString_inj in E2.
  split; [exact E1|lia].
Qed.

Lemma enrich_id now i item :
  get (enrich now i item) "id" = Some (JStr (agentId (now i) i)).
Proof.
  unfold enrich. simpl. rewrite field_assign_ne by discriminate.
  rewrite field_assign_eq. reflexivity.
Qed.

Lemma enrich_avatarId now i item :
  get (enrich now i item) "avatarId" = Some (JNum (Z.of_nat i + 1)).
Proof. unfold enrich. simpl. rewrite field_assign_eq. reflexivity. Qed.

Lemma enrich_other now i item key :
  key <> "id" -> key <> "avatarId" ->
  get (enrich now i item) key = Some (field key (spread item)).
Proof.
  intros H1 H2. unfold enrich. simpl.
  rewrite !field_assign_ne by congruence. reflexivity.
Qed.

Lemma rolesAttempt_ok engine now response agents :
  rolesAttempt engine now response = Ok agents ->
  exists items,
    agents = imap (enrich now) items
    /\ (response = Ok (Some (JsonOf (JArr items)))
        \/ (items = []
            /\ (response = Ok None
                \/ response = Ok (Some (NotJson EmptyString))))).
Proof.
  unfold rolesAttempt.
  destruct response as [[[raw|data]|]|e]; simpl; try discriminate.
  - unfold isEmpty. destruct (String.eqb_spec raw EmptyString) as [->|Hr];
      simpl; [|discriminate].
    intros [= <-]. exists []. auto.
  - destruct data; try discriminate.
    intros [= <-]. eexists. split; [reflexivity|]. auto.
  - intros [= <-]. exists []. auto.
Qed.

(** X3.  A roster that [generateRolesForTopic] returns has one entry per
    item of the array the backend sent, in order; entry [i] has the id
    [agent-<time>-<i>] and the avatar [i + 1], whatever id or avatar the
    item carried, and every other property of the item unchanged; the
    ids of the roster are pairwise distinct. *)
Theorem generated_roster_identities (engine : Engine) (now : nat -> nat -> N)
    (backend : nat -> outcome jsError (option jsonText)) (random : nat -> Q)
    (agents : list jsval) :
  let r := generateRolesForTopic engine now backend random in
  result r = Ok agents ->
  exists items,
    length agents = length items
    /\ (backend (calls r - 1)%nat = Ok (Some (JsonOf (JArr items)))
        \/ items = [])
    /\ (forall i a, agents !! i = Some a ->
          get a "id" = Some (JStr (agentId (now (calls r - 1)%nat i) i))
          /\ get a "avatarId" = Some (JNum (Z.of_nat i + 1))
          /\ exists item,
               items !! i = Some item
               /\ forall key, key <> "id" -> key <> "avatarId" ->
                    get a key = Some (field key (spread item)))
    /\ (forall i j a b, agents !! i = Some a -> agents !! j = Some b ->
          i <> j -> get a "id" <> get b "id").
Proof.
  intros r. subst r. unfold generateRolesForTopic, callWithRetry.
  rewrite (callWithRetry_from_result
             (fun k => rolesAttempt engine (now k) (backend k)) random).
  simpl. set (k := (calls _ - 1)%nat). intros Hok.
  destruct (rolesAttempt_ok _ _ _ _ Hok) as (items & -> & Hsrc).
  exists items. split; [apply length_imap|]. split; [tauto|].
  assert (Hentry : forall i a,
             imap (enrich (now k)) items !! i = Some a ->
             exists item, items !! i = Some item /\ a = enrich (now k) i item).
  { intros i a Ha. rewrite list_lookup_imap in Ha.
    destruct (items !! i) as [item|]; [|discriminate].
    injection Ha as <-. eauto. }
  split.
  - intros i a Ha. destruct (Hentry i a Ha) as (item & Hi & ->).
    split; [apply enrich_id|]. split; [apply enrich_avatarId|].
    exists item. split; [exact Hi|]. intros key. apply enrich_other.
  - intros i j a b Ha Hb Hij.
    destruct (Hentry i a Ha) as (x & _ & ->).
    destruct (Hentry j b Hb) as (y & _ & ->).
    rewrite !enrich_id. intros E.
    assert (E' : agentId (now k i) i = agentId (now k j) j).
    { remember (agentId (now k i) i) as id1. remember (agentId (now k j) j) as id2.
      congruence. }
    apply agentId_inj in E'. tauto.
Qed.

Lemma generated_roster_identities_witness :
  exists agents,
    result (generateRolesForTopic sampleEngine fixedClock rosterBackend
              halfRandom) = Ok agents
    /\ length agents = 2%nat
    /\ forall i j a b, agents !! i = Some a -> agents !! j = Some b ->
         i <> j -> get a "id" <> get b "id".
Proof.
  eexists. split; [reflexivity|].
  destruct (generated_roster_identities sampleEngine fixedClock rosterBackend
              halfRandom _ eq_refl) as (items & Hlen & _ & _ & Hdistinct).
  split; [reflexivity|exact Hdistinct].
Defined.

Example generated_roster_overrides_identity :
  match result (generateRolesForTopic sampleEngine fixedClock rosterBackend
                  halfRandom) with
  | Ok agents =>
      (fun a => (get a "id", get a "avatarId", get a "name")) <$> agents
  | Throw _ => []
  end
  = [(Some (JStr "agent-1700000000000-0"), Some (JNum 1), Some (JStr "Ada"));
     (Some (JStr "agent-1700000000000-1"), Some (JNum 2), Some (JStr "Ben"))].
Proof. vm_compute. reflexivity. Qed.

(** An item that is a string is spread into its UTF-16 code units:
    one property for a character of the basic plane, whatever the number
    of its bytes, and two for a character beyond it. *)
Example string_item_spreads_code_units :
  length (spread (JStr "é好")) = 2%nat
  /\ field "1" (spread (JStr "é好")) = JStr "好"
  /\ length (spread (JStr "😀")) = 2%nat
  /\ length (spread (JStr "Ada")) = 3%nat.
Proof. repeat split; vm_compute; reflexivity. Qed.

(** After [n <= 3] rate-limit failures, the outcome of attempt [n] is
    the outcome of the call when it is a success or an error of another
    kind. *)
Lemma callWithRetry_after_rate_limits {T} (fn : nat -> outcome jsError T)
    random n :
  (n <= MAX_RETRIES)%nat ->
  (forall i, (i < n)%nat -> exists e, fn i = Throw e /\ isRateLimit e = true) ->
  (forall e, fn n = Throw e -> isRateLimit e = false) ->
  let r := callWithRetry fn random in
  result r = fn n /\ calls r = S n /\ length (waits r) = n.
Proof.
  intros Hn Hbefore Hlast. cbv zeta.
  pose proof (callWithRetry_from_calls fn random MAX_RETRIES 0
                INITIAL_BACKOFF_MS) as Hc.
  pose proof (callWithRetry_from_waits_length fn random MAX_RETRIES 0
                INITIAL_BACKOFF_MS) as Hl.
  pose proof (callWithRetry_from_result fn random MAX_RETRIES 0
                INITIAL_BACKOFF_MS) as Hr.
  pose proof (callWithRetry_from_earlier fn random MAX_RETRIES 0
                INITIAL_BACKOFF_MS) as He.
  pose proof (callWithRetry_from_early_stop fn random MAX_RETRIES 0
                INITIAL_BACKOFF_MS) as Hs.
  cbv zeta in Hl, Hr, Hs. fold (callWithRetry fn random) in *.
  set (r := callWithRetry fn random) in *.
  assert (Hk : (calls r - 1)%nat = n).
  { destruct (Nat.lt_trichotomy (calls r - 1) n) as [Hlt|[Heq|Hgt]];
      [|exact Heq|].
    - destruct (Hbefore _ Hlt) as (e & Ee & Re).
      assert (isRateLimit e = false); [|congruence].
      apply Hs; [unfold MAX_RETRIES in *; lia|exact Ee].
    - destruct (He n Hgt) as (e & Ee & Re). simpl in Ee.
      rewrite (Hlast e Ee) in Re. discriminate. }
  simpl in Hr. rewrite Hk in Hr. split; [exact Hr|]. split; lia.
Qed.

(** X4.  Roster generation is retried: when the backend fails [n <= 3]
    times with a rate-limit error and then sends an array, the call
    succeeds at attempt [n + 1], after [n] waits, with the roster built
    from that array.  A backend error of another kind fails the call at
    once, with that very error and no wait. *)
Theorem roster_generation_retries (engine : Engine) (now : nat -> nat -> N)
    (backend : nat -> outcome jsError (option jsonText)) (random : nat -> Q) :
  (forall n items,
     (n <= MAX_RETRIES)%nat ->
     (forall i, (i < n)%nat ->
        exists e, backend i = Throw e /\ isRateLimit e = true) ->
     backend n = Ok (Some (JsonOf (JArr items))) ->
     let r := generateRolesForTopic engine now backend random in
     result r = Ok (imap (enrich (now n)) items)
     /\ calls r = S n /\ length (waits r) = n)
  /\ (forall e,
        backend 0%nat = Throw e -> isRateLimit e = false ->
        generateRolesForTopic engine now backend random
        = mkRun (Throw e) [] 1).
Proof.
  split.
  - intros n items Hn Hbefore Hok. cbv zeta. unfold generateRolesForTopic.
    destruct (callWithRetry_after_rate_limits
                (fun k => rolesAttempt engine (now k) (backend k)) random n Hn)
      as (Hr & Hc & Hw).
    + intros i Hi. destruct (Hbefore i Hi) as (e & Ee & Re).
      exists e. rewrite Ee. auto.
    + intros e. rewrite Hok. discriminate.
    + rewrite Hr, Hok. auto.
  - intros e He Hr. unfold generateRolesForTopic, callWithRetry. simpl.
    rewrite He. simpl. rewrite Hr. reflexivity.
Qed.

Lemma roster_generation_retries_witness :
  calls (generateRolesForTopic sampleEngine fixedClock rosterBackend
           halfRandom) = 3%nat
  /\ length (waits (generateRolesForTopic sampleEngine fixedClock
                      rosterBackend halfRandom)) = 2%nat.
Proof.
  destruct (roster_generation_retries sampleEngine fixedClock rosterBackend
              halfRandom) as [H _].
  destruct (H 2%nat
              [JObj [("id", JStr "mine"); ("name", JStr "Ada");
                     ("role", JStr "Skeptic"); ("personality", JStr "Dry");
                     ("avatarId", JNum 99)];
               JObj [("name", JStr "Ben"); ("role", JStr "Optimist");
                     ("personality", JStr "Warm")]])
    as (_ & Hc & Hw).
  - unfold MAX_RETRIES. lia.
  - intros i Hi. exists rateLimited.
    destruct i as [|[|i]]; [split; reflexivity|split; reflexivity|lia].
  - reflexivity.
  - split; [exact Hc|exact Hw].
Defined.

(** X5.  When roster generation fails, the error is that of its last
    attempt and nothing of a roster is returned: either the backend call
    threw it, or the backend's text was not JSON, or it was JSON but not
    an array. *)
Theorem roster_generation_failure (engine : Engine) (now : nat -> nat -> N)
    (backend : nat -> outcome jsError (option jsonText)) (random : nat -> Q)
    (e : jsError) :
  let r := generateRolesForTopic engine now backend random in
  result r = Throw e ->
  backend (calls r - 1)%nat = Throw e
  \/ (exists raw, backend (calls r - 1)%nat = Ok (Some (NotJson raw))
                  /\ raw <> EmptyString
                  /\ e = syntaxError engine (NotJson raw))
  \/ (exists data, backend (calls r - 1)%nat = Ok (Some (JsonOf data))
                   /\ (forall items, data <> JArr items)
                   /\ e = typeError engine data).
Proof.
  intros r. subst r. unfold generateRolesForTopic, callWithRetry.
  rewrite (callWithRetry_from_result
             (fun k => rolesAttempt engine (now k) (backend k)) random).
  simpl. set (k := (calls _ - 1)%nat).
  unfold rolesAttempt.
  destruct (backend k) as [[[raw|data]|]|e0]; simpl.
  - unfold isEmpty. destruct (String.eqb_spec raw EmptyString) as [->|Hr];
      simpl; [discriminate|].
    intros [= <-]. right. left. exists raw. auto.
  - destruct data; try (intros [= <-]; right; right; eexists;
                        split; [reflexivity|split; [discriminate|reflexivity]]).
    discriminate.
  - discriminate.
  - intros [= <-]. left. reflexivity.
Qed.

Lemma roster_generation_failure_witness :
  exists data,
    result (generateRolesForTopic sampleEngine fixedClock
              (fun _ => Ok (Some (JsonOf (JObj [("agents", JArr [])]))))
              halfRandom)
    = Throw (typeError sampleEngine data).
Proof.
  destruct (roster_generation_failure sampleEngine fixedClock
              (fun _ => Ok (Some (JsonOf (JObj [("agents", JArr [])]))))
              halfRandom (typeError sampleEngine (JObj [("agents", JArr [])]))
              eq_refl) as [H|[(raw & H & _)|(data & H & _ & He)]].
  - discriminate H.
  - discriminate H.
  - exists data. rewrite <- He. reflexivity.
Defined.

(** ** The speech stream in general, and the prompts *)

Lemma append_empty_r (s : string) : (s ++ EmptyString)%string = s.
Proof.
  induction s as [|c s IH]; [reflexivity|].
  change (String c (s ++ EmptyString)%string = String c s). f_equal. exact IH.
Qed.

Lemma append_assoc (a b c : string) :
  ((a ++ b) ++ c)%string = (a ++ (b ++ c))%string.
Proof.
  induction a as [|x a IH]; [reflexivity|].
  change (String x ((a ++ b) ++ c)%string = String x (a ++ (b ++ c))%string).
  f_equal. exact IH.
Qed.

Lemma utterance_app l1 l2 :
  utterance (l1 ++ l2) = (utterance l1 ++ utterance l2)%string.
Proof.
  induction l1 as [|x l1 IH]; simpl; [reflexivity|].
  rewrite IH, append_assoc. reflexivity.
Qed.

Lemma utterance_chunkFragment text :
  utterance (chunkFragment text) = chunkText text.
Proof.
  destruct text as [t|]; [|reflexivity]. unfold chunkFragment, isEmpty.
  destruct (String.eqb_spec t EmptyString) as [->|Ht]; [reflexivity|].
  apply append_empty_r.
Qed.

Lemma utterance_chunkFragments texts :
  utterance (concat (chunkFragment <$> texts))
  = utterance (chunkText <$> texts).
Proof.
  induction texts as [|x texts IH]; [reflexivity|].
  rewrite !fmap_cons, concat_cons, utterance_app, IH, utterance_chunkFragment.
  reflexivity.
Qed.

Lemma chunkFragments_nonempty texts :
  Forall (fun f => f <> EmptyString) (concat (chunkFragment <$> texts)).
Proof.
  induction texts as [|x texts IH]; [constructor|].
  rewrite fmap_cons, concat_cons. apply Forall_app. split; [|exact IH].
  destruct x as [t|]; [|constructor]. unfold chunkFragment, isEmpty.
  destruct (String.eqb_spec t EmptyString) as [->|Ht]; [constructor|].
  constructor; [exact Ht|constructor].
Qed.

(** X6.  Whatever the backend does, the speech stream completes without
    throwing and every fragment it yields is a non-empty string.  When
    the connection opens, appending the fragments in order gives the
    chunk texts appended in order (a chunk without text contributes
    nothing), followed by the error notice exactly when the stream broke
    off; a stream that ends normally yields no notice. *)
Theorem speech_stream_shape (connect : nat -> outcome jsError connection)
    (random : nat -> Q) :
  let stream := generateAgentSpeechStream connect random in
  completion stream = Ok tt
  /\ Forall (fun fragment => fragment <> EmptyString) (yielded stream)
  /\ (forall conn,
        result (callWithRetry connect random) = Ok conn ->
        utterance (yielded stream)
        = (utterance (chunkText <$> chunkTexts conn)
           ++ match failure conn with
              | Some _ => STREAM_ERROR_NOTICE
              | None => EmptyString
              end)%string
        /\ (failure conn = None ->
            yielded stream = concat (chunkFragment <$> chunkTexts conn))
        /\ (failure conn <> None ->
            last (yielded stream) = Some STREAM_ERROR_NOTICE)).
Proof.
  cbv zeta. unfold generateAgentSpeechStream, speechStreamBody.
  destruct (result (callWithRetry connect random)) as [conn|e]; simpl.
  - destruct (failure conn) as [e|] eqn:Ef; simpl.
    + split; [reflexivity|]. split.
      * apply Forall_app. split; [apply chunkFragments_nonempty|].
        constructor; [discriminate|constructor].
      * intros c [= <-]. rewrite Ef. split; [|split].
        -- rewrite utterance_app, utterance_chunkFragments. simpl.
           reflexivity.
        -- discriminate.
        -- intros _. apply last_snoc.
    + split; [reflexivity|]. split; [apply chunkFragments_nonempty|].
      intros c [= <-]. rewrite Ef. split; [|split].
      * rewrite utterance_chunkFragments, append_empty_r. reflexivity.
      * reflexivity.
      * congruence.
  - split; [reflexivity|]. split; [|discriminate].
    constructor; [discriminate|constructor].
Qed.

Lemma length_sliceLast {A} n (l : list A) :
  length (sliceLast n l) = min n (length l).
Proof. unfold sliceLast. rewrite length_drop. lia. Qed.

Lemma sliceLast_suffix {A} n (l : list A) :
  l = take (length l - n) l ++ sliceLast n l.
Proof. unfold sliceLast. symmetry. apply take_drop. Qed.

(** Removing the agents of one id from a roster of distinct ids removes
    exactly one agent, when the id is there. *)
Lemma filter_other_ids_all (l : list Agent.t) (x : string) :
  x ∉ Agent.id <$> l -> filter (fun a => Agent.id a <> x) l = l.
Proof.
  induction l as [|a l IH]; simpl; [reflexivity|].
  intros Hx. apply not_elem_of_cons in Hx as [Hne Hx].
  rewrite filter_cons_True by congruence. rewrite IH by exact Hx.
  reflexivity.
Qed.

Lemma filter_other_ids_length (l : list Agent.t) (x : string) :
  NoDup (Agent.id <$> l) -> x ∈ Agent.id <$> l ->
  S (length (filter (fun a => Agent.id a <> x) l)) = length l.
Proof.
  induction l as [|a l IH]; simpl; intros Hnd Hx.
  - apply elem_of_nil in Hx. contradiction.
  - apply NoDup_cons in Hnd as [Hnotin Hnd].
    destruct (decide (Agent.id a = x)) as [<-|Hne].
    + rewrite filter_cons_False by (intros H; apply H; reflexivity).
      rewrite filter_other_ids_all by exact Hnotin. reflexivity.
    + rewrite filter_cons_True by exact Hne. simpl.
      apply elem_of_cons in Hx as [Hx|Hx]; [congruence|].
      rewrite IH by assumption. reflexivity.
Qed.

Lemma last_sliceLast {A} n (l : list A) :
  last (sliceLast (S n) l) = last l.
Proof.
  unfold sliceLast. destruct (last l) as [x|] eqn:El.
  - apply last_Some in El as [older ->].
    rewrite length_app. cbn [length].
    rewrite drop_app_le by lia. apply last_snoc.
  - apply last_None in El. subst l. reflexivity.
Qed.

Lemma sliceLast_sliceLast {A} n k (l : list A) :
  (k <= n)%nat ->
  sliceLast n l
  = take (length l - k - (length l - n)) (sliceLast n l) ++ sliceLast k l.
Proof.
  intros Hk. unfold sliceLast.
  rewrite <- (take_drop (length l - k - (length l - n))
                (drop (length l - n) l)) at 1.
  rewrite drop_drop. do 2 f_equal. lia.
Qed.

(** X7.  What the prompts carry of the session.  The thought and the
    speech prompts carry the lines of the last 10 messages of the
    history (of all of them when there are fewer), the phase check
    those of the last 8, a line being [sender: content]; all three end
    with the line of the last message, and the phase check sees a
    suffix of what the thought sees.  The summary and the report carry
    the lines of the [speech] messages, in order, and of no other
    message.  The lines are joined by line feeds.  The other agents of
    the thought prompt are the agents whose id is not the thinking
    agent's, in roster order, each as [name (role)], joined by commas:
    one fewer than the roster when ids are distinct, the whole roster
    when the thinking agent is not in it. *)
Theorem prompt_look_back (history : list Message.t) :
  let line :=
    fun m => (Message.senderName m ++ ": " ++ Message.content m)%string in
  let label :=
    fun a => (Agent.name a ++ " (" ++ Agent.role a ++ ")")%string in
  (recentLines history = line <$> drop (length history - 10) history
   /\ phaseCheckLines history = line <$> drop (length history - 8) history
   /\ speechLines history
      = line <$> filter (fun m => Message.type m = speech) history)
  /\ (length (recentLines history) = min 10 (length history)
      /\ length (phaseCheckLines history) = min 8 (length history)
      /\ ((length history <= 10)%nat ->
          recentLines history = line <$> history)
      /\ last (recentLines history) = line <$> last history
      /\ last (phaseCheckLines history) = line <$> last history
      /\ exists earlier,
           recentLines history = earlier ++ phaseCheckLines history)
  /\ (forall l,
        l ∈ speechLines history
        <-> exists m, m ∈ history /\ Message.type m = speech /\ l = line m)
  /\ (forall a b rest,
        transcript [] = EmptyString
        /\ transcript [a] = a
        /\ transcript (a :: b :: rest)
           = (a ++ newline ++ transcript (b :: rest))%string
        /\ join ", " (a :: b :: rest)
           = (a ++ ", " ++ join ", " (b :: rest))%string)
  /\ (forall agent allAgents,
        otherAgentLabels agent allAgents
        = label <$> filter (fun a => Agent.id a <> Agent.id agent) allAgents
        /\ otherAgents agent allAgents
           = join ", " (otherAgentLabels agent allAgents)
        /\ (NoDup (Agent.id <$> allAgents) -> agent ∈ allAgents ->
            S (length (otherAgentLabels agent allAgents))
            = length allAgents)
        /\ (Agent.id agent ∉ (Agent.id <$> allAgents) ->
            otherAgentLabels agent allAgents = label <$> allAgents)).
Proof.
  cbv zeta.
  split; [repeat split|]. split; [|split; [|split]].
  - split; [unfold recentLines; rewrite length_fmap; apply length_sliceLast|].
    split; [unfold phaseCheckLines; rewrite length_fmap;
            apply length_sliceLast|].
    split.
    { intros Hlen. unfold recentLines, sliceLast.
      replace (length history - 10)%nat with 0%nat by lia. reflexivity. }
    split; [unfold recentLines; rewrite fmap_last, last_sliceLast;
            reflexivity|].
    split; [unfold phaseCheckLines; rewrite fmap_last, last_sliceLast;
            reflexivity|].
    eexists. unfold recentLines, phaseCheckLines.
    rewrite (sliceLast_sliceLast 10 8 history) at 1 by lia.
    rewrite fmap_app. reflexivity.
  - intros l. unfold speechLines. rewrite list_elem_of_fmap.
    split.
    + intros (m & -> & Hm). apply list_elem_of_filter in Hm as [Ht Hm].
      exists m. auto.
    + intros (m & Hm & Ht & ->). exists m. split; [reflexivity|].
      apply list_elem_of_filter. auto.
  - intros a b rest. repeat split.
  - intros agent allAgents. split; [reflexivity|]. split; [reflexivity|].
    split.
    + intros Hnd Hin. unfold otherAgentLabels.
      rewrite length_fmap. apply filter_other_ids_length; [exact Hnd|].
      apply list_elem_of_fmap. exists agent. auto.
    + intros Hout. unfold otherAgentLabels.
      rewrite filter_other_ids_all by exact Hout. reflexivity.
Qed.

Example summary_skips_system_messages :
  speechLines sampleHistory = ["Host / Moderator: Go on"; "Bob: Costs first."].
Proof. reflexivity. Qed.

(** ** The scheduler as a whole *)

Lemma agentTurn_turnCount snap random s :
  turnCount (agentTurn snap random s) = turnCount s.
Proof.
  unfold agentTurn. destruct (last _); [|reflexivity].
  destruct (length _ =? 0)%nat; [reflexivity|].
  destruct (pickSpeaker _ _); reflexivity.
Qed.

Lemma step_user_event s e s' :
  step s e = Some s' ->
  match e with
  | UserTyped text => s' = setInputValue text s
  | UserSubmitted => s' = handleUserMessage s
  | PauseToggled => s' = togglePause s
  | Elapsed ms => s' = elapse ms s
  | _ => True
  end.
Proof.
  unfold step. intros H. destruct e; auto;
    destruct (activation s); try destruct (bool_decide _); congruence.
Qed.

Lemma elapse_turnCount ms s : turnCount (elapse ms s) = turnCount s.
Proof. unfold elapse. destruct (filter _ _); reflexivity. Qed.

Lemma step_counts s e s' :
  step s e = Some s' ->
  (N.of_nat (length (MeetingState.messages (state s'))) + turnCount s
   = N.of_nat (length (MeetingState.messages (state s))) + turnCount s')%N.
Proof.
  intros Hstep. pose proof (step_user_event _ _ _ Hstep) as Hu.
  destruct e as [random|r random| |r|chunk|r|text| | |ms]; try subst s'.
  - unfold step in Hstep.
    assert (s' = s \/ s' = processNextTurn random s) as [->| ->].
    { destruct (activation s); try (injection Hstep as <-; auto);
        destruct (entryGuard s); try discriminate;
        injection Hstep as <-; auto. }
    + reflexivity.
    + unfold processNextTurn. destruct (negb _); [reflexivity|].
      destruct (assistantCheckDue _); [reflexivity|].
      rewrite agentTurn_messages, agentTurn_turnCount. reflexivity.
  - unfold step in Hstep.
    destruct (activation s) as [|snap| | |]; try discriminate.
    injection Hstep as <-. unfold afterPhaseCheck.
    destruct r as [[intervention|]|err];
      try (rewrite agentTurn_messages, agentTurn_turnCount; reflexivity).
    destruct (isEmpty intervention);
      [rewrite agentTurn_messages, agentTurn_turnCount; reflexivity|].
    simpl. rewrite length_app. simpl. lia.
  - unfold step in Hstep. destruct (activation s); try discriminate.
    injection Hstep as <-. reflexivity.
  - unfold step in Hstep. destruct (activation s); try discriminate.
    injection Hstep as <-. unfold afterThought. destruct r; [|reflexivity].
    simpl. rewrite length_app. simpl. lia.
  - unfold step in Hstep. destruct (activation s); try discriminate.
    injection Hstep as <-. unfold onChunk, updateLastMessage. simpl.
    destruct (length _ =? 0)%nat; [reflexivity|].
    simpl. rewrite length_alter. reflexivity.
  - unfold step in Hstep. destruct (activation s); try discriminate.
    injection Hstep as <-. reflexivity.
  - reflexivity.
  - unfold handleUserMessage. destruct (isEmpty _); [reflexivity|].
    simpl. rewrite length_app. simpl. lia.
  - reflexivity.
  - destruct (elapse_shape ms s) as (_ & _ & _ & ->).
    rewrite elapse_turnCount. reflexivity.
Qed.

(** X8.  The turn counter counts the messages appended to the
    transcript: over any run, the transcript grows by exactly as many
    entries as the counter advances, so in a meeting opened by
    [startMeeting] the counter is always the number of entries after the
    welcome message (messages of the user and of the assistant
    included). *)
Theorem turn_counter_counts_appends (evs : list event) :
  (forall s s',
     exec s evs = Some s' ->
     (N.of_nat (length (MeetingState.messages (state s'))) + turnCount s
      = N.of_nat (length (MeetingState.messages (state s))) + turnCount s')%N)
  /\ (forall s0 s',
        MeetingState.agents (state s0) <> [] ->
        exec (startMeeting s0) evs = Some s' ->
        N.of_nat (length (MeetingState.messages (state s')))
        = (turnCount s' + 1)%N).
Proof.
  assert (Hgen : forall s s',
     exec s evs = Some s' ->
     (N.of_nat (length (MeetingState.messages (state s'))) + turnCount s
      = N.of_nat (length (MeetingState.messages (state s))) + turnCount s')%N).
  { induction evs as [|e evs IH]; intros s s' Hx; simpl in Hx.
    - injection Hx as <-. reflexivity.
    - destruct (step s e) as [s1|] eqn:E; [|discriminate].
      pose proof (step_counts _ _ _ E). pose proof (IH _ _ Hx). lia. }
  split; [exact Hgen|].
  intros s0 s' Ha Hx. apply Hgen in Hx.
  unfold startMeeting in Hx.
  destruct (MeetingState.agents (state s0)) as [|a l]; [congruence|].
  simpl in Hx. lia.
Qed.

Lemma turn_counter_counts_appends_witness :
  exists s',
    exec justStarted twoTurnsRun = Some s'
    /\ N.of_nat (length (MeetingState.messages (state s')))
       = (turnCount s' + 1)%N.
Proof.
  eexists. split; [vm_compute; reflexivity|].
  destruct (turn_counter_counts_appends twoTurnsRun) as [_ H].
  apply (H (rosterOf [alice; bob])); [discriminate|].
  vm_compute. reflexivity.
Defined.

(** X9.  Within one meeting at most one turn is in flight.  In every
    state that a settled meeting reaches through timer callbacks, the
    answers to the awaits of a turn, the user's typing, submitting and
    pausing, and the passing of time, a timer callback has a successor:
    with no turn pending it is [processNextTurn] from its entry, and
    with a turn pending it stops at the guard and leaves the whole state
    as it is.  Restarting the session, restoring one or starting a
    meeting are not among these events: they write the generating flag
    or the stage while a turn may be pending, and the property does not
    extend to them (example [restart_reopens_guard]). *)
Theorem pending_turn_blocks_timer (s : Sys) (evs : list event) (s' : Sys)
    (random : Q) :
  settled s ->
  Forall drawInRange evs ->
  exec s evs = Some s' ->
  (activation s' <> NoTurn ->
     entryGuard s' = false
     /\ processNextTurn random s' = s'
     /\ step s' (TurnTimer random) = Some s')
  /\ (activation s' = NoTurn ->
      step s' (TurnTimer random) = Some (processNextTurn random s'))
  /\ (exists s'', step s' (TurnTimer random) = Some s'').
Proof.
  intros Hs Hr Hx.
  destruct (exec_settled evs s s' Hs Hr Hx) as [_ Ha].
  assert (Hpending : activation s' <> NoTurn ->
            entryGuard s' = false
            /\ processNextTurn random s' = s'
            /\ step s' (TurnTimer random) = Some s').
  { intros Hp.
    assert (Hg : MeetingState.isGenerating (state s') = true).
    { destruct (activation s'); [congruence| |auto|auto|auto]. tauto. }
    assert (Hguard : entryGuard s' = false).
    { unfold entryGuard. rewrite Hg. simpl. rewrite andb_false_r.
      reflexivity. }
    split; [exact Hguard|]. split.
    - unfold processNextTurn. rewrite Hguard. reflexivity.
    - unfold step. rewrite Hguard. destruct (activation s'); congruence. }
  assert (Hidle : activation s' = NoTurn ->
            step s' (TurnTimer random) = Some (processNextTurn random s')).
  { intros Hn. unfold step. rewrite Hn. reflexivity. }
  split; [exact Hpending|]. split; [exact Hidle|].
  assert (Hcase : activation s' = NoTurn \/ activation s' <> NoTurn)
    by (destruct (activation s'); [left; reflexivity|right..]; discriminate).
  destruct Hcase as [Hn|Hp].
  - eexists. apply Hidle. exact Hn.
  - exists s'. apply Hpending. exact Hp.
Qed.

Lemma pending_turn_blocks_timer_witness :
  exists s',
    exec justStarted streamingRun = Some s'
    /\ step s' (TurnTimer (1 # 3)) = Some s'.
Proof.
  eexists. split; [vm_compute; reflexivity|].
  edestruct (pending_turn_blocks_timer justStarted streamingRun)
    as (Hpending & _ & _).
  - split; [discriminate|]. split; reflexivity.
  - repeat constructor; discriminate.
  - vm_compute. reflexivity.
  - apply Hpending. discriminate.
Defined.

(** Outside that scope the guard can pass while a turn is pending.
    After a restart during a turn, a new roster and a new meeting, the
    generating flag is down and the stage is the meeting again while the
    old turn still awaits its thought: the next timer callback passes
    the guard.  The code then runs a second turn beside the first one,
    which the single pending turn of [Sys] does not represent. *)
Example restart_reopens_guard :
  activation restartedWhilePending
  = AwaitThought (state justStarted) bob
  /\ entryGuard restartedWhilePending = true
  /\ ~ settled restartedWhilePending.
Proof.
  split; [reflexivity|]. split; [reflexivity|].
  intros [_ H]. discriminate H.
Qed.

(** X10.  Only a turn lowers the generating flag.  From a state in
    which the flag is set while no turn is pending, no run of timer
    callbacks, user messages, pause toggles and elapsed time ever starts
    a turn or lowers the flag: the meeting stays silent. *)
Theorem stale_generating_flag_blocks_turns (s : Sys) (evs : list event)
    (s' : Sys) :
  MeetingState.isGenerating (state s) = true ->
  activation s = NoTurn ->
  exec s evs = Some s' ->
  MeetingState.isGenerating (state s') = true
  /\ activation s' = NoTurn
  /\ thinkingAgentId s' = thinkingAgentId s
  /\ forall m, m ∈ MeetingState.messages (state s') ->
       m ∈ MeetingState.messages (state s) \/ Message.senderId m = "user".
Proof.
  revert s. induction evs as [|e evs IH]; intros s Hg Hn Hx; simpl in Hx.
  - injection Hx as <-. auto.
  - destruct (step s e) as [s1|] eqn:E; [|discriminate].
    assert (H1 : MeetingState.isGenerating (state s1) = true
                 /\ activation s1 = NoTurn
                 /\ thinkingAgentId s1 = thinkingAgentId s
                 /\ forall m, m ∈ MeetingState.messages (state s1) ->
                      m ∈ MeetingState.messages (state s)
                      \/ Message.senderId m = "user").
    { pose proof (step_user_event _ _ _ E) as Hu.
      destruct e as [random|r random| |r|chunk|r|text| | |ms];
        try (unfold step in E; rewrite Hn in E; discriminate);
        try subst s1.
      - unfold step in E. rewrite Hn in E. injection E as <-.
        unfold processNextTurn, entryGuard. rewrite Hg. simpl.
        rewrite andb_false_r. simpl. auto.
      - simpl. auto.
      - destruct (handleUserMessage_shape s) as (E1 & E2 & E3 & _).
        rewrite E1, E2, E3. repeat split; auto.
        unfold handleUserMessage. destruct (isEmpty _); [auto|].
        simpl. intros m Hm. apply elem_of_app in Hm as [Hm|Hm]; [auto|].
        apply list_elem_of_singleton in Hm. subst m. auto.
      - simpl. auto.
      - destruct (elapse_shape ms s) as (E1 & E2 & E3 & E4).
        rewrite E1, E2, E3, E4. auto. }
    destruct H1 as (Hg1 & Hn1 & Ht1 & Hm1).
    destruct (IH s1 Hg1 Hn1 Hx) as (Hg' & Hn' & Ht' & Hm').
    repeat split; auto; [congruence|].
    intros m Hm. destruct (Hm' m Hm) as [H|H]; auto.
Qed.

Lemma stale_generating_flag_blocks_turns_witness :
  exists s',
    exec flagLeftSet [Elapsed 2000; TurnTimer (1 # 2); UserTyped "Hello?";
                      UserSubmitted; Elapsed 2000; TurnTimer (1 # 2)]
    = Some s'
    /\ MeetingState.isGenerating (state s') = true
    /\ activation s' = NoTurn.
Proof.
  eexists. split; [vm_compute; reflexivity|].
  edestruct (stale_generating_flag_blocks_turns flagLeftSet
               [Elapsed 2000; TurnTimer (1 # 2); UserTyped "Hello?";
                UserSubmitted; Elapsed 2000; TurnTimer (1 # 2)])
    as (Hg & Hn & _);
    [reflexivity|reflexivity|vm_compute; reflexivity|].
  split; [exact Hg|exact Hn].
Defined.

Lemma withContent_withContent m a b :
  Message.withContent (Message.withContent m a) b = Message.withContent m b.
Proof. reflexivity. Qed.

Lemma snoc_or_nil {A} (l : list A) :
  l = [] \/ exists older x, l = older ++ [x].
Proof.
  destruct (last l) as [x|] eqn:El.
  - apply last_Some in El as [older ->]. eauto.
  - apply last_None in El. auto.
Qed.

Lemma updateLastMessage_state content s older m :
  MeetingState.messages (state s) = older ++ [m] ->
  state (updateLastMessage content s)
  = MeetingState.withMessages (state s)
      (older ++ [Message.withContent m content]).
Proof.
  intros Hm. unfold updateLastMessage. simpl. rewrite Hm.
  rewrite length_app. cbn [length].
  destruct (length older + 1 =? 0)%nat eqn:E;
    [apply Nat.eqb_eq in E; lia|].
  replace (length older + 1 - 1)%nat with (length older + 0)%nat by lia.
  rewrite alter_app_r. reflexivity.
Qed.

Lemma updateLastMessage_empty content s :
  MeetingState.messages (state s) = [] -> updateLastMessage content s = s.
Proof.
  intros Hm. unfold updateLastMessage, setState. rewrite Hm. simpl.
  destruct s. reflexivity.
Qed.

Lemma updateLastMessage_frame content s :
  stage (updateLastMessage content s) = stage s
  /\ inputValue (updateLastMessage content s) = inputValue s
  /\ thinkingAgentId (updateLastMessage content s) = thinkingAgentId s
  /\ isSummaryOpen (updateLastMessage content s) = isSummaryOpen s
  /\ turnCount (updateLastMessage content s) = turnCount s
  /\ clock (updateLastMessage content s) = clock s
  /\ resumeTimers (updateLastMessage content s) = resumeTimers s
  /\ activation (updateLastMessage content s) = activation s.
Proof. repeat split. Qed.

Lemma Sys_ext (s1 s2 : Sys) :
  stage s1 = stage s2 -> state s1 = state s2 ->
  inputValue s1 = inputValue s2 -> thinkingAgentId s1 = thinkingAgentId s2 ->
  isSummaryOpen s1 = isSummaryOpen s2 -> turnCount s1 = turnCount s2 ->
  clock s1 = clock s2 -> resumeTimers s1 = resumeTimers s2 ->
  activation s1 = activation s2 -> s1 = s2.
Proof. destruct s1, s2. simpl. intros; subst; reflexivity. Qed.

(** X11.  Writing the stream to the transcript is last-write-wins on
    the last entry: on an empty transcript it does nothing; otherwise it
    replaces the content of the last entry and nothing else (the id, the
    sender, the thought, the time and the kind of that entry, every
    earlier entry and the number of entries are kept), and a second
    write makes the first one unobservable. *)
Theorem updateLastMessage_last_write_wins (s : Sys) (a b : string) :
  (MeetingState.messages (state s) = [] -> updateLastMessage a s = s)
  /\ (forall older m,
        MeetingState.messages (state s) = older ++ [m] ->
        MeetingState.messages (state (updateLastMessage a s))
        = older ++ [Message.mk (Message.id m) (Message.senderId m)
                      (Message.senderName m) a (Message.thought m)
                      (Message.timestamp m) (Message.type m)])
  /\ updateLastMessage b (updateLastMessage a s) = updateLastMessage b s
  /\ turnCount (updateLastMessage a s) = turnCount s
  /\ length (MeetingState.messages (state (updateLastMessage a s)))
     = length (MeetingState.messages (state s)).
Proof.
  split; [|split; [|split; [|split]]].
  - apply updateLastMessage_empty.
  - intros older m Hm. apply updateLastMessage_snoc. exact Hm.
  - destruct (snoc_or_nil (MeetingState.messages (state s)))
      as [Hm|(older & m & Hm)].
    + rewrite (updateLastMessage_empty a s Hm). reflexivity.
    + apply Sys_ext; try reflexivity.
      pose proof (updateLastMessage_state a s older m Hm) as Ha.
      rewrite (updateLastMessage_state b s older m Hm).
      rewrite (updateLastMessage_state b (updateLastMessage a s) older
                 (Message.withContent m a)); [rewrite Ha; reflexivity|].
      rewrite Ha. reflexivity.
  - reflexivity.
  - unfold updateLastMessage. simpl.
    destruct (length _ =? 0)%nat; [reflexivity|].
    simpl. apply length_alter.
Qed.

(** X12.  While a speech streams and nothing else is appended, the
    message the turn appended holds, after every fragment, the
    fragments received so far appended in order; the transcript keeps
    its length and the turn counter its value. *)
Theorem stream_builds_last_message (fragments : list string) :
  forall s snap nextSpeaker fullContent older m,
    activation s = AwaitChunk snap nextSpeaker fullContent ->
    MeetingState.messages (state s) = older ++ [m] ->
    Message.content m = fullContent ->
    exists s',
      exec s (StreamYielded <$> fragments) = Some s'
      /\ MeetingState.messages (state s')
         = older ++ [Message.withContent m
                       (fullContent ++ utterance fragments)%string]
      /\ activation s'
         = AwaitChunk snap nextSpeaker
             (fullContent ++ utterance fragments)%string
      /\ turnCount s' = turnCount s.
Proof.
  induction fragments as [|chunk fragments IH];
    intros s snap sp full older m Ha Hm Hc.
  - exists s. simpl. rewrite append_empty_r. repeat split; auto.
    rewrite Hm. f_equal. f_equal. destruct m. simpl in *. subst. reflexivity.
  - rewrite fmap_cons. cbn [exec].
    assert (Hstep : step s (StreamYielded chunk)
                    = Some (onChunk snap sp full chunk s)).
    { unfold step. rewrite Ha. reflexivity. }
    rewrite Hstep.
    destruct (IH (onChunk snap sp full chunk s) snap sp
                (full ++ chunk)%string older
                (Message.withContent m (full ++ chunk)%string))
      as (s' & Hx & Hm' & Ha' & Ht').
    + reflexivity.
    + unfold onChunk. simpl. apply updateLastMessage_snoc. exact Hm.
    + reflexivity.
    + exists s'. split; [exact Hx|].
      rewrite withContent_withContent, append_assoc in Hm'.
      rewrite append_assoc in Ha'.
      repeat split; auto.
Qed.

Lemma stream_builds_last_message_witness :
  exists s',
    exec thoughtAwaited
      [ThoughtSettled (Ok "Costs first."); StreamYielded "I think ";
       StreamYielded "costs "; StreamYielded "matter."] = Some s'
    /\ (Message.content <$> last (MeetingState.messages (state s')))
       = Some "I think costs matter.".
Proof.
  destruct (stream_builds_last_message ["I think "; "costs "; "matter."]
              (afterThought (state justStarted) bob (Ok "Costs first.")
                 thoughtAwaited)
              (state justStarted) bob EmptyString
              (MeetingState.messages (state thoughtAwaited))
              (placeholderMessage bob "Costs first." (clock thoughtAwaited))
              eq_refl eq_refl eq_refl) as (s' & Hx & Hm & _).
  exists s'. split; [exact Hx|]. rewrite Hm, last_snoc. reflexivity.
Defined.

Lemma finishTurn_from_chunk (rs : Responses) : forall chunks fuel s,
  (exists snap sp full, activation s = AwaitChunk snap sp full) ->
  (1 + length chunks <= fuel)%nat ->
  exists s', finishTurn fuel rs chunks s = Some s'
             /\ activation s' = NoTurn
             /\ length (MeetingState.messages (state s'))
                = length (MeetingState.messages (state s)).
Proof.
  induction chunks as [|chunk chunks IH]; intros fuel s (snap & sp & full & Ha)
    Hfuel; (destruct fuel as [|fuel]; [simpl in Hfuel; lia|]).
  - simpl. rewrite Ha.
    assert (Hstep : step s (StreamClosed (closing rs)) = Some (turnCleanup s)).
    { unfold step. rewrite Ha. reflexivity. }
    rewrite Hstep. simpl. exists (turnCleanup s).
    destruct fuel; simpl; auto.
  - simpl. rewrite Ha.
    assert (Hstep : step s (StreamYielded chunk)
                    = Some (onChunk snap sp full chunk s)).
    { unfold step. rewrite Ha. reflexivity. }
    rewrite Hstep. simpl.
    destruct (IH fuel (onChunk snap sp full chunk s)) as (s' & Hf & Hn & Hl).
    + eexists _, _, _. reflexivity.
    + simpl in Hfuel. lia.
    + exists s'. split; [exact Hf|]. split; [exact Hn|].
      rewrite Hl. unfold onChunk, updateLastMessage. simpl.
      destruct (length _ =? 0)%nat; [reflexivity|].
      simpl. apply length_alter.
Qed.

Lemma finishTurn_from_settle (rs : Responses) chunks fuel s snap sp :
  activation s = AwaitSettle snap sp ->
  (3 + length chunks <= fuel)%nat ->
  exists s', finishTurn fuel rs chunks s = Some s'
             /\ activation s' = NoTurn
             /\ ((exists thought, thoughtResult rs = Ok thought
                  /\ length (MeetingState.messages (state s'))
                     = S (length (MeetingState.messages (state s))))
                 \/ (exists e, thoughtResult rs = Throw e
                     /\ length (MeetingState.messages (state s'))
                        = length (MeetingState.messages (state s)))).
Proof.
  intros Ha Hfuel.
  destruct fuel as [|[|fuel]]; try lia.
  cbn [finishTurn]. rewrite Ha.
  assert (Hstep : step s SettleElapsed
                  = Some (setActivation (AwaitThought snap sp) s)).
  { unfold step. rewrite Ha. reflexivity. }
  rewrite Hstep. cbn [mbind option_bind activation setActivation].
  assert (Hstep2 : step (setActivation (AwaitThought snap sp) s)
                     (ThoughtSettled (thoughtResult rs))
                   = Some (afterThought snap sp (thoughtResult rs)
                             (setActivation (AwaitThought snap sp) s))).
  { reflexivity. }
  rewrite Hstep2. cbn [mbind option_bind].
  unfold afterThought. destruct (thoughtResult rs) as [thought|e].
  - destruct (finishTurn_from_chunk rs chunks fuel
                (setActivation (AwaitChunk snap sp EmptyString)
                   (addMessage (placeholderMessage sp thought
                      (clock (setActivation (AwaitThought snap sp) s)))
                      (setActivation (AwaitThought snap sp) s))))
      as (s' & Hf & Hn & Hl).
    + eexists _, _, _. reflexivity.
    + lia.
    + exists s'. split; [exact Hf|]. split; [exact Hn|]. left.
      exists thought. split; [reflexivity|].
      rewrite Hl. simpl. rewrite length_app. simpl. lia.
  - exists (turnCleanup (setActivation (AwaitThought snap sp) s)).
    split; [destruct fuel; reflexivity|]. split; [reflexivity|].
    right. exists e. split; reflexivity.
Qed.

Lemma finishTurn_phase fuel rs chunks s snap :
  activation s = AwaitPhaseCheck snap ->
  finishTurn (S fuel) rs chunks s
  = step s (PhaseCheckSettled (phaseResult rs) (speakerDraw rs))
    ≫= finishTurn fuel rs chunks.
Proof. intros H. simpl. rewrite H. reflexivity. Qed.

Lemma finishTurn_idle fuel rs chunks s :
  activation s = NoTurn -> finishTurn fuel rs chunks s = Some s.
Proof. intros H. destruct fuel; simpl; rewrite H; reflexivity. Qed.

(** X13.  A turn adds at most one message.  From a settled idle
    meeting, a timer callback that passes the guard followed by the
    answers to its awaits ends with exactly one more transcript entry,
    except when no intervention was made and the thought call threw, in
    which case the transcript has the length it had. *)
Theorem one_message_per_turn (s : Sys) (random : Q) (rs : Responses) :
  settled s ->
  activation s = NoTurn ->
  entryGuard s = true ->
  unitInterval random ->
  unitInterval (speakerDraw rs) ->
  exists s',
    finishTurn (4 + length (fragments rs)) rs (fragments rs)
      (processNextTurn random s) = Some s'
    /\ activation s' = NoTurn
    /\ (length (MeetingState.messages (state s'))
        = S (length (MeetingState.messages (state s)))
        \/ (length (MeetingState.messages (state s'))
            = length (MeetingState.messages (state s))
            /\ exists e, thoughtResult rs = Throw e)).
Proof.
  intros [Hm _] Hn Hg Hr Hd.
  pose proof (entryGuard_true s Hg) as (_ & _ & _ & Hag & _).
  set (s1 := setState (fun prev => MeetingState.withIsGenerating prev true) s).
  assert (Hsettle : forall s0,
            MeetingState.messages (state s0) = MeetingState.messages (state s) ->
            forall draw, unitInterval draw ->
            forall fuel, (3 + length (fragments rs) <= fuel)%nat ->
            exists s',
              finishTurn fuel rs (fragments rs) (agentTurn (state s) draw s0)
              = Some s'
              /\ activation s' = NoTurn
              /\ (length (MeetingState.messages (state s'))
                  = S (length (MeetingState.messages (state s)))
                  \/ (length (MeetingState.messages (state s'))
                      = length (MeetingState.messages (state s))
                      /\ exists e, thoughtResult rs = Throw e))).
  { intros s0 Hs0 draw Hdraw fuel Hfuel.
    destruct (agentTurn_selects (state s) draw s0 Hm Hag Hdraw)
      as (lm & sp & _ & _ & Eturn).
    rewrite Eturn.
    destruct (finishTurn_from_settle rs (fragments rs) fuel
                (setActivation (AwaitSettle (state s) sp)
                   (setThinkingAgentId (Some (Agent.id sp)) s0))
                (state s) sp eq_refl Hfuel)
      as (s' & Hf & Hn' & Hlen).
    exists s'. split; [exact Hf|]. split; [exact Hn'|].
    simpl in Hlen. rewrite Hs0 in Hlen.
    destruct Hlen as [(th & _ & Hl)|(e & He & Hl)]; [left; exact Hl|].
    right. split; [exact Hl|]. exists e. exact He. }
  unfold processNextTurn. rewrite Hg. simpl negb. cbv iota.
  fold s1. destruct (assistantCheckDue s1) eqn:Edue.
  - (* the phase check comes first *)
    change (4 + length (fragments rs))%nat
      with (S (3 + length (fragments rs))).
    rewrite (finishTurn_phase _ rs (fragments rs)
               (setActivation (AwaitPhaseCheck (state s)) s1) (state s)
               eq_refl).
    assert (Hstep : step (setActivation (AwaitPhaseCheck (state s)) s1)
                      (PhaseCheckSettled (phaseResult rs) (speakerDraw rs))
                    = Some (afterPhaseCheck (state s) (phaseResult rs)
                              (speakerDraw rs)
                              (setActivation (AwaitPhaseCheck (state s)) s1))).
    { reflexivity. }
    rewrite Hstep. cbn [mbind option_bind].
    unfold afterPhaseCheck.
    destruct (phaseResult rs) as [[intervention|]|err];
      try (apply Hsettle; [reflexivity|exact Hd|lia]).
    destruct (isEmpty intervention);
      [apply Hsettle; [reflexivity|exact Hd|lia]|].
    eexists. split; [apply finishTurn_idle; reflexivity|].
    split; [reflexivity|]. left.
    simpl. rewrite length_app. simpl. lia.
  - apply Hsettle; [reflexivity|exact Hr|lia].
Qed.

Lemma one_message_per_turn_witness :
  exists s',
    finishTurn (4 + length (fragments sampleResponses)) sampleResponses
      (fragments sampleResponses) (processNextTurn (1 # 2) justStarted)
    = Some s'
    /\ length (MeetingState.messages (state s')) = 2%nat.
Proof.
  destruct (one_message_per_turn justStarted (1 # 2) sampleResponses)
    as (s' & Hf & _ & [Hl|[_ [e He]]]).
  - split; [discriminate|]. split; reflexivity.
  - reflexivity.
  - reflexivity.
  - split; [discriminate|reflexivity].
  - split; [discriminate|reflexivity].
  - exists s'. split; [exact Hf|exact Hl].
  - discriminate He.
Defined.

Lemma exec_outside_meeting (s : Sys) (evs : list event) (s' : Sys) :
  stage s <> meetingStage ->
  activation s = NoTurn ->
  exec s evs = Some s' ->
  stage s' = stage s
  /\ activation s' = NoTurn
  /\ MeetingState.messages (state s') = MeetingState.messages (state s)
  /\ MeetingState.agents (state s') = MeetingState.agents (state s)
  /\ MeetingState.isGenerating (state s')
     = MeetingState.isGenerating (state s)
  /\ thinkingAgentId s' = thinkingAgentId s
  /\ turnCount s' = turnCount s.
Proof.
  revert s. induction evs as [|e evs IH]; intros s Hst Hn Hx; simpl in Hx.
  - injection Hx as <-. repeat split; auto.
  - destruct (step s e) as [s1|] eqn:E; [|discriminate].
    assert (H1 : stage s1 = stage s /\ activation s1 = NoTurn
                 /\ MeetingState.messages (state s1)
                    = MeetingState.messages (state s)
                 /\ MeetingState.agents (state s1)
                    = MeetingState.agents (state s)
                 /\ MeetingState.isGenerating (state s1)
                    = MeetingState.isGenerating (state s)
                 /\ thinkingAgentId s1 = thinkingAgentId s
                 /\ turnCount s1 = turnCount s).
    { unfold step in E. rewrite Hn in E.
      destruct e as [random|r random| |r|chunk|r|text| | |ms];
        try discriminate;
        try (rewrite bool_decide_eq_false_2 in E by exact Hst; discriminate).
      - injection E as <-. unfold processNextTurn, entryGuard.
        rewrite (bool_decide_eq_false_2 _ Hst). simpl.
        rewrite !andb_false_r. simpl. repeat split; auto.
      - injection E as <-. unfold elapse.
        destruct (filter _ _); simpl; repeat split; auto. }
    destruct H1 as (E1 & E2 & E3 & E4 & E5 & E6 & E7).
    destruct (IH s1) as (F1 & F2 & F3 & F4 & F5 & F6 & F7);
      [congruence|exact E2|exact Hx|].
    repeat split; congruence.
Qed.

(** X14.  Outside the meeting stage the scheduler is inert: with no
    turn pending, no timer callback and no passing of time starts a
    turn, appends a message, moves the turn counter or changes the
    stage, the roster or the generating flag. *)
Theorem scheduler_inert_outside_meeting (s : Sys) (evs : list event)
    (s' : Sys) :
  stage s <> meetingStage ->
  activation s = NoTurn ->
  exec s evs = Some s' ->
  stage s' = stage s
  /\ activation s' = NoTurn
  /\ MeetingState.messages (state s') = MeetingState.messages (state s)
  /\ MeetingState.agents (state s') = MeetingState.agents (state s)
  /\ MeetingState.isGenerating (state s')
     = MeetingState.isGenerating (state s)
  /\ thinkingAgentId s' = thinkingAgentId s
  /\ turnCount s' = turnCount s.
Proof. apply exec_outside_meeting. Qed.

Lemma scheduler_inert_outside_meeting_witness :
  exists s',
    exec (rosterOf [alice; bob]) [Elapsed 2000; TurnTimer (1 # 2);
                                  Elapsed 5000; TurnTimer (1 # 3)] = Some s'
    /\ activation s' = NoTurn
    /\ MeetingState.messages (state s') = [].
Proof.
  eexists. split; [vm_compute; reflexivity|].
  edestruct (scheduler_inert_outside_meeting (rosterOf [alice; bob])
               [Elapsed 2000; TurnTimer (1 # 2); Elapsed 5000;
                TurnTimer (1 # 3)])
    as (_ & Hn & Hm & _);
    [discriminate|reflexivity|vm_compute; reflexivity|].
  split; [exact Hn|exact Hm].
Defined.

(** X15.  A pause holds: while the active flag is off, no resume timer
    is armed and no turn is pending, timer callbacks, elapsed time and
    typing start no turn and leave the transcript, the flags and the
    turn counter as they are; only the pause button or a submitted
    message ends it. *)
Theorem pause_holds (s : Sys) (evs : list event) (s' : Sys) :
  MeetingState.isActive (state s) = false ->
  resumeTimers s = [] ->
  activation s = NoTurn ->
  Forall passive evs ->
  exec s evs = Some s' ->
  state s' = state s
  /\ activation s' = NoTurn
  /\ resumeTimers s' = []
  /\ turnCount s' = turnCount s
  /\ thinkingAgentId s' = thinkingAgentId s.
Proof.
  revert s. induction evs as [|e evs IH]; intros s Hp Ht Hn Hev Hx;
    simpl in Hx.
  - injection Hx as <-. repeat split; auto.
  - destruct (step s e) as [s1|] eqn:E; [|discriminate].
    apply Forall_cons in Hev as [He Hev].
    assert (H1 : state s1 = state s /\ activation s1 = NoTurn
                 /\ resumeTimers s1 = [] /\ turnCount s1 = turnCount s
                 /\ thinkingAgentId s1 = thinkingAgentId s).
    { pose proof (step_user_event _ _ _ E) as Hu.
      destruct e as [random|r random| |r|chunk|r|text| | |ms];
        try contradiction; try subst s1.
      - unfold step in E. rewrite Hn in E. injection E as <-.
        unfold processNextTurn, entryGuard. rewrite Hp. simpl.
        repeat split; auto.
      - simpl. repeat split; auto.
      - unfold elapse. rewrite Ht. simpl. repeat split; auto. }
    destruct H1 as (E1 & E2 & E3 & E4 & E5).
    destruct (IH s1) as (F1 & F2 & F3 & F4 & F5); auto;
      [congruence|].
    repeat split; congruence.
Qed.

Lemma pause_holds_witness :
  exists s',
    exec pausedMeeting [Elapsed 2000; TurnTimer (1 # 2); UserTyped "Hm";
                        Elapsed 60000; TurnTimer (1 # 3)] = Some s'
    /\ state s' = state pausedMeeting
    /\ activation s' = NoTurn.
Proof.
  eexists. split; [vm_compute; reflexivity|].
  edestruct (pause_holds pausedMeeting
               [Elapsed 2000; TurnTimer (1 # 2); UserTyped "Hm";
                Elapsed 60000; TurnTimer (1 # 3)])
    as (Hs & Hn & _);
    [reflexivity|reflexivity|reflexivity|repeat constructor
    |vm_compute; reflexivity|].
  split; [exact Hs|exact Hn].
Defined.

(** ** Editing the roster *)

Lemma NoDup_ids_filter (P : Agent.t -> Prop) `{forall a, Decision (P a)}
    (l : list Agent.t) :
  NoDup (Agent.id <$> l) -> NoDup (Agent.id <$> filter P l).
Proof.
  induction l as [|a l IH]; simpl; [auto|].
  intros Hnd. apply NoDup_cons in Hnd as [Hnotin Hnd].
  destruct (decide (P a)).
  - rewrite filter_cons_True by assumption. simpl.
    apply NoDup_cons. split; [|auto].
    intros Hin. apply Hnotin.
    apply list_elem_of_fmap in Hin as (b & Hb & Hin).
    apply list_elem_of_filter in Hin as [_ Hin].
    apply list_elem_of_fmap. eauto.
  - rewrite filter_cons_False by assumption. auto.
Qed.

(** X16.  [removeAgent] removes the agents of the given id and no other:
    the roster keeps its order and all agents of other ids, the rest of
    the session is untouched, an id that is not in the roster changes
    nothing, and in a roster of distinct ids exactly one agent goes. *)
Theorem removeAgent_removes_by_id (id : string) (s : Sys) :
  let agents := MeetingState.agents (state s) in
  let agents' := MeetingState.agents (state (removeAgent id s)) in
  (forall a, a ∈ agents' <-> a ∈ agents /\ Agent.id a <> id)
  /\ (id ∉ (Agent.id <$> agents'))
  /\ (agents' `sublist_of` agents)
  /\ (id ∉ (Agent.id <$> agents) -> agents' = agents)
  /\ (NoDup (Agent.id <$> agents) ->
      NoDup (Agent.id <$> agents')
      /\ (id ∈ (Agent.id <$> agents) ->
          S (length agents') = length agents))
  /\ MeetingState.messages (state (removeAgent id s))
     = MeetingState.messages (state s)
  /\ MeetingState.topic (state (removeAgent id s))
     = MeetingState.topic (state s)
  /\ stage (removeAgent id s) = stage s.
Proof.
  cbv zeta. unfold removeAgent. simpl.
  split; [|split; [|split; [|split; [|split]]]].
  - intros a. rewrite list_elem_of_filter. tauto.
  - intros Hin. apply list_elem_of_fmap in Hin as (a & Ha & Hin).
    apply list_elem_of_filter in Hin as [Hne _]. congruence.
  - apply sublist_filter.
  - apply filter_other_ids_all.
  - intros Hnd. split; [apply NoDup_ids_filter; exact Hnd|].
    apply filter_other_ids_length. exact Hnd.
  - auto.
Qed.

Lemma updateAgent_ids id f value (l : list Agent.t) :
  Agent.id <$> ((fun a => if bool_decide (Agent.id a = id)
                          then withField a f value else a) <$> l)
  = Agent.id <$> l.
Proof.
  rewrite <- list_fmap_compose. apply list_fmap_ext.
  intros i a _. simpl. destruct (bool_decide _); [|reflexivity].
  destruct f; reflexivity.
Qed.

(** X17.  [updateAgent] edits in place: the roster keeps its length and
    order, every id and every avatar; agents of another id are
    unchanged, agents of the given id get the new value in the chosen
    field only; editing again on the same field overwrites, and edits to
    different fields do not depend on their order. *)
Theorem updateAgent_edits_in_place (id : string) (f : AgentField)
    (value : string) (s : Sys) :
  let agents := MeetingState.agents (state s) in
  let agents' := MeetingState.agents (state (updateAgent id f value s)) in
  Agent.id <$> agents' = Agent.id <$> agents
  /\ Agent.avatarId <$> agents' = Agent.avatarId <$> agents
  /\ (forall i a, agents !! i = Some a ->
        agents' !! i
        = Some (if bool_decide (Agent.id a = id) then withField a f value
                else a))
  /\ (forall value',
        updateAgent id f value' (updateAgent id f value s)
        = updateAgent id f value' s)
  /\ (forall g value',
        g <> f ->
        updateAgent id g value' (updateAgent id f value s)
        = updateAgent id f value (updateAgent id g value' s))
  /\ MeetingState.messages (state (updateAgent id f value s))
     = MeetingState.messages (state s).
Proof.
  cbv zeta. unfold updateAgent. simpl.
  split; [apply updateAgent_ids|]. split; [|split; [|split; [|split]]].
  - rewrite <- list_fmap_compose. apply list_fmap_ext.
    intros i a _. simpl. destruct (bool_decide _); [|reflexivity].
    destruct f; reflexivity.
  - intros i a Ha. rewrite list_lookup_fmap, Ha. reflexivity.
  - intros value'. unfold setState. simpl. f_equal.
    unfold withAgents. simpl. f_equal.
    rewrite <- list_fmap_compose. apply list_fmap_ext.
    intros i a _. simpl.
    destruct (bool_decide (Agent.id a = id)) eqn:E.
    + assert (Agent.id (withField a f value) = Agent.id a) as ->
        by (destruct f; reflexivity).
      rewrite E. destruct f; reflexivity.
    + rewrite E. reflexivity.
  - intros g value' Hg. unfold setState. simpl. f_equal.
    unfold withAgents. simpl. f_equal.
    rewrite <- !list_fmap_compose. apply list_fmap_ext.
    intros i a _. simpl.
    destruct (bool_decide (Agent.id a = id)) eqn:E.
    + assert (Agent.id (withField a f value) = Agent.id a) as ->
        by (destruct f; reflexivity).
      assert (Agent.id (withField a g value') = Agent.id a) as ->
        by (destruct g; reflexivity).
      rewrite E. destruct f, g; try reflexivity; congruence.
    + rewrite !E. reflexivity.
  - reflexivity.
Qed.

Lemma avatar_draw_range (random : Q) :
  unitInterval random -> (0 <= Qfloor (random * 100) < 100)%Z.
Proof.
  intros [Hlo Hhi]. split.
  - change 0%Z with (Qfloor 0). apply Qfloor_resp_le.
    apply Qmult_le_0_compat; [exact Hlo|discriminate].
  - rewrite Zlt_Qlt.
    apply Qle_lt_trans with (random * 100)%Q; [apply Qfloor_le|].
    change (inject_Z 100) with (100)%Q. lra.
Qed.

(** X18.  [handleAddAgent] appends one agent with the id
    [agent-<time>], the default texts of the current language and an
    avatar in [0, 100); the earlier agents are kept in place.  Removing
    the added id leaves the earlier roster minus its agents of that id,
    which is the earlier roster when the id is new; and with at least
    one agent before, the Start Meeting button is enabled after the
    addition. *)
Theorem handleAddAgent_appends (random : Q) (s : Sys) :
  unitInterval random ->
  let agents := MeetingState.agents (state s) in
  let agents' := MeetingState.agents (state (handleAddAgent random s)) in
  (exists newAgent,
     agents' = agents ++ [newAgent]
     /\ Agent.id newAgent = addedId s
     /\ Agent.name newAgent
        = newParticipantName (MeetingState.language (state s))
     /\ (0 <= Agent.avatarId newAgent < 100)%Z)
  /\ MeetingState.agents (state (removeAgent (addedId s)
                                   (handleAddAgent random s)))
     = filter (fun a => Agent.id a <> addedId s) agents
  /\ (addedId s ∉ (Agent.id <$> agents) ->
      MeetingState.agents (state (removeAgent (addedId s)
                                    (handleAddAgent random s)))
      = agents)
  /\ ((1 <= length agents)%nat ->
      startMeetingDisabled (handleAddAgent random s) = false).
Proof.
  intros [Hlo Hhi]. cbv zeta.
  assert (Hremove :
    MeetingState.agents (state (removeAgent (addedId s)
                                  (handleAddAgent random s)))
    = filter (fun a => Agent.id a <> addedId s)
             (MeetingState.agents (state s))).
  { unfold removeAgent, handleAddAgent. simpl.
    rewrite filter_app, filter_cons_False, filter_nil, app_nil_r;
      [reflexivity|].
    simpl. intros H. apply H. reflexivity. }
  split; [|split; [exact Hremove|split]].
  - eexists. split; [reflexivity|]. split; [reflexivity|].
    split; [reflexivity|].
    exact (avatar_draw_range random (conj Hlo Hhi)).
  - intros Hfresh. rewrite Hremove. apply filter_other_ids_all. exact Hfresh.
  - intros Hlen. unfold startMeetingDisabled, handleAddAgent. simpl.
    rewrite length_app. simpl. apply Nat.ltb_ge. lia.
Qed.

Lemma handleAddAgent_appends_witness :
  MeetingState.agents
    (state (removeAgent (addedId (rosterOf [alice]))
              (handleAddAgent (1 # 3) (rosterOf [alice]))))
  = [alice]
  /\ startMeetingDisabled (handleAddAgent (1 # 3) (rosterOf [alice])) = false.
Proof.
  destruct (handleAddAgent_appends (1 # 3) (rosterOf [alice]))
    as (_ & _ & Hfresh & Henabled).
  - split; [discriminate|reflexivity].
  - split; [apply Hfresh|apply Henabled].
    + intros H. apply list_elem_of_singleton in H. discriminate H.
    + simpl. lia.
Defined.

(** Two agents added at the same clock value share their id, and
    removing that id removes both. *)
Example added_twice_in_one_millisecond :
  let s := handleAddAgent (1 # 2) (handleAddAgent (1 # 3) (rosterOf [alice])) in
  length (MeetingState.agents (state s)) = 3%nat
  /\ MeetingState.agents (state (removeAgent (addedId (rosterOf [alice])) s))
     = [alice].
Proof. split; reflexivity. Qed.

(** Editing keeps the ids of a roster distinct, and so does adding a
    participant unless the clock value is already in an id of the
    roster. *)
Lemma distinct_ids_kept (s : Sys) :
  NoDup (Agent.id <$> MeetingState.agents (state s)) ->
  (forall id,
     NoDup (Agent.id <$> MeetingState.agents (state (removeAgent id s))))
  /\ (forall id f value,
        NoDup (Agent.id
                 <$> MeetingState.agents (state (updateAgent id f value s))))
  /\ (forall random,
        addedId s ∉ (Agent.id <$> MeetingState.agents (state s)) ->
        NoDup (Agent.id
                 <$> MeetingState.agents (state (handleAddAgent random s)))).
Proof.
  intros Hnd. split; [|split].
  - intros id. unfold removeAgent. cbn. apply NoDup_ids_filter. exact Hnd.
  - intros id f value. unfold updateAgent. cbn.
    rewrite updateAgent_ids. exact Hnd.
  - intros random Hnew. unfold handleAddAgent. cbn.
    rewrite fmap_app. apply NoDup_app. split; [exact Hnd|].
    split; [|apply NoDup_singleton].
    intros x Hx Hin. apply list_elem_of_singleton in Hin. subst x.
    exact (Hnew Hx).
Qed.

(** ** Topic, summary, end and restart *)

(** X19.  Submitting a topic: a blank input starts nothing.  When the
    roster call fails, the failure notice is shown and stage, session
    state and input are left as they are; when it succeeds, the stage
    becomes [roles] with exactly the returned agents and, as topic, the
    text that was in the input when the handler started, even if the
    input has changed since; the input is then cleared.  The loading
    flag is lowered in both cases and the transcript is never touched. *)
Theorem topic_submission_outcomes (p : Page) :
  (isEmpty (trim (inputValue (sys p))) = true ->
     handleTopicSubmit p = (p, None))
  /\ (isEmpty (trim (inputValue (sys p))) = false ->
      exists request,
        handleTopicSubmit p = (setLoading true p, Some request)
        /\ requestTopic request = inputValue (sys p)
        /\ requestLanguage request = MeetingState.language (state (sys p)))
  /\ (forall request e,
        let p' := rolesSettled request (Throw e) p in
        sys p' = sys p
        /\ loading p' = false
        /\ alerts p' = alerts p ++ [genRolesFail (requestLanguage request)])
  /\ (forall request agents,
        let p' := rolesSettled request (Ok agents) p in
        stage (sys p') = rolesStage
        /\ MeetingState.topic (state (sys p')) = requestTopic request
        /\ MeetingState.agents (state (sys p')) = agents
        /\ MeetingState.messages (state (sys p'))
           = MeetingState.messages (state (sys p))
        /\ inputValue (sys p') = EmptyString
        /\ loading p' = false
        /\ alerts p' = alerts p).
Proof.
  unfold handleTopicSubmit.
  split; [|split; [|split]].
  - intros ->. reflexivity.
  - intros ->. eexists. split; [reflexivity|]. split; reflexivity.
  - intros request e. cbv zeta. repeat split.
  - intros request agents. cbv zeta. repeat split.
Qed.

(** A topic of white space only is blank, also when the white space is
    not ASCII: nothing is requested. *)
Example blank_topic_starts_nothing :
  let p := pageOf (setInputValue (ideographicSpace ++ " " ++ noBreakSpace)
                     (rosterOf [])) in
  handleTopicSubmit p = (p, None).
Proof. reflexivity. Qed.

(** X20.  Topic suggestions survive a failed refresh: a refresh that
    throws or returns no topic keeps the suggestions on display, one
    that returns topics replaces them, and the loading flag is lowered
    in every case.  Toggling the language twice restores the language
    and the rest of the session state, and each toggle starts a refresh
    in the language it switched to. *)
Theorem suggestions_and_language (p : Page) :
  (forall e, suggestedTopics (topicsSettled (Throw e) p) = suggestedTopics p)
  /\ suggestedTopics (topicsSettled (Ok []) p) = suggestedTopics p
  /\ (forall topic topics,
        suggestedTopics (topicsSettled (Ok (topic :: topics)) p)
        = topic :: topics)
  /\ (forall r, isLoadingSuggestions (topicsSettled r p) = false
                /\ sys (topicsSettled r p) = sys p)
  /\ (let (p1, lang1) := toggleLanguage p in
      let (p2, lang2) := toggleLanguage p1 in
      sys p2 = sys p
      /\ lang1 <> MeetingState.language (state (sys p))
      /\ MeetingState.language (state (sys p1)) = lang1
      /\ lang2 = MeetingState.language (state (sys p))
      /\ isLoadingSuggestions p1 = true
      /\ suggestedTopics p2 = suggestedTopics p).
Proof.
  split; [|split; [|split; [|split]]].
  - reflexivity.
  - reflexivity.
  - reflexivity.
  - intros r. unfold topicsSettled.
    destruct r as [topics|e]; [destruct (0 <? length topics)%nat|]; auto.
  - unfold toggleLanguage. simpl.
    destruct p as [s ? ? ? ? ? ? ?]. destruct s as [? st ? ? ? ? ? ? ?].
    destruct st as [? ? ? ? ? lang]. simpl.
    destruct lang; repeat split; discriminate.
Qed.

Lemma exec_summary_open evs : forall s s',
  isSummaryOpen s = true ->
  activation s = NoTurn ->
  exec s evs = Some s' ->
  isSummaryOpen s' = true /\ activation s' = NoTurn
  /\ MeetingState.isGenerating (state s')
     = MeetingState.isGenerating (state s)
  /\ thinkingAgentId s' = thinkingAgentId s.
Proof.
  induction evs as [|e evs IH]; intros s s' Ho Hn Hx; simpl in Hx.
  - injection Hx as <-. auto.
  - destruct (step s e) as [s1|] eqn:E; [|discriminate].
    assert (H1 : isSummaryOpen s1 = true /\ activation s1 = NoTurn
                 /\ MeetingState.isGenerating (state s1)
                    = MeetingState.isGenerating (state s)
                 /\ thinkingAgentId s1 = thinkingAgentId s).
    { pose proof (step_user_event _ _ _ E) as Hu.
      destruct e as [random|r random| |r|chunk|r|text| | |ms];
        try (unfold step in E; rewrite Hn in E; discriminate);
        try subst s1.
      - unfold step in E. rewrite Hn in E. injection E as <-.
        unfold processNextTurn, entryGuard. rewrite Ho. simpl.
        rewrite andb_false_r. simpl. auto.
      - simpl. auto.
      - destruct (handleUserMessage_shape s) as (E1 & E2 & E3 & _).
        rewrite E1, E2, E3. repeat split; auto.
        unfold handleUserMessage. destruct (isEmpty _); [auto|exact Ho].
      - simpl. auto.
      - destruct (elapse_shape ms s) as (E1 & E2 & E3 & _).
        rewrite E1, E2, E3. repeat split; auto.
        unfold elapse. destruct (filter _ _); auto. }
    destruct H1 as (E1 & E2 & E3 & E4).
    destruct (IH s1 s' E1 E2 Hx) as (F1 & F2 & F3 & F4).
    repeat split; congruence.
Qed.

(** X21.  The quick summary pauses the meeting.  Opening it lowers the
    active flag and asks for a summary of the transcript as it is at
    that moment; while it is open no turn starts, whatever timer fires
    and even if the user submits a message; closing it does not resume
    the meeting, the active flag staying off until a resume timer or the
    pause button raises it.  The summary text is the returned one, or a
    fixed error text. *)
Theorem quick_summary_pauses (p : Page) :
  let p1 := fst (handleQuickSummary p) in
  let request := snd (handleQuickSummary p) in
  MeetingState.isActive (state (sys p1)) = false
  /\ isSummaryOpen (sys p1) = true
  /\ isSummaryLoading p1 = true
  /\ summaryText p1 = EmptyString
  /\ requestHistory request = MeetingState.messages (state (sys p))
  /\ MeetingState.messages (state (sys p1))
     = MeetingState.messages (state (sys p))
  /\ (forall evs s',
        activation (sys p) = NoTurn ->
        exec (sys p1) evs = Some s' ->
        activation s' = NoTurn /\ isSummaryOpen s' = true)
  /\ entryGuard (sys (closeSummary p1)) = false
  /\ (forall r,
        isSummaryLoading (summarySettled r p1) = false
        /\ summaryText (summarySettled r p1)
           = match r with
             | Ok summary => summary
             | Throw _ => "Error generating summary."
             end).
Proof.
  cbv zeta. unfold handleQuickSummary. simpl.
  assert (Hoff : MeetingState.isActive
                   (state (sys (if MeetingState.isActive (state (sys p))
                                then onSys (setState (fun prev =>
                                       MeetingState.withIsActive prev false)) p
                                else p))) = false).
  { destruct (MeetingState.isActive (state (sys p))) eqn:E;
      [reflexivity|exact E]. }
  assert (Hmsgs : MeetingState.messages
                   (state (sys (if MeetingState.isActive (state (sys p))
                                then onSys (setState (fun prev =>
                                       MeetingState.withIsActive prev false)) p
                                else p)))
                  = MeetingState.messages (state (sys p))).
  { destruct (MeetingState.isActive (state (sys p))); reflexivity. }
  split; [exact Hoff|]. split; [reflexivity|]. split; [reflexivity|].
  split; [reflexivity|]. split; [reflexivity|]. split; [exact Hmsgs|].
  split; [|split].
  - intros evs s' Hn Hx.
    eapply exec_summary_open in Hx as (Ho & Hn' & _); [auto|reflexivity|].
    simpl. destruct (MeetingState.isActive (state (sys p))); exact Hn.
  - unfold entryGuard. simpl. rewrite Hoff. reflexivity.
  - intros r. destruct r; split; reflexivity.
Qed.

(** X22.  Ending the meeting freezes an idle scheduler and does not
    stop a pending turn.  The report is requested for the transcript as
    it is at the click.  With no turn pending, nothing is appended
    afterwards and no turn starts; a stream that is pending keeps
    writing to the last entry after the request was made.  The report
    text is the returned one, or a fixed error text, and the loading
    flag is lowered in both cases. *)
Theorem end_meeting_freezes (p : Page) :
  let p1 := fst (endMeeting p) in
  let request := snd (endMeeting p) in
  stage (sys p1) = reportStage
  /\ MeetingState.isActive (state (sys p1)) = false
  /\ loading p1 = true
  /\ requestHistory request = MeetingState.messages (state (sys p))
  /\ (forall evs s',
        activation (sys p) = NoTurn ->
        exec (sys p1) evs = Some s' ->
        activation s' = NoTurn
        /\ MeetingState.messages (state s') = requestHistory request)
  /\ (forall snap nextSpeaker fullContent chunk older m,
        activation (sys p) = AwaitChunk snap nextSpeaker fullContent ->
        MeetingState.messages (state (sys p)) = older ++ [m] ->
        exists s',
          step (sys p1) (StreamYielded chunk) = Some s'
          /\ MeetingState.messages (state s')
             = older ++ [Message.withContent m (fullContent ++ chunk)%string])
  /\ (forall r,
        loading (reportSettled r p1) = false
        /\ report (reportSettled r p1)
           = match r with Ok result => result | Throw _ => REPORT_FAILED end).
Proof.
  cbv zeta. unfold endMeeting. simpl.
  split; [reflexivity|]. split; [reflexivity|]. split; [reflexivity|].
  split; [reflexivity|]. split; [|split].
  - intros evs s' Hn Hx.
    eapply exec_outside_meeting in Hx as (_ & Hn' & Hm & _);
      [split; [exact Hn'|exact Hm]|discriminate|exact Hn].
  - intros snap sp full chunk older m Ha Hm. eexists. split.
    + unfold step. simpl. rewrite Ha. reflexivity.
    + exact (updateLastMessage_snoc (full ++ chunk)%string
               (sys (fst (endMeeting p))) older m Hm).
  - intros r. destruct r; split; reflexivity.
Qed.

(** X23.  Restarting gives a fresh session in the same language: the
    initial state with the language kept, the topic stage, an empty
    report and input, the turn counter at zero and a refresh of the
    suggestions in that language; restarting twice is restarting once.
    A turn that is pending is not cancelled, but what its stream yields
    afterwards changes nothing, the fresh transcript being empty. *)
Theorem restart_gives_fresh_session (p : Page) :
  let p1 := fst (restartApp p) in
  state (sys p1)
  = MeetingState.mk EmptyString [] [] false false
      (MeetingState.language (state (sys p)))
  /\ snd (restartApp p) = MeetingState.language (state (sys p))
  /\ stage (sys p1) = topicStage
  /\ turnCount (sys p1) = 0%N
  /\ inputValue (sys p1) = EmptyString
  /\ report p1 = EmptyString
  /\ isLoadingSuggestions p1 = true
  /\ fst (restartApp p1) = p1
  /\ activation (sys p1) = activation (sys p)
  /\ (forall snap nextSpeaker fullContent chunk,
        activation (sys p) = AwaitChunk snap nextSpeaker fullContent ->
        exists s',
          step (sys p1) (StreamYielded chunk) = Some s'
          /\ state s' = state (sys p1)
          /\ turnCount s' = 0%N).
Proof.
  cbv zeta. unfold restartApp. simpl.
  repeat (split; [reflexivity|]).
  intros snap sp full chunk Ha. eexists. split.
  - unfold step. simpl. rewrite Ha. reflexivity.
  - split; reflexivity.
Qed.

(** A thought that arrives after a restart still appends the speaker's
    message to the fresh transcript. *)
Example late_thought_reaches_fresh_session :
  let p := pageOf thoughtAwaited in
  (fun s => length (MeetingState.messages (state s)))
    <$> step (sys (fst (restartApp p))) (ThoughtSettled (Ok "Costs first."))
  = Some 1%nat.
Proof. reflexivity. Qed.

(** ** Saving, reloading and clearing a session *)

Lemma jsval_nested_ind (P : jsval -> Prop) :
  P JUndefined -> P JNull -> (forall b, P (JBool b)) ->
  (forall n, P (JNum n)) -> (forall s, P (JStr s)) ->
  (forall items, Forall P items -> P (JArr items)) ->
  (forall fields, Forall (fun kv => P kv.2) fields -> P (JObj fields)) ->
  forall v, P v.
Proof.
  intros Hu Hn Hb Hz Hs Ha Ho. fix IH 1.
  intros [ | |b|n|s|items|fields];
    [exact Hu|exact Hn|apply Hb|apply Hz|apply Hs| | ].
  - apply Ha. revert items. fix IHl 1.
    intros [|x l]; constructor; [apply IH|apply IHl].
  - apply Ho. revert fields. fix IHl 1.
    intros [|[k x] l]; constructor; [apply IH|apply IHl].
Qed.

Lemma jsonClean_arr items :
  Saving.jsonClean (JArr items) = JArr (cleanElement <$> items).
Proof.
  cbn [Saving.jsonClean]. f_equal.
  induction items as [|x l IH]; [reflexivity|].
  rewrite fmap_cons, <- IH. destruct x; reflexivity.
Qed.

Lemma jsonClean_obj fields :
  Saving.jsonClean (JObj fields) = JObj (omap cleanProperty fields).
Proof.
  cbn [Saving.jsonClean]. f_equal.
  induction fields as [|[k x] l IH]; [reflexivity|].
  cbn [omap list_omap]. rewrite <- IH. destruct x; reflexivity.
Qed.

Lemma cleanElement_defined x : cleanElement x <> JUndefined.
Proof. destruct x; discriminate. Qed.

Lemma jsonClean_undefined x :
  Saving.jsonClean x = JUndefined -> x = JUndefined.
Proof. destruct x; try discriminate; reflexivity. Qed.

Lemma cleanElement_twice x :
  Saving.jsonClean (Saving.jsonClean x) = Saving.jsonClean x ->
  cleanElement (cleanElement x) = cleanElement x.
Proof.
  intros IH. destruct x; try reflexivity; unfold cleanElement.
  - rewrite jsonClean_arr in *. exact IH.
  - rewrite jsonClean_obj in *. exact IH.
Qed.

Lemma cleanProperty_twice kv kv' :
  Saving.jsonClean (Saving.jsonClean kv.2) = Saving.jsonClean kv.2 ->
  cleanProperty kv = Some kv' -> cleanProperty kv' = Some kv'.
Proof.
  destruct kv as [k x]. unfold cleanProperty. cbn [fst snd]. intros IH E.
  assert (E' : kv' = (k, Saving.jsonClean x) /\ x <> JUndefined)
    by (destruct x; inversion E; split; congruence).
  destruct E' as [-> Hx]. cbn [fst snd].
  destruct (Saving.jsonClean x) eqn:Ex;
    [apply jsonClean_undefined in Ex; contradiction|..];
    rewrite IH; reflexivity.
Qed.

Lemma jsonClean_idempotent v :
  Saving.jsonClean (Saving.jsonClean v) = Saving.jsonClean v.
Proof.
  induction v as [ | |b|n|s|items IH|fields IH] using jsval_nested_ind;
    try reflexivity.
  - rewrite !jsonClean_arr. f_equal.
    induction IH as [|x l Hx Hl IHl]; [reflexivity|].
    rewrite !fmap_cons, IHl, cleanElement_twice by exact Hx. reflexivity.
  - rewrite !jsonClean_obj. f_equal.
    induction IH as [|kv l Hx Hl IHl]; [reflexivity|].
    cbn [omap list_omap].
    destruct (cleanProperty kv) as [kv'|] eqn:E; [|exact IHl].
    cbn [omap list_omap].
    rewrite (cleanProperty_twice kv kv' Hx E), IHl. reflexivity.
Qed.

Lemma jsonClean_truthy v : truthy (Saving.jsonClean v) = truthy v.
Proof. destruct v; reflexivity. Qed.

Lemma field_absent k fields : k ∉ fields.*1 -> field k fields = JUndefined.
Proof.
  induction fields as [|[k' v] l IH]; [reflexivity|].
  rewrite fmap_cons. cbn [fst field]. intros [Hne Hl]%not_elem_of_cons.
  destruct (String.eqb k k') eqn:E; [|auto].
  apply String.eqb_eq in E. contradiction.
Qed.

Lemma cleaned_keys k fields :
  k ∉ fields.*1 -> k ∉ (omap cleanProperty fields).*1.
Proof.
  intros H Hin. apply H.
  apply list_elem_of_fmap in Hin as ([k1 v1] & -> & Hin).
  apply list_elem_of_omap in Hin as ([k0 v0] & Hin0 & E).
  apply list_elem_of_fmap. exists (k0, v0). split; [|exact Hin0].
  unfold cleanProperty in E. cbn [fst snd] in *.
  destruct v0; inversion E; reflexivity.
Qed.

(** Reading a property after the round trip through JSON gives the
    cleaned value of the property. *)
Lemma field_cleaned k fields :
  NoDup fields.*1 ->
  field k (omap cleanProperty fields) = Saving.jsonClean (field k fields).
Proof.
  induction fields as [|[k' v] l IH]; intros Hnd; [reflexivity|].
  rewrite fmap_cons in Hnd. apply NoDup_cons in Hnd as [Hk Hnd].
  cbn [fst] in Hk. cbn [omap list_omap field].
  unfold cleanProperty at 1. cbn [fst snd].
  destruct (String.eqb k k') eqn:E.
  - apply String.eqb_eq in E. subst k'.
    destruct v; cbn [field]; rewrite ?String.eqb_refl; try reflexivity.
    apply field_absent, cleaned_keys, Hk.
  - destruct v; cbn [field]; rewrite ?E; auto.
Qed.

Lemma snapshot_keys_NoDup :
  NoDup ["stage"; "state"; "report"; "timestamp"].
Proof.
  repeat (apply NoDup_cons_2;
          [repeat (apply not_elem_of_cons; split; [discriminate|]);
           apply not_elem_of_nil|]).
  apply NoDup_nil_2.
Qed.

Lemma snapshot_fields (a b c : jsval) (now : Z) :
  let parsed :=
    Saving.jsonClean (JObj [("stage", a); ("state", b); ("report", c);
                            ("timestamp", JNum now)]) in
  get parsed "stage" = Some (Saving.jsonClean a)
  /\ get parsed "state" = Some (Saving.jsonClean b)
  /\ get parsed "report" = Some (Saving.jsonClean c)
  /\ get parsed "timestamp" = Some (JNum now).
Proof.
  cbv zeta. rewrite jsonClean_obj. cbn [get].
  rewrite !field_cleaned by exact snapshot_keys_NoDup.
  repeat split; reflexivity.
Qed.

Lemma saveSession_stores language now s :
  let s1 := Saving.saveSession language false now s in
  Persistence.saved s1
  = Some (Saving.JSON_stringify
            (JObj [("stage", Persistence.stage s);
                   ("state", Persistence.state s);
                   ("report", Persistence.report s);
                   ("timestamp", JNum now)]))
  /\ cells s1 = cells s
  /\ Persistence.savedSessionAvailable s1 = true
  /\ Persistence.t s1 = Persistence.t s.
Proof.
  cbv zeta. unfold Saving.saveSession.
  destruct (get (Persistence.state s) "topic"),
           (get (Persistence.state s) "language"); repeat split.
Qed.

Lemma restore_saved a b c now s :
  Persistence.saved s
  = Some (Saving.JSON_stringify
            (JObj [("stage", a); ("state", b); ("report", c);
                   ("timestamp", JNum now)])) ->
  Persistence.restoreSession s
  = Persistence.setCells (Saving.jsonClean a) (Saving.jsonClean b)
                         (Saving.jsonClean c) s.
Proof.
  intros H. unfold Persistence.restoreSession, Persistence.getItem.
  rewrite H. unfold Saving.JSON_stringify. cbn [isEmptyText JSON_parse].
  destruct (snapshot_fields a b c now) as (-> & -> & -> & _). reflexivity.
Qed.

(** X24.  Saving and restoring.  A save that the storage accepts leaves
    the live cells as they are, and restoring afterwards sets stage,
    state and report to what [JSON.parse(JSON.stringify(..))] makes of
    the saved ones, without the restore notice and with the item kept.
    What was restored is stable: saving and restoring it again, at any
    later time and in any language, gives the same cells. *)
Theorem save_restore_round_trip (language : Language) (now : Z)
    (s : Persistence.Store) :
  let s1 := Saving.saveSession language false now s in
  let s2 := Persistence.restoreSession s1 in
  cells s1 = cells s
  /\ cells s2 = (Saving.jsonClean (Persistence.stage s),
                 Saving.jsonClean (Persistence.state s),
                 Saving.jsonClean (Persistence.report s))
  /\ Persistence.alerts s2 = Persistence.alerts s1
  /\ Persistence.saved s2 = Persistence.saved s1
  /\ (forall language' now',
        cells (Persistence.restoreSession
                 (Saving.saveSession language' false now' s2))
        = cells s2).
Proof.
  cbv zeta.
  destruct (saveSession_stores language now s) as (Hsaved & Hcells & _).
  rewrite (restore_saved _ _ _ _ _ Hsaved).
  split; [exact Hcells|]. split; [reflexivity|].
  split; [reflexivity|]. split; [reflexivity|].
  intros language' now'.
  destruct (saveSession_stores language' now'
              (Persistence.setCells
                 (Saving.jsonClean (Persistence.stage s))
                 (Saving.jsonClean (Persistence.state s))
                 (Saving.jsonClean (Persistence.report s))
                 (Saving.saveSession language false now s)))
    as (Hsaved' & _).
  rewrite (restore_saved _ _ _ _ _ Hsaved').
  unfold cells. cbn [Persistence.setCells Persistence.stage
                     Persistence.state Persistence.report].
  rewrite !jsonClean_idempotent. reflexivity.
Qed.

(** A property that is [undefined] is gone after saving and restoring,
    and an [undefined] list element has become [null]. *)
Example undefined_does_not_survive_saving :
  Persistence.state
    (Persistence.restoreSession (Saving.saveSession zh false 1700 looseStore))
  = JObj [("topic", JStr EmptyString);
          ("agents", JArr [JNull; JStr "agent-1-0"]);
          ("messages", JArr [JObj [("id", JStr "1")]]);
          ("language", JStr "zh")].
Proof. reflexivity. Qed.

(** X25.  The saved-session banner after a save and after a reload.
    With a state object, a successful save shows the success notice and
    sets the banner to the topic as it is, the time of the save and the
    language.  The mount check of the next page load finds the item,
    keeps it, and shows the same time and language, but an empty topic
    as [Untitled Session]: the two banners agree exactly when the topic
    is not empty. *)
Theorem saved_metadata_after_reload (language : Language) (now : Z)
    (s : Persistence.Store) (fields : list (string * jsval)) :
  Persistence.state s = JObj fields ->
  NoDup fields.*1 ->
  let topic := field "topic" fields in
  let lang := field "language" fields in
  let s1 := Saving.saveSession language false now s in
  let s2 := Persistence.checkSavedSession s1 in
  Persistence.savedSessionMetadata s1 = Some (topic, JNum now, lang)
  /\ Persistence.alerts s1
     = Persistence.alerts s ++ [Saving.saveSuccess language]
  /\ Persistence.savedSessionAvailable s2 = true
  /\ Persistence.savedSessionMetadata s2
     = Some (if truthy topic then Saving.jsonClean topic
             else JStr "Untitled Session",
             JNum now, Saving.jsonClean lang)
  /\ Persistence.saved s2 = Persistence.saved s1
  /\ cells s2 = cells s.
Proof.
  intros Hst Hnd. cbv zeta.
  destruct (saveSession_stores language now s) as (Hsaved & Hcells & Hav & _).
  assert (Hcheck :
    Persistence.checkSavedSession (Saving.saveSession language false now s)
    = Persistence.setSavedSessionMetadata
        (Some (if truthy (field "topic" fields)
               then Saving.jsonClean (field "topic" fields)
               else JStr "Untitled Session",
               JNum now, Saving.jsonClean (field "language" fields)))
        (Persistence.setSavedSessionAvailable true
           (Saving.saveSession language false now s))).
  { unfold Persistence.checkSavedSession, Persistence.getItem.
    rewrite Hsaved. unfold Saving.JSON_stringify.
    cbn [isEmptyText JSON_parse].
    destruct (snapshot_fields (Persistence.stage s) (Persistence.state s)
                (Persistence.report s) now) as (_ & -> & _ & ->).
    rewrite Hst, jsonClean_obj. cbn [get].
    rewrite !field_cleaned by exact Hnd.
    rewrite jsonClean_truthy. reflexivity. }
  rewrite Hcheck.
  split; [|split].
  - unfold Saving.saveSession. rewrite Hst. reflexivity.
  - unfold Saving.saveSession. rewrite Hst. reflexivity.
  - repeat split; auto.
Qed.

Lemma saved_metadata_after_reload_witness :
  Persistence.savedSessionMetadata
    (Saving.saveSession en false 1700 (storeWith None))
  = Some (JStr EmptyString, JNum 1700, JStr "en")
  /\ Persistence.savedSessionMetadata
       (Persistence.checkSavedSession
          (Saving.saveSession en false 1700 (storeWith None)))
     = Some (JStr "Untitled Session", JNum 1700, JStr "en").
Proof.
  edestruct (saved_metadata_after_reload en 1700 (storeWith None))
    as (H1 & _ & _ & H2 & _); [reflexivity| |split; [exact H1|exact H2]].
  repeat (apply NoDup_cons_2;
          [repeat (apply not_elem_of_cons; split; [discriminate|]);
           apply not_elem_of_nil|]).
  apply NoDup_nil_2.
Defined.

(** X26.  A refused save and a cleared session.  When the storage
    refuses the item, nothing but the failure notice changes, so a
    restore afterwards brings back the snapshot saved before, not the
    session on screen.  Clearing removes the item and the banner and
    leaves the live cells; after it, restoring and the mount check do
    nothing, also when the session had just been saved. *)
Theorem refused_save_and_clear (language : Language) (now : Z)
    (s : Persistence.Store) :
  let s1 := Saving.saveSession language true now s in
  let s2 := Saving.clearSavedSession s in
  (Persistence.saved s1 = Persistence.saved s
   /\ cells s1 = cells s
   /\ Persistence.savedSessionAvailable s1
      = Persistence.savedSessionAvailable s
   /\ Persistence.savedSessionMetadata s1
      = Persistence.savedSessionMetadata s
   /\ Persistence.alerts s1
      = Persistence.alerts s ++ [Saving.saveFail language]
   /\ cells (Persistence.restoreSession s1)
      = cells (Persistence.restoreSession s))
  /\ (Persistence.saved s2 = None
      /\ Persistence.savedSessionAvailable s2 = false
      /\ Persistence.savedSessionMetadata s2 = None
      /\ cells s2 = cells s
      /\ Persistence.alerts s2 = Persistence.alerts s
      /\ Persistence.restoreSession s2 = s2
      /\ Persistence.checkSavedSession s2 = s2)
  /\ cells (Persistence.restoreSession
              (Saving.clearSavedSession
                 (Saving.saveSession language false now s)))
     = cells s.
Proof.
  cbv zeta. split; [|split].
  - repeat split.
    unfold Saving.saveSession, Persistence.restoreSession,
      Persistence.getItem. cbn.
    destruct (Persistence.saved s) as [text|]; [|reflexivity].
    destruct (isEmptyText text); [reflexivity|].
    destruct (JSON_parse text) as [parsed|]; [|reflexivity].
    destruct (get parsed "stage"), (get parsed "state"),
             (get parsed "report"); reflexivity.
  - repeat split.
  - destruct (saveSession_stores language now s) as (_ & Hcells & _).
    exact Hcells.
Qed.
